(** * Derived analytics and conversational session engine

    A shallow embedding of the finance dashboard ([src/app/page.tsx]) and of
    the chat centre ([app/chat/page.tsx]), with the properties of their
    derived analytics, budget optimisation, chat store and streaming
    assembler.

    Conventions of the embedding.
    - A JavaScript [number] is modelled by [JS.number]: an exact rational, or
      one of the three special values [+Infinity], [-Infinity], [NaN].
      Arithmetic on finite values is exact (no rounding to binary64, no
      overflow) and there is no signed zero; division by zero, [NaN]
      propagation, [||] truthiness and [Math.round] follow ECMAScript.
    - React state setters with an updater function ([setChats (prev => ...)])
      are functions from the old state to the new state, applied in order.
    - Impure inputs (the clock, [Math.random], the id generator, the network)
      are explicit arguments. *)

From Stdlib Require Import QArith Qcanon Qround Lia Lqa Ascii String.
From stdpp Require Import base option list strings gmap numbers pretty.

Local Open Scope Qc_scope.

(** ** Comparisons on rationals *)

Definition Qc_ltb (a b : Qc) : bool :=
  match a ?= b with Lt => true | _ => false end.

Definition Qc_eqb (a b : Qc) : bool :=
  match a ?= b with Eq => true | _ => false end.

(** ** JavaScript numbers *)

Module JS.

Inductive number : Type :=
  | Fin (q : Qc)
  | PInf
  | NInf
  | NaN.

#[global] Instance number_eq_dec : EqDecision number.
Proof. solve_decision. Defined.

(** A numeric literal of the source. *)
Definition num (q : Q) : number := Fin (Q2Qc q).

(** [arr.length] as a number. *)
Definition of_nat (n : nat) : number := num (inject_Z (Z.of_nat n)).

Definition is_finite (x : number) : Prop :=
  match x with Fin _ => True | _ => False end.

(** A finite number that is not negative. *)
Definition nonneg (x : number) : Prop :=
  match x with Fin q => 0 <= q | _ => False end.

Definition neg (x : number) : number :=
  match x with
  | Fin q => Fin (- q)
  | PInf => NInf
  | NInf => PInf
  | NaN => NaN
  end.

Definition add (x y : number) : number :=
  match x, y with
  | NaN, _ | _, NaN => NaN
  | Fin a, Fin b => Fin (a + b)
  | PInf, NInf | NInf, PInf => NaN
  | PInf, _ | _, PInf => PInf
  | NInf, _ | _, NInf => NInf
  end.

Definition sub (x y : number) : number := add x (neg y).

(** An infinity times a finite factor. *)
Definition scale_inf (inf : number) (a : Qc) : number :=
  if Qc_eqb a 0 then NaN else if Qc_ltb 0 a then inf else neg inf.

Definition mul (x y : number) : number :=
  match x, y with
  | NaN, _ | _, NaN => NaN
  | Fin a, Fin b => Fin (a * b)
  | Fin a, PInf => scale_inf PInf a
  | Fin a, NInf => scale_inf NInf a
  | PInf, Fin b => scale_inf PInf b
  | NInf, Fin b => scale_inf NInf b
  | PInf, PInf | NInf, NInf => PInf
  | PInf, NInf | NInf, PInf => NInf
  end.

(** Division. A zero divisor is the positive zero. *)
Definition div (x y : number) : number :=
  match x, y with
  | NaN, _ | _, NaN => NaN
  | Fin a, Fin b =>
      if Qc_eqb b 0 then
        (if Qc_eqb a 0 then NaN else if Qc_ltb 0 a then PInf else NInf)
      else Fin (a / b)
  | Fin _, (PInf | NInf) => Fin 0
  | PInf, Fin b => if Qc_ltb b 0 then NInf else PInf
  | NInf, Fin b => if Qc_ltb b 0 then PInf else NInf
  | (PInf | NInf), (PInf | NInf) => NaN
  end.

(** [x < y]; every comparison with [NaN] is false. *)
Definition lt (x y : number) : bool :=
  match x, y with
  | NaN, _ | _, NaN => false
  | Fin a, Fin b => Qc_ltb a b
  | PInf, _ => false
  | _, PInf => true
  | _, NInf => false
  | NInf, _ => true
  end.

Definition gt (x y : number) : bool := lt y x.

Definition Math_max (x y : number) : number :=
  match x, y with
  | NaN, _ | _, NaN => NaN
  | _, _ => if lt x y then y else x
  end.

Definition Math_min (x y : number) : number :=
  match x, y with
  | NaN, _ | _, NaN => NaN
  | _, _ => if lt y x then y else x
  end.

(** [Math.round]: the nearest integer, ties towards [+Infinity]. *)
Definition Math_round (x : number) : number :=
  match x with
  | Fin q => num (inject_Z (Qfloor (this q + (1 # 2))))
  | _ => x
  end.

(** Truthiness of a number: [0] and [NaN] are falsy. *)
Definition truthy (x : number) : bool :=
  match x with
  | Fin q => negb (Qc_eqb q 0)
  | NaN => false
  | _ => true
  end.

(** [x || y] on numbers. *)
Definition or (x y : number) : number := if truthy x then x else y.

(** [ToNumber] of a possibly [undefined] operand. *)
Definition to_number (x : option number) : number := default NaN x.

End JS.

Export JS.

Declare Scope js_scope.
Delimit Scope js_scope with js.
Bind Scope js_scope with number.
Infix "+" := add : js_scope.
Infix "-" := sub : js_scope.
Infix "*" := mul : js_scope.
Infix "/" := div : js_scope.
Infix ">" := gt : js_scope.
Infix "||" := or : js_scope.

(** [x ?? d] and [x || d] when [x] is a number or [undefined]. *)
Definition nullish (x : option number) (d : number) : number := default d x.

Definition or_undefined (x : option number) (d : number) : number :=
  match x with
  | Some v => (v || d)%js
  | None => d
  end.

(** ** The dashboard ([src/app/page.tsx], [EnhancedDashboardPage]) *)

Module Dashboard.

(** *** Data model *)

Inductive Mood := happy | neutral | stressed | regret.

Inductive Priority := high | medium | low.

(** The [id] of an expense is a string or a number. *)
Inductive ExpenseId := IdStr (s : string) | IdNum (n : number).

Module Expense.
Record t := mk {
  id : ExpenseId;
  amount : number;
  category : string;
  date : string;
  title : option string;
  tags : option (list string);
  mood : option Mood;
  confidence : option number;
  predicted : option bool;
  anomaly : option bool;
}.
End Expense.

Module Budget.
Record t := mk {
  category : string;
  limit : number;
  rollover : option bool;
  smartLimit : option number;
  priority : option Priority;
}.
End Budget.

Module FinancialGoal.
Record t := mk {
  id : string;
  title : string;
  target : number;
  current : number;
  deadline : string;
  category : string;
  priority : number;
}.
End FinancialGoal.

Module FinancialHealthScore.
Record t := mk {
  overall : number;
  spending : number;
  saving : number;
  budgeting : number;
  planning : number;
}.
End FinancialHealthScore.

(** *** The financial health score ([calculateFinancialHealth]) *)

Section FinancialHealth.
Local Open Scope js_scope.

Variable expenses : list Expense.t.
Variable budgets : list Budget.t.
Variable financialGoals : list FinancialGoal.t.

(** [expenses.reduce((s, e) => s + e.amount, 0)] *)
Definition totalSpent : number :=
  foldl (fun s e => s + Expense.amount e) (num 0) expenses.

(** [budgets.reduce((s, b) => s + b.limit, 0)] *)
Definition totalBudget : number :=
  foldl (fun s b => s + Budget.limit b) (num 0) budgets.

Definition spendingScore : number :=
  if totalBudget > num 0
  then Math_max (num 0) (num 100 - (totalSpent / totalBudget) * num 100)
  else num 50.

(** [financialGoals[0]?.current / financialGoals[0]?.target] reads both
    fields of the first goal, or [undefined] twice when there is none. *)
Definition savingScore : number :=
  Math_min (num 100)
    ((to_number (FinancialGoal.current <$> head financialGoals)
      / to_number (FinancialGoal.target <$> head financialGoals))
     * num 100 || num 0).

Definition budgetingScore : number :=
  if bool_decide (0 < length budgets)%nat then num 80 else num 20.

Definition planningScore : number :=
  if bool_decide (0 < length financialGoals)%nat then num 75 else num 25.

(** The record handed to [setFinancialHealth]. *)
Definition calculateFinancialHealth : FinancialHealthScore.t :=
  let overall :=
    Math_round
      ((spendingScore + savingScore + budgetingScore + planningScore) / num 4) in
  {| FinancialHealthScore.overall := overall;
     FinancialHealthScore.spending := Math_round spendingScore;
     FinancialHealthScore.saving := Math_round savingScore;
     FinancialHealthScore.budgeting := Math_round budgetingScore;
     FinancialHealthScore.planning := Math_round planningScore |}.

End FinancialHealth.

(** *** Derived data *)

(** An entry of [totalsByCategory]. *)
Record CategoryTotal := { name : string; value : number }.

(** An entry of [trendData]. *)
Module TrendPoint.
Record t := mk { date : string; spend : number; predicted : option bool }.
End TrendPoint.

Section Derived.
Local Open Scope js_scope.

(** The list [filtered]: the expenses left by the category, month and search
    filters, newest first. *)
Variable filtered : list Expense.t.

(** The object [map] of [totalsByCategory] after the [forEach]. A
    [Record<string, number>] is a finite map on its own properties: a
    category is taken not to name a property that objects inherit, and the
    order of [Object.entries] is left open. *)
Definition categoryMap : gmap string number :=
  foldl (fun map t =>
           <[Expense.category t :=
               nullish (map !! Expense.category t) (num 0) + Expense.amount t]> map)
        ∅ filtered.

(** [Object.entries(map).map(([name, value]) => ({ name, value }))] *)
Definition totalsByCategory : list CategoryTotal :=
  (fun '(n, v) => {| name := n; value := v |}) <$> map_to_list categoryMap.

(** [filtered.reduce((s, t) => s + t.amount, 0)] *)
Definition totalSpend : number :=
  foldl (fun s t => s + Expense.amount t) (num 0) filtered.

(** [filtered.filter(e => e.category === c).length] *)
Definition categoryCount (c : string) : number :=
  of_nat (length (filter (fun e => Expense.category e = c) filtered)).

(** The object [avgByCategory] built by the [reduce] over [totalsByCategory]. *)
Definition avgByCategory : gmap string number :=
  foldl (fun acc cat => <[name cat := value cat / categoryCount (name cat)]> acc)
        ∅ totalsByCategory.

(** The predicate of the anomaly filter. *)
Definition isAnomalous (expense : Expense.t) : bool :=
  let categoryAvg := or_undefined (avgByCategory !! Expense.category expense) (num 0) in
  Expense.amount expense > categoryAvg * num 2.

Definition anomalousExpenses : list Expense.t :=
  filter (fun expense => isAnomalous expense = true) filtered.

(** **** The trend series

    The clock and the calendar are inputs: [today] is the local calendar day
    of [new Date()] as a day count, [localDay s] is the local calendar day of
    [new Date(s)] ([None] for an invalid date, whose [toDateString()] equals
    that of no valid date), [isoKey d] is [toISOString().slice(5, 10)] of the
    current instant moved to day [d], and [random i] is the value of the
    [i]-th call of [Math.random()]. *)
Variable today : Z.
Variable localDay : string -> option Z.
Variable isoKey : Z -> string.
Variable random : nat -> number.

(** The spend of one calendar day: the [filter] and [reduce] of the first
    loop. *)
Definition spendOn (d : Z) : number :=
  foldl (fun s t => s + Expense.amount t) (num 0)
        (filter (fun t => localDay (Expense.date t) = Some d) filtered).

(** The first loop, [i] from 11 down to 0. *)
Definition actualDays : list TrendPoint.t :=
  (fun i : nat =>
     let d := (today - Z.of_nat i)%Z in
     {| TrendPoint.date := isoKey d; TrendPoint.spend := spendOn d;
        TrendPoint.predicted := None |})
  <$> rev (seq 0 12).

(** [days.reduce((s, day) => s + day.spend, 0) / days.length] *)
Definition avgSpend (days : list TrendPoint.t) : number :=
  foldl (fun s day => s + TrendPoint.spend day) (num 0) days / of_nat (length days).

(** The multiplier [0.8 + Math.random() * 0.4] of the [i]-th predicted day. *)
Definition jitter (i : nat) : number := num 0.8 + random i * num 0.4.

(** One turn of the second loop: the entry pushed on [days]. *)
Definition predictedDay (days : list TrendPoint.t) (i : nat) : TrendPoint.t :=
  let d := (today + Z.of_nat i)%Z in
  let predictedSpend := Math_round (avgSpend days * jitter i) in
  {| TrendPoint.date := isoKey d; TrendPoint.spend := predictedSpend;
     TrendPoint.predicted := Some true |}.

(** The second loop, [i] from 1 to 5, pushing on the same array. *)
Definition trendData : list TrendPoint.t :=
  foldl (fun days i => days ++ [predictedDay days i]) actualDays (seq 1 5).

(** **** Budget optimisation ([optimizeBudget]) *)

(** [totalsByCategory.find(t => t.name === category)?.value || 0] *)
Definition categorySpend (category : string) : number :=
  or_undefined
    (value <$> List.find (fun t => bool_decide (name t = category)) totalsByCategory)
    (num 0).

Definition optimizedAmount (category : string) : number :=
  Math_round (categorySpend category * num 1.1).

(** The updater handed to [setBudgets]. The text that [optimizeBudget] then
    hands to [setAiSuggestion] formats two numbers and changes no budget. *)
Definition optimizeBudget (category : string) (prev : list Budget.t) : list Budget.t :=
  (fun b =>
     if bool_decide (Budget.category b = category)
     then {| Budget.category := Budget.category b;
             Budget.limit := Budget.limit b;
             Budget.rollover := Budget.rollover b;
             Budget.smartLimit := Some (optimizedAmount category);
             Budget.priority := Budget.priority b |}
     else b) <$> prev.

(** **** The monthly projection ([kpiData])

    [dayOfMonth] is the value of [new Date().getDate()]. *)
Definition avgDaily (dayOfMonth : number) : number := totalSpend / dayOfMonth.

Definition projectedMonthly (dayOfMonth : number) : number :=
  avgDaily dayOfMonth * num 30.

End Derived.

End Dashboard.

(** ** Strings, JSON values and exceptions *)

(** Strings are UTF-8 byte sequences. The white space that [trim] removes is
    the ECMAScript [WhiteSpace] and [LineTerminator] code points: the ASCII
    ones, U+00A0, U+1680, U+2000 to U+200A, U+2028, U+2029, U+202F, U+205F,
    U+3000 and U+FEFF. *)
Definition is_space2 (c1 c2 : ascii) : bool :=
  match c1, c2 with
  | "194"%char, "160"%char => true
  | _, _ => false
  end.

Definition is_space3 (c1 c2 c3 : ascii) : bool :=
  match c1, c2 with
  | "225"%char, "154"%char => Ascii.eqb c3 "128"%char
  | "226"%char, "128"%char =>
      let n := nat_of_ascii c3 in
      ((128 <=? n) && (n <=? 138))%nat
      || Ascii.eqb c3 "168"%char || Ascii.eqb c3 "169"%char || Ascii.eqb c3 "175"%char
  | "226"%char, "129"%char => Ascii.eqb c3 "159"%char
  | "227"%char, "128"%char => Ascii.eqb c3 "128"%char
  | "239"%char, "187"%char => Ascii.eqb c3 "191"%char
  | _, _ => false
  end.

(** [s.trimStart()] *)
Fixpoint trimStart (s : string) : string :=
  match s with
  | EmptyString => EmptyString
  | String c1 s1 =>
      if Ascii.is_space c1 then trimStart s1
      else match s1 with
           | EmptyString => s
           | String c2 s2 =>
               if is_space2 c1 c2 then trimStart s2
               else match s2 with
                    | EmptyString => s
                    | String c3 s3 => if is_space3 c1 c2 c3 then trimStart s3 else s
                    end
           end
  end.

(** [s.trimEnd()]: cut where only white space follows. *)
Fixpoint trimEnd (s : string) : string :=
  match s with
  | EmptyString => EmptyString
  | String c s' =>
      match trimStart s with
      | EmptyString => EmptyString
      | _ => String c (trimEnd s')
      end
  end.

(** [s.trim()] *)
Definition trim (s : string) : string := trimEnd (trimStart s).

(** [s.split("\n")]: never empty. *)
Fixpoint split_lines (s : string) : list string :=
  match s with
  | EmptyString => [EmptyString]
  | String c s' =>
      if Ascii.eqb c "010"%char then EmptyString :: split_lines s'
      else match split_lines s' with
           | l :: ls => String c l :: ls
           | [] => [String c EmptyString]
           end
  end.

(** A parsed JSON value; [undefined] is [None] of [option JSON]. *)
#[warnings="-register-all"]
Inductive JSON :=
  | JNull
  | JBool (b : bool)
  | JNum (n : number)
  | JStr (s : string)
  | JArr (items : list JSON)
  | JObj (fields : list (string * JSON)).

(** [j?.k]: the own property [k] of an object, [undefined] on anything else. *)
Definition field (k : string) (j : option JSON) : option JSON :=
  match j with
  | Some (JObj fields) => snd <$> List.find (fun kv => bool_decide (fst kv = k)) fields
  | _ => None
  end.

(** [a ?? b] *)
Definition coalesce (a b : option JSON) : option JSON :=
  match a with
  | None | Some JNull => b
  | _ => a
  end.

(** The outcome of an operation that may throw; a thrown error is its
    [message]. *)
Inductive result (A : Type) :=
  | Ok (a : A)
  | Throw (message : string).
Arguments Ok {A} a.
Arguments Throw {A} message.

(** Computations on a state [S] that may throw. A throw keeps the state
    changes made before it. *)
Definition Eff (S A : Type) : Type := S -> S * result A.

Definition eff_ret {S A} (a : A) : Eff S A := fun s => (s, Ok a).

Definition eff_bind {S A B} (k : A -> Eff S B) (m : Eff S A) : Eff S B :=
  fun s => match m s with
           | (s', Ok a) => k a s'
           | (s', Throw e) => (s', Throw e)
           end.

#[global] Instance Eff_ret {S} : MRet (Eff S) := @eff_ret S.
#[global] Instance Eff_bind {S} : MBind (Eff S) := @eff_bind S.

Definition throw {S A} (message : string) : Eff S A := fun s => (s, Throw message).

(** The outcome of an awaited promise. *)
Definition await {S A} (r : result A) : Eff S A := fun s => (s, r).

Definition modify {S} (f : S -> S) : Eff S unit := fun s => (f s, Ok tt).

(** [try { m } catch (err) { handler err }] *)
Definition try_catch {S A} (m : Eff S A) (handler : string -> Eff S A) : Eff S A :=
  fun s => match m s with
           | (s', Throw e) => handler e s'
           | r => r
           end.

(** [try { m } finally { fin }] *)
Definition try_finally {S A} (m : Eff S A) (fin : Eff S unit) : Eff S A :=
  fun s => match m s with
           | (s', r) => match fin s' with
                        | (s'', Ok _) => (s'', r)
                        | (s'', Throw e) => (s'', Throw e)
                        end
           end.

(** A block with a mutable local variable captured by its closures. *)
Definition with_local {S L A} (init : L) (m : Eff (L * S) A) : Eff S A :=
  fun s => match m (init, s) with
           | ((_, s'), r) => (s', r)
           end.

(** [for (const x of xs) body x] *)
Fixpoint for_of {S A} (xs : list A) (body : A -> Eff S unit) : Eff S unit :=
  match xs with
  | [] => mret tt
  | x :: rest => body x ;; for_of rest body
  end.

(** ** The chat centre ([app/chat/page.tsx], [ChatCenter]) *)

Module ChatCenter.

(** *** Data model *)

Inductive Role := user | assistant | system.

Module Message.
Record t := mk {
  id : string;
  role : Role;
  content : string;
  ts : string;
  pinned : option bool;
}.
End Message.

Module Chat.
Record t := mk {
  id : string;
  title : string;
  createdAt : string;
  messages : list Message.t;
}.
End Chat.

(** [Partial<Message>]: [None] is an absent key. *)
Module Patch.
Record t := mk {
  id : option string;
  role : option Role;
  content : option string;
  ts : option string;
  pinned : option bool;
}.
End Patch.

(** [{ content: c }] *)
Definition contentPatch (c : string) : Patch.t :=
  {| Patch.id := None; Patch.role := None; Patch.content := Some c;
     Patch.ts := None; Patch.pinned := None |}.

(** [{ ...m, ...patch }] *)
Definition applyPatch (m : Message.t) (patch : Patch.t) : Message.t :=
  {| Message.id := default (Message.id m) (Patch.id patch);
     Message.role := default (Message.role m) (Patch.role patch);
     Message.content := default (Message.content m) (Patch.content patch);
     Message.ts := default (Message.ts m) (Patch.ts patch);
     Message.pinned :=
       match Patch.pinned patch with
       | Some b => Some b
       | None => Message.pinned m
       end |}.

(** [{ ...c, messages }] *)
Definition withMessages (c : Chat.t) (messages : list Message.t) : Chat.t :=
  {| Chat.id := Chat.id c; Chat.title := Chat.title c;
     Chat.createdAt := Chat.createdAt c; Chat.messages := messages |}.

(** *** Message operations

    Each is the updater handed to [setChats]. [addMessageToChat] receives the
    message it builds from [GEN_ID()] and [nowISO()]. *)

Definition addMessageToChat (chatId : string) (m : Message.t)
    (prev : list Chat.t) : list Chat.t :=
  (fun c => if bool_decide (Chat.id c = chatId)
            then withMessages c (Chat.messages c ++ [m]) else c) <$> prev.

Definition updateMessageInChat (chatId messageId : string) (patch : Patch.t)
    (prev : list Chat.t) : list Chat.t :=
  (fun c => if bool_decide (Chat.id c = chatId)
            then withMessages c
                   ((fun m => if bool_decide (Message.id m = messageId)
                              then applyPatch m patch else m) <$> Chat.messages c)
            else c) <$> prev.

Definition deleteMessageFromChat (chatId messageId : string)
    (prev : list Chat.t) : list Chat.t :=
  (fun c => if bool_decide (Chat.id c = chatId)
            then withMessages c
                   (filter (fun m => Message.id m <> messageId) (Chat.messages c))
            else c) <$> prev.

(** *** Category totals of the analytics panel *)

Module Expense.
Record t := mk { id : string + number; category : string; amount : number; date : string }.
End Expense.

(** The [map] after the [forEach]; here the lookup is defaulted by [||]. *)
Definition categoryMap (expenses : list Expense.t) : gmap string number :=
  foldl (fun map e =>
           <[Expense.category e :=
               (or_undefined (map !! Expense.category e) (num 0)
                + Expense.amount e)%js]> map)
        ∅ expenses.

(** [expenses] is [null] until the fetch has answered. *)
Definition totalsByCategory (expenses : option (list Expense.t)) : list Dashboard.CategoryTotal :=
  match expenses with
  | None => []
  | Some es =>
      (fun '(n, v) => {| Dashboard.name := n; Dashboard.value := v |})
      <$> map_to_list (categoryMap es)
  end.

(** *** The streaming helper and the send operation *)

(** The body of a response as its reader delivers it: the decoded text of
    each chunk, then the end of the stream, or a read that throws. *)
Record Body := { chunks : list string; failure : option string }.

Record Response := {
  ok : bool;
  status : nat;
  body : option Body;
  json : result JSON;
  text : result string;
}.

(** The React state the send operation writes. *)
Record App := {
  chats : list Chat.t;
  composerText : string;
  sending : bool;
  streamedTextTemp : gmap string string;
}.

Definition setChats (f : list Chat.t -> list Chat.t) (a : App) : App :=
  {| chats := f (chats a); composerText := composerText a;
     sending := sending a; streamedTextTemp := streamedTextTemp a |}.

Definition setComposerText (t : string) (a : App) : App :=
  {| chats := chats a; composerText := t;
     sending := sending a; streamedTextTemp := streamedTextTemp a |}.

Definition setSending (b : bool) (a : App) : App :=
  {| chats := chats a; composerText := composerText a;
     sending := b; streamedTextTemp := streamedTextTemp a |}.

Definition setStreamedTextTemp (f : gmap string string -> gmap string string)
    (a : App) : App :=
  {| chats := chats a; composerText := composerText a;
     sending := sending a; streamedTextTemp := f (streamedTextTemp a) |}.

Section Send.

(** The library functions [JSON.parse], [JSON.stringify] and [String] on a
    value that is not a string. *)
Variable JSON_parse : string -> result JSON.
Variable JSON_stringify : JSON -> string.
Variable String_of : option JSON -> string.

(** [String(v)], and a value inside a template literal. *)
Definition toString (v : option JSON) : string :=
  match v with
  | Some (JStr s) => s
  | _ => String_of v
  end.

(** The body of the [for] over the complete lines of the buffer. *)
Definition forwardLine {S} (onChunk : string -> Eff S unit) (line : string) : Eff S unit :=
  if bool_decide (trim line = EmptyString) then mret tt
  else
    try_catch
      (parsed ← await (JSON_parse line);
       let candidate :=
         coalesce (field "reply" (Some parsed))
           (coalesce (field "content" (Some parsed))
              (coalesce (field "content" (field "message" (Some parsed)))
                 (field "response" (Some parsed)))) in
       match candidate with
       | Some (JStr c) => onChunk c
       | _ => mret tt
       end)
      (fun _ => mret tt).

(** The [while] loop over [reader.read()]. *)
Fixpoint readLoop {S} (onChunk : string -> Eff S unit) (pending : list string)
    (failure : option string) (buffer : string) : Eff S unit :=
  match pending with
  | [] =>
      match failure with
      | Some e => throw e
      | None => mret tt
      end
  | chunk :: rest =>
      let buffer := buffer +:+ chunk in
      onChunk chunk ;;
      let lines := split_lines buffer in
      let buffer := default EmptyString (last lines) in
      for_of (removelast lines) (forwardLine onChunk) ;;
      readLoop onChunk rest failure buffer
  end.

Definition streamTextFromResponse {S} (res : Response)
    (onChunk : string -> Eff S unit) (onComplete : option (Eff S unit)) : Eff S unit :=
  match body res with
  | None =>
      t ← await (text res);
      onChunk t ;;
      default (mret tt) onComplete
  | Some b =>
      readLoop onChunk (chunks b) (failure b) EmptyString ;;
      default (mret tt) onComplete
  end.

(** The setting [streamEnabled], the outcome of [fetch], and the messages
    that the two calls of [addMessageToChat] build. *)
Variable streamEnabled : bool.
Variable fetched : result Response.
Variable userId userTs assistantId assistantTs : string.

Definition newMessage (id : string) (role : Role) (content ts : string) : Message.t :=
  {| Message.id := id; Message.role := role; Message.content := content;
     Message.ts := ts; Message.pinned := None |}.

(** The text of a response that is not [ok]. *)
Definition errorTextOf (res : Response) : Eff App string :=
  try_catch
    (j ← await (json res);
     mret (toString
             (coalesce (field "error" (Some j))
                (coalesce (field "message" (Some j))
                   (Some (JStr (JSON_stringify j)))))))
    (fun _ =>
       try_catch (await (text res))
         (fun _ => mret ("Error " +:+ pretty (status res)))).

(** The chunk callback of the streaming branch; [accumulated] is the local
    variable it closes over. The patch [{ content: accumulated }] is built
    when the callback runs; the updater of [setStreamedTextTemp] is run here
    at once as well. *)
Definition onChunkOf (chatId messageId : string) (chunk : string) : Eff (string * App) unit :=
  modify (fun '(accumulated, a) =>
            let accumulated := accumulated +:+ chunk in
            (accumulated,
             setStreamedTextTemp (fun s => <[messageId := accumulated]> s)
               (setChats (updateMessageInChat chatId messageId (contentPatch accumulated)) a))).

Definition onCompleteOf (messageId : string) : Eff (string * App) unit :=
  modify (fun '(accumulated, a) =>
            (accumulated, setStreamedTextTemp (fun s => delete messageId s) a)).

(** The request payload only reaches the server, whose answer is [fetched];
    the scroll scheduled by the [finally] block touches no state. *)
Definition sendChatMessage (chatId userText : string) : Eff App unit :=
  if bool_decide (trim userText = EmptyString) then mret tt
  else
    let trimmed := trim userText in
    let userMsg := newMessage userId user trimmed userTs in
    modify (setChats (addMessageToChat chatId userMsg)) ;;
    let assistantMsg :=
      newMessage assistantId assistant "⏳ Assistant is thinking..." assistantTs in
    modify (setChats (addMessageToChat chatId assistantMsg)) ;;
    modify (setComposerText EmptyString) ;;
    modify (setSending true) ;;
    modify (setStreamedTextTemp (fun s => <[Message.id assistantMsg := EmptyString]> s)) ;;
    try_finally
      (try_catch
         (res ← await fetched;
          if negb (ok res) then
            errorText ← errorTextOf res;
            modify (setChats (updateMessageInChat chatId (Message.id assistantMsg)
                                (contentPatch ("⚠️ " +:+ errorText)))) ;;
            modify (setSending false)
          else if bool_decide (is_Some (body res)) && streamEnabled then
            with_local EmptyString
              (streamTextFromResponse res
                 (onChunkOf chatId (Message.id assistantMsg))
                 (Some (onCompleteOf (Message.id assistantMsg))))
          else
            j ← await (json res);
            let reply :=
              coalesce (field "reply" (Some j))
                (coalesce (field "response" (Some j))
                   (coalesce (field "content" (field "message" (Some j)))
                      (Some (JStr (toString (Some j)))))) in
            modify (setChats (updateMessageInChat chatId (Message.id assistantMsg)
                                (contentPatch (toString reply)))))
         (fun err =>
            modify (setChats (updateMessageInChat chatId (Message.id assistantMsg)
                                (contentPatch ("⚠️ Network error: " +:+ err))))))
      (modify (setSending false)).

End Send.

End ChatCenter.

(** * More of the dashboard: actions and cards *)

Module DashboardActions.
Import Dashboard.

(** [a === b] on expense ids: no string equals a number, and [NaN] equals
    nothing. *)
Definition idEq (a b : ExpenseId) : bool :=
  match a, b with
  | IdStr s, IdStr t => bool_decide (s = t)
  | IdNum NaN, IdNum _ => false
  | IdNum x, IdNum y => bool_decide (x = y)
  | _, _ => false
  end.

(** [s.includes(sub)] *)
Fixpoint includes (s sub : string) : bool :=
  if String.prefix sub s then true
  else match s with
       | EmptyString => false
       | String _ s' => includes s' sub
       end.

(** The updater that [setBudgetLimit] hands to [setBudgets]. *)
Definition setBudgetLimit (category : string) (limit : number)
    (prev : list Budget.t) : list Budget.t :=
  match List.find (fun b => bool_decide (Budget.category b = category)) prev with
  | Some _ =>
      (fun b =>
         if bool_decide (Budget.category b = category)
         then {| Budget.category := Budget.category b;
                 Budget.limit := limit;
                 Budget.rollover := Budget.rollover b;
                 Budget.smartLimit := Budget.smartLimit b;
                 Budget.priority := Budget.priority b |}
         else b) <$> prev
  | None =>
      prev ++ [{| Budget.category := category; Budget.limit := limit;
                  Budget.rollover := None; Budget.smartLimit := None;
                  Budget.priority := Some medium |}]
  end.

(** The figures of a [SmartBudgetCard]. *)
Section BudgetCard.
Local Open Scope js_scope.

Variable budget : Budget.t.
Variable spent : number.

Definition percentage : number :=
  if truthy (Budget.limit budget)
  then Math_round ((spent / Budget.limit budget) * num 100)
  else num 0.

Definition isOverBudget : bool := percentage > num 100.

Definition isWarning : bool := percentage > num 80.

End BudgetCard.

(** The trend of the monthly spend in [kpiData]. *)
Inductive Trend := up | down | stable.

Definition monthlyTrend (filtered : list Expense.t) (dayOfMonth : number) : Trend :=
  if (projectedMonthly filtered dayOfMonth > totalSpend filtered)%js then up else down.

(** The keyword table of [suggestCategoryFromTitle], in the order of its
    keys. *)
Definition keywords : list (string * list string) :=
  [("Food", ["restaurant"; "food"; "lunch"; "dinner"; "cafe"; "pizza"; "burger"]);
   ("Transport", ["uber"; "taxi"; "bus"; "train"; "fuel"; "petrol"; "gas"]);
   ("Shopping", ["amazon"; "flipkart"; "mall"; "store"; "buy"; "purchase"]);
   ("Entertainment", ["movie"; "cinema"; "game"; "netflix"; "spotify"; "concert"]);
   ("Bills", ["electricity"; "water"; "rent"; "internet"; "phone"; "utility"]);
   ("Health", ["doctor"; "medicine"; "pharmacy"; "hospital"; "gym"; "fitness"])].

Definition DEFAULT_CATEGORIES : list string :=
  ["Food"; "Transport"; "Shopping"; "Bills"; "Entertainment"; "Health"; "Other"].

(** The state that the actions of the page read and write. *)
Record Page := {
  loading : bool;
  expenses : list Expense.t;
  budgets : list Budget.t;
  financialGoals : list FinancialGoal.t;
  financialHealth : FinancialHealthScore.t;
  categories : list string;
  titleQuick : string;
  amountQuick : string;
  categoryQuick : string;
  moodQuick : Mood;
}.

Definition setLoading (b : bool) (p : Page) : Page :=
  {| loading := b; expenses := expenses p; budgets := budgets p;
     financialGoals := financialGoals p; financialHealth := financialHealth p;
     categories := categories p;
     titleQuick := titleQuick p; amountQuick := amountQuick p;
     categoryQuick := categoryQuick p; moodQuick := moodQuick p |}.

Definition setExpenses (f : list Expense.t -> list Expense.t) (p : Page) : Page :=
  {| loading := loading p; expenses := f (expenses p); budgets := budgets p;
     financialGoals := financialGoals p; financialHealth := financialHealth p;
     categories := categories p;
     titleQuick := titleQuick p; amountQuick := amountQuick p;
     categoryQuick := categoryQuick p; moodQuick := moodQuick p |}.

Definition setBudgets (f : list Budget.t -> list Budget.t) (p : Page) : Page :=
  {| loading := loading p; expenses := expenses p; budgets := f (budgets p);
     financialGoals := financialGoals p; financialHealth := financialHealth p;
     categories := categories p;
     titleQuick := titleQuick p; amountQuick := amountQuick p;
     categoryQuick := categoryQuick p; moodQuick := moodQuick p |}.

Definition setCategories (f : list string -> list string) (p : Page) : Page :=
  {| loading := loading p; expenses := expenses p; budgets := budgets p;
     financialGoals := financialGoals p; financialHealth := financialHealth p;
     categories := f (categories p);
     titleQuick := titleQuick p; amountQuick := amountQuick p;
     categoryQuick := categoryQuick p; moodQuick := moodQuick p |}.

Definition setFinancialHealth (h : FinancialHealthScore.t) (p : Page) : Page :=
  {| loading := loading p; expenses := expenses p; budgets := budgets p;
     financialGoals := financialGoals p; financialHealth := h;
     categories := categories p;
     titleQuick := titleQuick p; amountQuick := amountQuick p;
     categoryQuick := categoryQuick p; moodQuick := moodQuick p |}.

(** The four setters that clear the quick-add form. *)
Definition resetQuickForm (p : Page) : Page :=
  {| loading := loading p; expenses := expenses p; budgets := budgets p;
     financialGoals := financialGoals p; financialHealth := financialHealth p;
     categories := categories p;
     titleQuick := EmptyString; amountQuick := EmptyString;
     categoryQuick := default EmptyString (head DEFAULT_CATEGORIES);
     moodQuick := neutral |}.

(** [setTimeout(calculateFinancialHealth, 100)], once the timer has fired. The
    callback is the one of the render in which the handler was created: it
    reads the expenses, budgets and goals of that render, [closure]. *)
Definition recalculateLater (closure : Page) (p : Page) : Page :=
  setFinancialHealth
    (calculateFinancialHealth (expenses closure) (budgets closure)
       (financialGoals closure)) p.

(** [deleteExpense(id)] *)
Definition deleteExpense (id : ExpenseId) (p : Page) : Page :=
  recalculateLater p
    (setExpenses (filter (fun x => idEq (Expense.id x) id = false)) p).

(** The two handlers of the category manager: the remove button, and the
    Enter key on the input holding [value]. *)
Definition removeCategory (category : string) (p : Page) : Page :=
  setCategories (filter (fun x => x <> category)) p.

Definition addCategory (value : string) (p : Page) : Page :=
  if bool_decide (trim value = EmptyString) then p
  else
    let value := trim value in
    if bool_decide (value ∈ categories p) then p
    else setCategories (fun prev => prev ++ [value]) p.

Section QuickAdd.

(** [s.toLowerCase()] and [Number(s)] of the library. *)
Variable toLowerCase : string -> string.
Variable Number_of : string -> number.

Definition suggestCategoryFromTitle (categoryQuick : string) (title : string) : string :=
  let lowerTitle := toLowerCase title in
  match List.find (fun row => existsb (fun word => includes lowerTitle word) (snd row))
                  keywords with
  | Some (category, _) => category
  | None => categoryQuick
  end.

(** The id and the date of the new expense, and the outcome of the [POST]. *)
Variable newId : string.
Variable now : string.
Variable posted : result unit.

Definition addQuickExpense : Eff Page unit :=
  fun p =>
    if bool_decide (amountQuick p = EmptyString) || bool_decide (categoryQuick p = EmptyString)
    then (p, Ok tt)
    else
      let hasTitle := negb (bool_decide (titleQuick p = EmptyString)) in
      let suggestedCategory :=
        if hasTitle then suggestCategoryFromTitle (categoryQuick p) (titleQuick p)
        else categoryQuick p in
      let newExpense :=
        {| Expense.id := IdStr newId;
           Expense.amount := Number_of (amountQuick p);
           Expense.category := suggestedCategory;
           Expense.date := now;
           Expense.title := if hasTitle then Some (titleQuick p) else None;
           Expense.tags := None;
           Expense.mood := Some (moodQuick p);
           Expense.confidence := Some (if hasTitle then num 85 else num 100);
           Expense.predicted := None;
           Expense.anomaly := None |} in
      (modify (setExpenses (fun prev => newExpense :: prev)) ;;
       modify resetQuickForm ;;
       try_catch (await posted) (fun _ => mret tt) ;;
       modify (recalculateLater p)) p.

End QuickAdd.

(** The state of the first render; [goalId] is the [generateId()] of the
    first goal. *)
Definition initialPage (goalId : string) : Page :=
  {| loading := true;
     expenses := [];
     budgets :=
       [{| Budget.category := "Food"; Budget.limit := num 8000;
           Budget.rollover := None; Budget.smartLimit := None;
           Budget.priority := Some high |};
        {| Budget.category := "Transport"; Budget.limit := num 3000;
           Budget.rollover := None; Budget.smartLimit := None;
           Budget.priority := Some medium |};
        {| Budget.category := "Shopping"; Budget.limit := num 6000;
           Budget.rollover := None; Budget.smartLimit := None;
           Budget.priority := Some low |}];
     financialGoals :=
       [{| FinancialGoal.id := goalId; FinancialGoal.title := "Emergency Fund";
           FinancialGoal.target := num 100000; FinancialGoal.current := num 25000;
           FinancialGoal.deadline := "2024-12-31";
           FinancialGoal.category := "Savings";
           FinancialGoal.priority := num 1 |}];
     financialHealth :=
       {| FinancialHealthScore.overall := num 75;
          FinancialHealthScore.spending := num 70;
          FinancialHealthScore.saving := num 80;
          FinancialHealthScore.budgeting := num 75;
          FinancialHealthScore.planning := num 75 |};
     categories := DEFAULT_CATEGORIES;
     titleQuick := EmptyString; amountQuick := EmptyString;
     categoryQuick := default EmptyString (head DEFAULT_CATEGORIES);
     moodQuick := neutral |}.

Section Load.

(** The outcome of the [try] block up to [normalized]: the fetch, the test
    of [res.ok], [res.json()] and the normalisation, any of which may throw;
    the value of [seedExpenses()]; and the flag [cancelled] when the fetch
    has answered. *)
Variable loaded : result (list Expense.t).
Variable seed : list Expense.t.
Variable cancelled : bool.

(** The effect that loads the expenses, with the timer of its [finally]
    block fired. [calculateFinancialHealth] is the callback of the render
    that ran the effect and reads the state [p] of that render. *)
Definition load : Eff Page unit :=
  fun p =>
    (modify (setLoading true) ;;
     try_finally
       (try_catch
          (normalized ← await loaded;
           if negb cancelled then modify (setExpenses (fun _ => normalized))
           else mret tt)
          (fun _ =>
             if negb cancelled then modify (setExpenses (fun _ => seed))
             else mret tt))
       (if negb cancelled
        then modify (recalculateLater p) ;; modify (setLoading false)
        else mret tt)) p.

End Load.

Section Filtered.

(** [s.toLowerCase()], [String(n)], and [sort] with the comparator on the
    dates. *)
Variable toLowerCase : string -> string.
Variable String_of : number -> string.
Variable sortNewestFirst : list Expense.t -> list Expense.t.

Variables catFilter monthFilter search : string.

Definition matchesCategory (e : Expense.t) : bool :=
  if bool_decide (catFilter = "All") then true
  else bool_decide (Expense.category e = catFilter).

Definition matchesMonth (e : Expense.t) : bool :=
  String.prefix monthFilter (Expense.date e).

Definition matchesSearch (e : Expense.t) : bool :=
  if negb (bool_decide (search = EmptyString)) then
    includes (toLowerCase (Expense.category e)) (toLowerCase search)
    || includes (String_of (Expense.amount e)) search
    || match Expense.title e with
       | Some title => includes (toLowerCase title) (toLowerCase search)
       | None => false
       end
  else true.

Definition filtered (expenses : list Expense.t) : list Expense.t :=
  sortNewestFirst
    (List.filter matchesSearch
       (List.filter matchesMonth
          (List.filter matchesCategory expenses))).

End Filtered.

End DashboardActions.

(** * More of the chat centre: the list of chats *)

Module ChatStore.
Import ChatCenter.

(** The two pieces of state that the chat actions write. *)
Record Store := { chats : list Chat.t; activeChatId : option string }.

(** [setActiveChat(id)] *)
Definition setActiveChat (id : string) (s : Store) : Store :=
  {| activeChatId := Some id;
     chats :=
       match List.find (fun c => bool_decide (Chat.id c = id)) (chats s) with
       | None => chats s
       | Some found => found :: filter (fun p => Chat.id p <> id) (chats s)
       end |}.

(** [createNewChat(title)]; [chatId] and [messageId] are the two values of
    [GEN_ID()], [createdAt] and [ts] the two of [nowISO()], and
    [defaultTitle] the text built from the local time. *)
Definition createNewChat (title : option string) (systemPrompt : string)
    (chatId messageId createdAt ts defaultTitle : string) (s : Store) : Store :=
  let c := {| Chat.id := chatId;
              Chat.title := default defaultTitle title;
              Chat.createdAt := createdAt;
              Chat.messages := [newMessage messageId system systemPrompt ts] |} in
  {| chats := c :: chats s; activeChatId := Some (Chat.id c) |}.

(** [deleteChat(id)]; [confirmed] is the answer to the [confirm] dialog. *)
Definition deleteChat (confirmed : bool) (id : string) (s : Store) : Store :=
  if negb confirmed then s
  else
    {| chats := filter (fun c => Chat.id c <> id) (chats s);
       activeChatId :=
         if bool_decide (activeChatId s = Some id) then
           match filter (fun c => Chat.id c <> id) (chats s) with
           | [] => None
           | first :: _ => Some (Chat.id first)
           end
         else activeChatId s |}.

(** [renameChat(id, title)] *)
Definition renameChat (id title : string) (s : Store) : Store :=
  {| chats :=
       (fun c => if bool_decide (Chat.id c = id)
                 then {| Chat.id := Chat.id c; Chat.title := title;
                         Chat.createdAt := Chat.createdAt c;
                         Chat.messages := Chat.messages c |}
                 else c) <$> chats s;
     activeChatId := activeChatId s |}.

(** [getActiveChat()] *)
Definition getActiveChat (s : Store) : option Chat.t :=
  match activeChatId s with
  | Some a => List.find (fun c => bool_decide (Chat.id c = a)) (chats s)
  | None => None
  end.

(** An entry of [expenseTrends]. *)
Module MonthTotal.
Record t := mk { month : string; amount : number }.
End MonthTotal.

Section Trends.

(** [new Date(d).toLocaleString('default', { month: 'short' })] *)
Variable monthOf : string -> string.

(** One step of the [reduce]: the first entry of the month grows in place,
    or a new entry is pushed. *)
Fixpoint addToMonth (month : string) (amount : number) (acc : list MonthTotal.t)
    : list MonthTotal.t :=
  match acc with
  | [] => [{| MonthTotal.month := month; MonthTotal.amount := amount |}]
  | item :: rest =>
      if bool_decide (MonthTotal.month item = month)
      then {| MonthTotal.month := MonthTotal.month item;
              MonthTotal.amount := (MonthTotal.amount item + amount)%js |} :: rest
      else item :: addToMonth month amount rest
  end.

Definition expenseTrends (expenseData : list Expense.t) : list MonthTotal.t :=
  foldl (fun acc expense =>
           addToMonth (monthOf (Expense.date expense)) (Expense.amount expense) acc)
        [] expenseData.

End Trends.

End ChatStore.

(** * The API routes *)

(** Whether a JSON value (or [undefined]) is truthy. *)
Definition truthyJ (v : option JSON) : bool :=
  match v with
  | None | Some JNull => false
  | Some (JBool b) => b
  | Some (JNum n) => truthy n
  | Some (JStr s) => negb (bool_decide (s = EmptyString))
  | Some (JArr _) | Some (JObj _) => true
  end.

(** [a || b] on JSON values. *)
Definition orJ (a b : option JSON) : option JSON := if truthyJ a then a else b.

(** The value that [const { ... } = v] reads its properties from, or the
    [TypeError] on [null]. *)
Definition destructured (v : JSON) : result JSON :=
  match v with
  | JNull => Throw "Cannot destructure a property of null"
  | _ => Ok v
  end.

(** What [NextResponse.json(body, { status })] sends. *)
Record RouteResponse := { status : nat; sent : JSON }.

(** An object literal as JSON: the keys with an [undefined] value are left
    out. *)
Definition objectOf (entries : list (string * option JSON)) : JSON :=
  JObj (omap (fun kv => match snd kv with
                        | Some v => Some (fst kv, v)
                        | None => None
                        end) entries).

(** ** [app/api/expenses/route.ts] *)

Module ExpensesRoute.

Module Stored.
Record t := mk { id : nat; title : option JSON; amount : option JSON; date : JSON }.
End Stored.

(** The two variables of the module. *)
Record Server := { expenses : list Stored.t; idCounter : nat }.

Definition initial : Server := {| expenses := []; idCounter := 1 |}.

Definition toJSON (e : Stored.t) : JSON :=
  objectOf [("id", Some (JNum (of_nat (Stored.id e))));
            ("title", Stored.title e);
            ("amount", Stored.amount e);
            ("date", Some (Stored.date e))].

Definition GET : Eff Server RouteResponse :=
  fun s => (s, Ok {| status := 200; sent := JArr (toJSON <$> expenses s) |}).

(** [idCounter++] *)
Definition nextId : Eff Server nat :=
  fun s => ({| expenses := expenses s; idCounter := S (idCounter s) |},
            Ok (idCounter s)).

(** [req] is the outcome of [req.json()], [now] the value of
    [new Date().toISOString()]. *)
Definition POST (req : result JSON) (now : string) : Eff Server RouteResponse :=
  try_catch
    (parsed ← await req;
     body ← await (destructured parsed);
     let title := field "title" (Some body) in
     let amount := field "amount" (Some body) in
     let date := field "date" (Some body) in
     id ← nextId;
     let newExpense :=
       {| Stored.id := id; Stored.title := title; Stored.amount := amount;
          Stored.date := default (JStr now) (orJ date (Some (JStr now))) |} in
     modify (fun s => {| expenses := expenses s ++ [newExpense];
                         idCounter := idCounter s |}) ;;
     mret {| status := 201; sent := toJSON newExpense |})
    (fun _ =>
       mret {| status := 400;
               sent := JObj [("error", JStr "Invalid expense format")] |}).

(** [expense.id !== id] *)
Definition differs (expense : Stored.t) (id : option JSON) : bool :=
  match id with
  | Some (JNum n) => negb (bool_decide (n = of_nat (Stored.id expense)))
  | _ => true
  end.

Definition DELETE (req : result JSON) : Eff Server RouteResponse :=
  try_catch
    (parsed ← await req;
     body ← await (destructured parsed);
     let id := field "id" (Some body) in
     modify (fun s => {| expenses := List.filter (fun expense => differs expense id)
                                       (expenses s);
                         idCounter := idCounter s |}) ;;
     mret {| status := 200; sent := JObj [("success", JBool true)] |})
    (fun _ =>
       mret {| status := 400;
               sent := JObj [("error", JStr "Invalid delete request")] |}).

(** A request to the route, and the server handling a sequence of them. *)
Inductive Request :=
  | Get
  | Post (req : result JSON) (now : string)
  | Delete (req : result JSON).

Definition handle (r : Request) : Eff Server RouteResponse :=
  match r with
  | Get => GET
  | Post req now => POST req now
  | Delete req => DELETE req
  end.

Definition serve (requests : list Request) (s : Server) : Server :=
  foldl (fun s r => fst (handle r s)) s requests.

End ExpensesRoute.

(** ** [app/api/chat/route.ts] *)

Module ChatRoute.

(** The answer of the Ollama server as the route reads it. *)
Record Upstream := { ok : bool; text : result string; json : result JSON }.

(** [v?.[0]] *)
Definition first (v : option JSON) : option JSON :=
  match v with
  | Some (JArr items) => head items
  | Some (JStr (String c _)) => Some (JStr (String c EmptyString))
  | Some (JObj _) => field "0" v
  | _ => None
  end.

(** [message.trim().length === 0]; [trim] is a method of strings only. *)
Definition isBlank (message : option JSON) : result bool :=
  match message with
  | Some (JStr m) => Ok (bool_decide (trim m = EmptyString))
  | _ => Throw "message.trim is not a function"
  end.

(** [...(history || [])]: arrays and strings can be spread. *)
Definition spread (history : option JSON) : result unit :=
  match orJ history (Some (JArr [])) with
  | Some (JArr _) | Some (JStr _) => Ok tt
  | _ => Throw "history is not iterable"
  end.

Definition reply (status : nat) (text : option JSON) : RouteResponse :=
  {| status := status; sent := objectOf [("reply", text)] |}.

(** The first [POST] of the file. [req] is the outcome of [req.json()],
    [fetched] the one of the request to Ollama. *)
Definition POST (req : result JSON) (fetched : result Upstream) : Eff unit RouteResponse :=
  try_catch
    (parsed ← await req;
     body ← await (destructured parsed);
     let message := field "message" (Some body) in
     let history := field "history" (Some body) in
     blank ← await (if negb (truthyJ message) then Ok true else isBlank message);
     if blank : bool then mret (reply 400 (Some (JStr "⚠️ Please enter a valid message.")))
     else
       _ ← await (spread history);
       response ← await fetched;
       if negb (ok response) then
         _ ← await (text response);
         mret (reply 500 (Some (JStr "⚠️ Failed to connect to Ollama.")))
       else
         data ← await (json response);
         let answer :=
           orJ (field "content" (field "message" (Some data)))
             (orJ (field "content" (first (field "messages" (Some data))))
                (Some (JStr "⚠️ No response from Llama3 model."))) in
         mret (reply 200 answer))
    (fun _ => mret (reply 500 (Some (JStr "⚠️ Internal server error in chatbot.")))).

(** The second [POST] of the file. *)
Definition POST_generate (req : result JSON) (fetched : result Upstream)
    : Eff unit RouteResponse :=
  try_catch
    (parsed ← await req;
     _ ← await (destructured parsed);
     response ← await fetched;
     data ← await (json response);
     data ← await (match data with
                   | JNull => Throw "Cannot read properties of null"
                   | _ => Ok data
                   end);
     mret (reply 200 (orJ (field "response" (Some data)) (Some data))))
    (fun message =>
       mret {| status := 500;
               sent := JObj [("error",
                              JStr (if bool_decide (message = EmptyString)
                                    then "Failed to connect to Llama3"
                                    else message))] |}).

End ChatRoute.

(** [data.reply] on a parsed body: a [TypeError] on [null]. *)
Definition replyOf (data : JSON) : result (option JSON) :=
  match data with
  | JNull => Throw "Cannot read properties of null (reading 'reply')"
  | _ => Ok (field "reply" (Some data))
  end.

(** * The first version of the page ([Home] in [app/page.tsx]) *)

Module HomePage.

(** The state that [handleChat] reads and writes. *)
Record Home := { chatInput : string; chatResponse : JSON; loading : bool }.

Definition setChatInput (t : string) (s : Home) : Home :=
  {| chatInput := t; chatResponse := chatResponse s; loading := loading s |}.

Definition setChatResponse (r : JSON) (s : Home) : Home :=
  {| chatInput := chatInput s; chatResponse := r; loading := loading s |}.

Definition setLoading (b : bool) (s : Home) : Home :=
  {| chatInput := chatInput s; chatResponse := chatResponse s; loading := b |}.

(** [answered] is the outcome of the [fetch] followed by [res.json()]. *)
Definition handleChat (answered : result JSON) : Eff Home unit :=
  fun s =>
    if bool_decide (trim (chatInput s) = EmptyString) then (s, Ok tt)
    else
      (modify (setLoading true) ;;
       modify (setChatResponse (JStr EmptyString)) ;;
       try_catch
         (data ← await answered;
          reply ← await (replyOf data);
          if truthyJ reply then modify (setChatResponse (default JNull reply))
          else modify (setChatResponse (JStr "⚠️ No reply from AI")))
         (fun _ =>
            modify (setChatResponse (JStr "❌ Error: Could not reach chatbot API"))) ;;
       modify (setLoading false) ;;
       modify (setChatInput EmptyString)) s.

End HomePage.

(** * The savings advice of the dashboard ([askAiForSavings]) *)

Module DashboardAdvice.

(** The two pieces of state that [askAiForSavings] writes. *)
Record Advice := { aiSuggestion : option string; suggestionLoading : bool }.

Definition setAiSuggestion (t : option string) (a : Advice) : Advice :=
  {| aiSuggestion := t; suggestionLoading := suggestionLoading a |}.

Definition setSuggestionLoading (b : bool) (a : Advice) : Advice :=
  {| aiSuggestion := aiSuggestion a; suggestionLoading := b |}.

Section Ask.

(** [String] on a value that is not a string. *)
Variable String_of : option JSON -> string.

(** [answered] is the outcome of the [fetch] followed by [res.json()]; the
    prompt only reaches the server. *)
Definition askAiForSavings (answered : result JSON) : Eff Advice unit :=
  modify (setSuggestionLoading true) ;;
  modify (setAiSuggestion None) ;;
  try_finally
    (try_catch
       (data ← await answered;
        reply ← await (replyOf data);
        modify (setAiSuggestion
                  (Some (ChatCenter.toString String_of
                           (coalesce reply (Some (JStr "No suggestion available.")))))))
       (fun _ =>
          modify (setAiSuggestion
                    (Some "AI suggestions temporarily unavailable. Please try again later."))))
    (modify (setSuggestionLoading false)).

End Ask.

End DashboardAdvice.


(** * Properties *)

(** ** Sample data *)

(** Closed equations between numbers, by evaluation. *)
Ltac js_eval := apply (bool_decide_unpack _); vm_compute; exact I.

Section Samples.
Import Dashboard.
Local Open Scope js_scope.

Definition expenseOf (c : string) (a : Q) (d : string) : Expense.t :=
  {| Expense.id := IdStr "e"; Expense.amount := num a; Expense.category := c;
     Expense.date := d; Expense.title := None; Expense.tags := None;
     Expense.mood := None; Expense.confidence := None;
     Expense.predicted := None; Expense.anomaly := None |}.

Definition budgetOf (c : string) (l : Q) (p : Priority) : Budget.t :=
  {| Budget.category := c; Budget.limit := num l; Budget.rollover := None;
     Budget.smartLimit := None; Budget.priority := Some p |}.

Definition goalOf (current target : Q) : FinancialGoal.t :=
  {| FinancialGoal.id := "g1"; FinancialGoal.title := "Emergency Fund";
     FinancialGoal.target := num target; FinancialGoal.current := num current;
     FinancialGoal.deadline := "2024-12-31"; FinancialGoal.category := "Savings";
     FinancialGoal.priority := num 1 |}.

Definition chatExpense (c : string) (a : Q) : ChatCenter.Expense.t :=
  ChatCenter.Expense.mk (inl "e") c (num a) "2025-01-01T00:00:00.000Z".

(** The amounts and categories of [seedExpenses], and the initial budgets and
    goal of the page. *)
Definition seedExpenses : list Expense.t :=
  [expenseOf "Food" 1200 "2025-01-12"; expenseOf "Transport" 450 "2025-01-11";
   expenseOf "Bills" 2800 "2025-01-09"; expenseOf "Entertainment" 700 "2025-01-07";
   expenseOf "Shopping" 3500 "2025-01-05"; expenseOf "Food" 650 "2025-01-02"].

Definition seedBudgets : list Budget.t :=
  [budgetOf "Food" 8000 high; budgetOf "Transport" 3000 medium;
   budgetOf "Shopping" 6000 low].

Definition seedGoals : list FinancialGoal.t := [goalOf 25000 100000].

(** 9300 spent of 17000 budgeted: the spending sub-score is 770/17, about
    45.29; the goal is a quarter funded. *)
Example seed_health :
  let h := calculateFinancialHealth seedExpenses seedBudgets seedGoals in
  spendingScore seedExpenses seedBudgets = num (770 # 17)
  /\ FinancialHealthScore.overall h = num 56
  /\ FinancialHealthScore.spending h = num 45
  /\ FinancialHealthScore.saving h = num 25
  /\ FinancialHealthScore.budgeting h = num 80
  /\ FinancialHealthScore.planning h = num 75.
Proof. intros h. repeat split; js_eval. Qed.

Example seed_totals :
  categoryMap seedExpenses !! "Food" = Some (num 1850)
  /\ categoryMap seedExpenses !! "Shopping" = Some (num 3500)
  /\ categoryMap seedExpenses !! "Health" = None
  /\ totalSpend seedExpenses = num 9300
  /\ length (totalsByCategory seedExpenses) = 5%nat.
Proof. repeat split; try js_eval; reflexivity. Qed.

(** No seed expense exceeds twice the mean of its category, whatever its
    stored [anomaly] flag says. *)
Example seed_anomalies : anomalousExpenses seedExpenses = [].
Proof. reflexivity. Qed.

Example seed_projection :
  projectedMonthly seedExpenses (num 10) = num 27900
  /\ projectedMonthly seedExpenses (num 0) = PInf
  /\ projectedMonthly [] (num 0) = NaN.
Proof. repeat split; js_eval. Qed.

Example trim_examples :
  trim "  hello world  " = "hello world"
  /\ trim " " = EmptyString
  /\ split_lines "Hel" = ["Hel"]
  /\ removelast (split_lines "{}") = [].
Proof. repeat split; reflexivity. Qed.

End Samples.

(** ** Rationals: bridging [Qc] and [Q] *)

Lemma Qc_eq_Qeq (a b : Qc) : a = b <-> (this a == this b)%Q.
Proof. split; [intros ->; reflexivity | apply Qc_is_canon]. Qed.

(** Turns a goal over [Qc] into one over [Q], where [lra] and [field] work. *)
Ltac qc2q :=
  repeat match goal with
  | H : @eq Qc _ _ |- _ => apply Qc_eq_Qeq in H
  | H : ~ @eq Qc _ _ |- _ => rewrite Qc_eq_Qeq in H
  | |- @eq Qc _ _ => apply Qc_is_canon
  | |- ~ @eq Qc _ _ => rewrite Qc_eq_Qeq
  end;
  unfold Qcle, Qclt, Qcdiv, Qcminus, Qcopp, Qcplus, Qcmult, Qcinv, Q2Qc in *;
  cbn [this] in *;
  repeat (rewrite !Qred_correct in * );
  repeat match goal with
  | H : context [Qred ?x] |- _ => rewrite (Qred_correct x) in H
  end.

Lemma Qc_ltb_lt (a b : Qc) : Qc_ltb a b = true <-> a < b.
Proof.
  unfold Qc_ltb. rewrite Qclt_alt. destruct (a ?= b); intuition congruence.
Qed.

Lemma Qc_ltb_ge (a b : Qc) : Qc_ltb a b = false <-> b <= a.
Proof.
  rewrite <- not_true_iff_false, Qc_ltb_lt. split.
  - apply Qcnot_lt_le.
  - apply Qcle_not_lt.
Qed.

Lemma Qc_eqb_eq (a b : Qc) : Qc_eqb a b = true <-> a = b.
Proof.
  unfold Qc_eqb. rewrite Qceq_alt. destruct (a ?= b); intuition congruence.
Qed.

Lemma Qc_eqb_neq (a b : Qc) : Qc_eqb a b = false <-> a <> b.
Proof. rewrite <- not_true_iff_false, Qc_eqb_eq. reflexivity. Qed.

Lemma Qc_ltb_irrefl (a : Qc) : Qc_ltb a a = false.
Proof. apply Qc_ltb_ge, Qcle_refl. Qed.

(** ** Numbers: the additive structure *)

Section NumberAlgebra.
Local Open Scope js_scope.

Lemma add_comm (x y : number) : x + y = y + x.
Proof. destruct x, y; simpl; try reflexivity. f_equal. ring. Qed.

Lemma add_assoc (x y z : number) : x + (y + z) = (x + y) + z.
Proof. destruct x, y, z; simpl; try reflexivity. f_equal. ring. Qed.

Lemma add_0_l (x : number) : num 0 + x = x.
Proof. destruct x; simpl; try reflexivity. f_equal. ring. Qed.

Lemma add_0_r (x : number) : x + num 0 = x.
Proof. rewrite add_comm. apply add_0_l. Qed.

Lemma is_finite_Fin (x : number) : is_finite x <-> exists q, x = Fin q.
Proof.
  destruct x; simpl; split; try tauto; try (intros [q Hq]; discriminate).
  eauto.
Qed.

Lemma nonneg_Fin (x : number) : nonneg x <-> exists q, x = Fin q /\ (0 <= q)%Qc.
Proof.
  destruct x; simpl; split; try tauto; try (intros [q0 [Hq _]]; discriminate).
  - eauto.
  - intros [q0 [Hq Hle]]. congruence.
Qed.

Lemma nonneg_is_finite (x : number) : nonneg x -> is_finite x.
Proof. destruct x; simpl; tauto. Qed.

Lemma add_is_finite (x y : number) : is_finite x -> is_finite y -> is_finite (x + y).
Proof. destruct x, y; simpl; tauto. Qed.

Lemma add_nonneg (x y : number) : nonneg x -> nonneg y -> nonneg (x + y).
Proof.
  destruct x, y; simpl; try tauto. apply Qcplus_nonneg_nonneg.
Qed.

(** On a finite value, [x || 0] is [x]. *)
Lemma or_0_finite (x : number) : is_finite x -> (x || num 0) = x.
Proof.
  destruct x as [q| | |]; simpl; try tauto. intros _.
  unfold or, truthy. destruct (Qc_eqb q 0) eqn:E; simpl; [|reflexivity].
  apply Qc_eqb_eq in E. subst q. reflexivity.
Qed.

(** The sum of a list, and its reading as a left fold that starts anywhere. *)
Definition total (l : list number) : number := foldr add (num 0) l.

Lemma foldl_add_total {A} (f : A -> number) (l : list A) (z : number) :
  foldl (fun s x => s + f x) z l = z + total (f <$> l).
Proof.
  revert z. induction l as [|x l IH]; intros z; simpl.
  - symmetry. apply add_0_r.
  - rewrite IH. symmetry. apply add_assoc.
Qed.

#[global] Instance total_perm : Proper (Permutation ==> eq) total.
Proof.
  intros l k Hperm. induction Hperm as [|x l k _ IH|x y l|l k m _ IH1 _ IH2]; simpl.
  - reflexivity.
  - f_equal. exact IH.
  - rewrite !add_assoc. f_equal. apply add_comm.
  - congruence.
Qed.

Lemma total_app (l k : list number) : total (l ++ k) = total l + total k.
Proof.
  induction l as [|x l IH]; simpl.
  - symmetry. apply add_0_l.
  - fold (total (l ++ k)). fold (total l). rewrite IH. apply add_assoc.
Qed.

Lemma total_is_finite (l : list number) : Forall is_finite l -> is_finite (total l).
Proof.
  induction 1 as [|x l Hx Hl IH]; simpl; [exact I|].
  apply add_is_finite; assumption.
Qed.

Lemma total_nonneg (l : list number) : Forall nonneg l -> nonneg (total l).
Proof.
  induction 1 as [|x l Hx Hl IH]; simpl.
  - unfold Qcle. simpl. lra.
  - apply add_nonneg; assumption.
Qed.

End NumberAlgebra.

(** ** Grouping by category *)

(** The sum of the values of a map of totals. *)
Definition map_total (m : gmap string number) : number :=
  total ((map_to_list m).*2).

Section GroupBy.
Local Open Scope js_scope.

(** The two pages share the shape of the aggregation: a record type [A] with
    a category and an amount, and a default for the missing key. *)
Context {A : Type} (cat : A -> string) (amt : A -> number).

Definition accumulate (dflt : option number -> number) (map : gmap string number) (t : A) :
    gmap string number :=
  <[cat t := dflt (map !! cat t) + amt t]> map.

(** The amounts of one category, summed in the order of the list. *)
Definition spentIn (c : string) (l : list A) : number :=
  foldl (fun s t => s + amt t) (num 0) (filter (fun t => cat t = c) l).

Lemma map_total_empty : map_total ∅ = num 0.
Proof. unfold map_total. rewrite map_to_list_empty. reflexivity. Qed.

Lemma map_total_insert_None (m : gmap string number) k v :
  m !! k = None -> map_total (<[k := v]> m) = v + map_total m.
Proof.
  intros Hk. unfold map_total. rewrite (map_to_list_insert m k v Hk). reflexivity.
Qed.

Lemma map_total_delete (m : gmap string number) k v :
  m !! k = Some v -> map_total m = v + map_total (delete k m).
Proof.
  intros Hk. unfold map_total. rewrite <- (map_to_list_delete m k v Hk). reflexivity.
Qed.

Lemma map_total_accumulate (m : gmap string number) (t : A) :
  map_total (accumulate (fun o => nullish o (num 0)) m t) = map_total m + amt t.
Proof.
  unfold accumulate, nullish. destruct (m !! cat t) as [v|] eqn:Hk; cbn [default].
  - rewrite <- insert_delete_eq.
    rewrite map_total_insert_None by apply lookup_delete_eq.
    rewrite (map_total_delete m (cat t) v Hk).
    rewrite <- !add_assoc. f_equal. apply add_comm.
  - rewrite map_total_insert_None by exact Hk.
    rewrite add_0_l. apply add_comm.
Qed.

Lemma map_total_foldl (l : list A) (m : gmap string number) :
  map_total (foldl (accumulate (fun o => nullish o (num 0))) m l)
  = map_total m + total (amt <$> l).
Proof.
  revert m. induction l as [|t l IH]; intros m; simpl.
  - symmetry. apply add_0_r.
  - rewrite IH, map_total_accumulate. symmetry. apply add_assoc.
Qed.

(** With finite values in the map, defaulting by [||] or by [??] agree. *)
Lemma or_undefined_nullish (m : gmap string number) (c : string) :
  map_Forall (fun _ v => is_finite v) m ->
  or_undefined (m !! c) (num 0) = nullish (m !! c) (num 0).
Proof.
  intros Hm. destruct (m !! c) as [v|] eqn:Hk; simpl; [|reflexivity].
  apply or_0_finite. exact (Hm c v Hk).
Qed.

Lemma accumulate_finite dflt (m : gmap string number) (t : A) :
  (forall o, (forall v, o = Some v -> is_finite v) -> is_finite (dflt o)) ->
  map_Forall (fun _ v => is_finite v) m -> is_finite (amt t) ->
  map_Forall (fun _ v => is_finite v) (accumulate dflt m t).
Proof.
  intros Hd Hm Ht. unfold accumulate. apply map_Forall_insert_2; [|exact Hm].
  apply add_is_finite; [|exact Ht]. apply Hd. intros v Hv. exact (Hm _ _ Hv).
Qed.

Lemma foldl_accumulate_or (l : list A) (m : gmap string number) :
  Forall (fun t => is_finite (amt t)) l ->
  map_Forall (fun _ v => is_finite v) m ->
  foldl (accumulate (fun o => or_undefined o (num 0))) m l
  = foldl (accumulate (fun o => nullish o (num 0))) m l.
Proof.
  intros Hl. revert m. induction Hl as [|t l Ht Hl IH]; intros m Hm; simpl.
  - reflexivity.
  - assert (E : accumulate (fun o => or_undefined o (num 0)) m t
                = accumulate (fun o => nullish o (num 0)) m t).
    { unfold accumulate. rewrite (or_undefined_nullish m _ Hm). reflexivity. }
    rewrite E. apply IH. apply accumulate_finite; try assumption.
    intros [v|] Hv; simpl; [apply Hv; reflexivity | exact I].
Qed.

(** What the aggregation stores under a key: nothing when no record has the
    category, else its amounts summed in list order. *)
Lemma foldl_accumulate_lookup (l : list A) (m : gmap string number) (c : string) :
  foldl (accumulate (fun o => nullish o (num 0))) m l !! c
  = match filter (fun t => cat t = c) l with
    | [] => m !! c
    | ts => Some (foldl (fun s t => s + amt t) (nullish (m !! c) (num 0)) ts)
    end.
Proof.
  revert m. induction l as [|t l IH]; intros m; simpl; [reflexivity|].
  rewrite IH. rewrite filter_cons.
  destruct (decide (cat t = c)) as [E|Hne].
  - subst c. unfold accumulate. rewrite lookup_insert_eq.
    destruct (filter _ l); reflexivity.
  - unfold accumulate. rewrite lookup_insert_ne by exact Hne. reflexivity.
Qed.

Lemma categoryMap_lookup (l : list A) (c : string) :
  foldl (accumulate (fun o => nullish o (num 0))) ∅ l !! c
  = match filter (fun t => cat t = c) l with
    | [] => None
    | _ => Some (spentIn c l)
    end.
Proof.
  rewrite foldl_accumulate_lookup, lookup_empty. unfold spentIn.
  destruct (filter _ l); reflexivity.
Qed.

End GroupBy.

(** ** Conservation of the total *)

Lemma entries_values (l : list (string * number)) :
  Dashboard.value <$> ((fun '(n, v) => {| Dashboard.name := n; Dashboard.value := v |}) <$> l)
  = l.*2.
Proof.
  rewrite <- list_fmap_compose. apply list_fmap_ext. intros _ [n v] _. reflexivity.
Qed.

Lemma entries_names (l : list (string * number)) :
  Dashboard.name <$> ((fun '(n, v) => {| Dashboard.name := n; Dashboard.value := v |}) <$> l)
  = l.*1.
Proof.
  rewrite <- list_fmap_compose. apply list_fmap_ext. intros _ [n v] _. reflexivity.
Qed.

Lemma dashboard_totals_sum (filtered : list Dashboard.Expense.t) :
  foldl (fun s t => (s + Dashboard.value t)%js) (num 0) (Dashboard.totalsByCategory filtered)
  = Dashboard.totalSpend filtered.
Proof.
  unfold Dashboard.totalsByCategory, Dashboard.totalSpend, Dashboard.categoryMap.
  rewrite !foldl_add_total, entries_values.
  change (total (map_to_list ?m).*2) with (map_total m).
  rewrite (map_total_foldl Dashboard.Expense.category Dashboard.Expense.amount).
  rewrite map_total_empty, !add_0_l. reflexivity.
Qed.

Lemma chat_totals_sum (expenses : list ChatCenter.Expense.t) :
  Forall (fun e => is_finite (ChatCenter.Expense.amount e)) expenses ->
  foldl (fun s t => (s + Dashboard.value t)%js) (num 0)
        (ChatCenter.totalsByCategory (Some expenses))
  = foldl (fun s e => (s + ChatCenter.Expense.amount e)%js) (num 0) expenses.
Proof.
  intros Hfin. unfold ChatCenter.totalsByCategory, ChatCenter.categoryMap.
  rewrite !foldl_add_total, entries_values.
  change (total (map_to_list ?m).*2) with (map_total m).
  rewrite (foldl_accumulate_or ChatCenter.Expense.category ChatCenter.Expense.amount
             expenses ∅ Hfin) by apply map_Forall_empty.
  rewrite (map_total_foldl ChatCenter.Expense.category ChatCenter.Expense.amount).
  rewrite map_total_empty, !add_0_l. reflexivity.
Qed.



(** ** The chat store: message operations touch one chat only *)

Section ChatFrame.
Import ChatCenter.

(** The three operations map one function over the chats, and that function
    is the identity off the target chat. *)
Lemma lookup_fmap_other (f : Chat.t -> Chat.t) (chatId : string)
    (prev : list Chat.t) (i : nat) (c : Chat.t) :
  (forall c', Chat.id c' <> chatId -> f c' = c') ->
  prev !! i = Some c -> Chat.id c <> chatId -> (f <$> prev) !! i = Some c.
Proof.
  intros Hf Hi Hne. rewrite list_lookup_fmap, Hi. simpl. f_equal. apply Hf, Hne.
Qed.

Lemma addMessageToChat_other chatId m prev i c :
  prev !! i = Some c -> Chat.id c <> chatId ->
  addMessageToChat chatId m prev !! i = Some c.
Proof.
  apply lookup_fmap_other. intros c' Hc'. rewrite bool_decide_eq_false_2; done.
Qed.

Lemma updateMessageInChat_other chatId messageId patch prev i c :
  prev !! i = Some c -> Chat.id c <> chatId ->
  updateMessageInChat chatId messageId patch prev !! i = Some c.
Proof.
  apply lookup_fmap_other. intros c' Hc'. rewrite bool_decide_eq_false_2; done.
Qed.

Lemma deleteMessageFromChat_other chatId messageId prev i c :
  prev !! i = Some c -> Chat.id c <> chatId ->
  deleteMessageFromChat chatId messageId prev !! i = Some c.
Proof.
  apply lookup_fmap_other. intros c' Hc'. rewrite bool_decide_eq_false_2; done.
Qed.

(** C10. [addMessageToChat], [updateMessageInChat] and
    [deleteMessageFromChat] keep the number of chats, and a chat whose id
    differs from the target [chatId] stays at its position, unchanged as a
    whole: same id, title, creation time and message list. *)
Theorem message_operations_frame (chatId messageId : string) (m : Message.t)
    (patch : Patch.t) (prev : list Chat.t) (i : nat) (c : Chat.t) :
  prev !! i = Some c ->
  Chat.id c <> chatId ->
  (addMessageToChat chatId m prev !! i = Some c
   /\ length (addMessageToChat chatId m prev) = length prev)
  /\ (updateMessageInChat chatId messageId patch prev !! i = Some c
      /\ length (updateMessageInChat chatId messageId patch prev) = length prev)
  /\ (deleteMessageFromChat chatId messageId prev !! i = Some c
      /\ length (deleteMessageFromChat chatId messageId prev) = length prev).
Proof.
  intros Hi Hne. repeat split.
  - exact (addMessageToChat_other chatId m prev i c Hi Hne).
  - apply length_fmap.
  - exact (updateMessageInChat_other chatId messageId patch prev i c Hi Hne).
  - apply length_fmap.
  - exact (deleteMessageFromChat_other chatId messageId prev i c Hi Hne).
  - apply length_fmap.
Qed.

Definition seedMessage (id : string) (r : Role) (text : string) : Message.t :=
  {| Message.id := id; Message.role := r; Message.content := text;
     Message.ts := "2025-01-01T00:00:00.000Z"; Message.pinned := None |}.

Definition seedChat (id title : string) (ms : list Message.t) : Chat.t :=
  {| Chat.id := id; Chat.title := title;
     Chat.createdAt := "2025-01-01T00:00:00.000Z"; Chat.messages := ms |}.

Definition twoChats : list Chat.t :=
  [seedChat "c1" "Monthly expenses analysis"
     [seedMessage "m1" system "You are a helpful personal finance assistant.";
      seedMessage "m2" user "Give a quick summary."];
   seedChat "c2" "SIP vs RD advice"
     [seedMessage "m3" system "You are a helpful personal finance assistant.";
      seedMessage "m4" user "Should I start a SIP?"]].

Lemma message_operations_frame_witness :
  let c := seedChat "c2" "SIP vs RD advice"
             [seedMessage "m3" system "You are a helpful personal finance assistant.";
              seedMessage "m4" user "Should I start a SIP?"] in
  let m := seedMessage "m5" assistant "Summary" in
  addMessageToChat "c1" m twoChats !! 1%nat = Some c
  /\ updateMessageInChat "c1" "m2" (contentPatch "edited") twoChats !! 1%nat = Some c
  /\ deleteMessageFromChat "c1" "m2" twoChats !! 1%nat = Some c.
Proof.
  intros c m.
  assert (Hi : twoChats !! 1%nat = Some c) by reflexivity.
  assert (Hne : Chat.id c <> "c1") by (vm_compute; discriminate).
  pose proof (message_operations_frame "c1" "m2" m (contentPatch "edited")
                twoChats 1 c Hi Hne) as [[H1 _] [[H2 _] [H3 _]]].
  exact (conj H1 (conj H2 H3)).
Defined.

End ChatFrame.

(** ** The dashboard: totals per category and the smart limit *)

Lemma Forall_filter_keep {A} (P Q : A -> Prop) `{!forall x, Decision (P x)} (l : list A) :
  Forall Q l -> Forall Q (filter P l).
Proof.
  rewrite !Forall_forall. intros Hall x Hx. apply list_elem_of_filter in Hx. apply Hall, Hx.
Qed.

Section DashboardTotals.
Import Dashboard.
Local Open Scope js_scope.

Variable filtered : list Expense.t.

(** The recorded spend of a category: its amounts, summed in list order. *)
Definition spendOfCategory (c : string) : number :=
  spentIn Expense.category Expense.amount c filtered.

Lemma categoryMap_spend (c : string) :
  categoryMap filtered !! c
  = match filter (fun e => Expense.category e = c) filtered with
    | [] => None
    | _ => Some (spendOfCategory c)
    end.
Proof. exact (categoryMap_lookup Expense.category Expense.amount filtered c). Qed.

(** [find] on the entries of a map is the lookup in the map. *)
Lemma find_entries (l : list (string * number)) (c : string) :
  value <$> List.find (fun t => bool_decide (name t = c))
              ((fun '(n, v) => {| name := n; value := v |}) <$> l)
  = (list_to_map l : gmap string number) !! c.
Proof.
  induction l as [|[k v] l IH]; simpl.
  - symmetry. apply lookup_empty.
  - destruct (decide (k = c)) as [->|Hne].
    + rewrite bool_decide_eq_true_2 by reflexivity. simpl.
      symmetry. apply lookup_insert_eq.
    + rewrite bool_decide_eq_false_2 by exact Hne.
      rewrite lookup_insert_ne by exact Hne. exact IH.
Qed.

Lemma find_totalsByCategory (c : string) :
  value <$> List.find (fun t => bool_decide (name t = c)) (totalsByCategory filtered)
  = categoryMap filtered !! c.
Proof.
  unfold totalsByCategory. rewrite find_entries, list_to_map_to_list. reflexivity.
Qed.

Lemma spendOfCategory_finite (c : string) :
  Forall (fun e => is_finite (Expense.amount e)) filtered ->
  is_finite (spendOfCategory c).
Proof.
  intros Hfin. unfold spendOfCategory, spentIn. rewrite foldl_add_total, add_0_l.
  apply total_is_finite. apply Forall_fmap.
  apply Forall_filter_keep. exact Hfin.
Qed.

(** With finite amounts, the [categorySpend] of [optimizeBudget] is the
    recorded spend of the category, and [0] when it has none. *)
Lemma categorySpend_spendOfCategory (c : string) :
  Forall (fun e => is_finite (Expense.amount e)) filtered ->
  categorySpend filtered c = spendOfCategory c.
Proof.
  intros Hfin. unfold categorySpend.
  rewrite find_totalsByCategory, categoryMap_spend.
  destruct (filter _ filtered) eqn:E.
  - unfold spendOfCategory, spentIn. rewrite E. reflexivity.
  - simpl. apply or_0_finite, spendOfCategory_finite, Hfin.
Qed.

End DashboardTotals.

Section OptimizeBudget.
Import Dashboard.
Local Open Scope js_scope.

Lemma round_1000_buffer : Math_round (num 1000 * num 1.1) = num 1100.
Proof. js_eval. Qed.

Lemma round_0_buffer : Math_round (num 0 * num 1.1) = num 0.
Proof. js_eval. Qed.

Lemma optimizeBudget_lookup filtered category prev i b :
  prev !! i = Some b ->
  optimizeBudget filtered category prev !! i
  = Some (if bool_decide (Budget.category b = category)
          then {| Budget.category := Budget.category b;
                  Budget.limit := Budget.limit b;
                  Budget.rollover := Budget.rollover b;
                  Budget.smartLimit := Some (optimizedAmount filtered category);
                  Budget.priority := Budget.priority b |}
          else b).
Proof.
  intros Hi. unfold optimizeBudget. rewrite list_lookup_fmap, Hi. reflexivity.
Qed.



End OptimizeBudget.

(** ** Numbers: products, quotients and counts *)

Section NumberOrder.
Local Open Scope js_scope.

Lemma mul_comm (x y : number) : x * y = y * x.
Proof. destruct x, y; simpl; try reflexivity. f_equal. ring. Qed.

Definition Qc_of_nat (n : nat) : Qc := Q2Qc (inject_Z (Z.of_nat n)).

Lemma of_nat_Fin (n : nat) : of_nat n = Fin (Qc_of_nat n).
Proof. reflexivity. Qed.

Lemma Qc_of_nat_pos (n : nat) : (0 < n)%nat -> (0 < Qc_of_nat n)%Qc.
Proof.
  intros Hn. unfold Qc_of_nat. qc2q. unfold Qlt. simpl. lia.
Qed.

Lemma Qc_of_nat_S (n : nat) : Qc_of_nat (S n) = (Qc_of_nat n + 1)%Qc.
Proof.
  unfold Qc_of_nat. qc2q. rewrite Nat2Z.inj_succ. unfold Z.succ.
  rewrite inject_Z_plus. reflexivity.
Qed.

Lemma div_Fin (a b : Qc) : b <> 0%Qc -> Fin a / Fin b = Fin (a / b).
Proof.
  intros Hb. simpl. apply Qc_eqb_neq in Hb. rewrite Hb. reflexivity.
Qed.

Lemma gt_Fin (a b : Qc) : (Fin a > Fin b) = true <-> (b < a)%Qc.
Proof. unfold gt. simpl. apply Qc_ltb_lt. Qed.

(** The sum of [n] copies of one finite amount. *)
Lemma total_constant (a : Qc) (l : list number) :
  Forall (fun x => x = Fin a) l -> total l = Fin (Qc_of_nat (length l) * a).
Proof.
  induction 1 as [|x l Hx Hl IH].
  - change (total []) with (Fin 0%Qc). f_equal.
    change (Qc_of_nat (length (@nil number))) with 0%Qc. ring.
  - cbn [total foldr length]. fold (total l). rewrite IH, Hx, Qc_of_nat_S. simpl.
    f_equal. ring.
Qed.

End NumberOrder.

(** ** Anomaly detection *)

Section Anomalies.
Import Dashboard.
Local Open Scope js_scope.

Variable filtered : list Expense.t.

(** The mean amount of a category within [filtered]. *)
Definition meanOfCategory (c : string) : number :=
  spendOfCategory filtered c / categoryCount filtered c.

(** Inserting the entries of a map one by one rebuilds it, value by value. *)
Lemma foldl_insert_entries (g : string -> number -> number)
    (l : list (string * number)) (acc : gmap string number) (c : string) :
  NoDup l.*1 ->
  foldl (fun acc cat => <[name cat := g (name cat) (value cat)]> acc) acc
        ((fun '(n, v) => {| name := n; value := v |}) <$> l) !! c
  = match (list_to_map l : gmap string number) !! c with
    | Some v => Some (g c v)
    | None => acc !! c
    end.
Proof.
  revert acc. induction l as [|[k v] l IH]; intros acc Hnd.
  - simpl. rewrite lookup_empty. reflexivity.
  - apply NoDup_cons in Hnd as [Hk Hnd]. cbn [fmap list_fmap foldl name value].
    rewrite IH by exact Hnd. cbn [list_to_map foldr uncurry fst snd].
    destruct (decide (k = c)) as [E|Hne].
    + subst k. rewrite (not_elem_of_list_to_map_1 l c Hk).
      rewrite !lookup_insert_eq. reflexivity.
    + rewrite !lookup_insert_ne by exact Hne. reflexivity.
Qed.

Lemma avgByCategory_lookup (c : string) :
  avgByCategory filtered !! c
  = (fun v => v / categoryCount filtered c) <$> categoryMap filtered !! c.
Proof.
  unfold avgByCategory, totalsByCategory.
  rewrite (foldl_insert_entries (fun n v => v / categoryCount filtered n))
    by apply NoDup_fst_map_to_list.
  rewrite list_to_map_to_list, lookup_empty.
  destruct (categoryMap filtered !! c); reflexivity.
Qed.

Lemma categoryCount_pos (e : Expense.t) :
  e ∈ filtered ->
  exists n, categoryCount filtered (Expense.category e) = Fin n /\ (0 < n)%Qc.
Proof.
  intros He. unfold categoryCount. eexists. split; [apply of_nat_Fin|].
  apply Qc_of_nat_pos.
  assert (Hin : e ∈ filter (fun e' => Expense.category e' = Expense.category e) filtered).
  { apply list_elem_of_filter. split; [reflexivity | exact He]. }
  destruct (filter _ filtered); [inversion Hin | simpl; lia].
Qed.

(** On a list of finite amounts the filter compares the amount with twice
    the mean of its category. *)
Lemma isAnomalous_mean (e : Expense.t) :
  Forall (fun t => is_finite (Expense.amount t)) filtered ->
  e ∈ filtered ->
  isAnomalous filtered e
  = (Expense.amount e > num 2 * meanOfCategory (Expense.category e)).
Proof.
  intros Hfin He. unfold isAnomalous.
  rewrite avgByCategory_lookup, categoryMap_spend.
  assert (Hin : e ∈ filter (fun e' => Expense.category e' = Expense.category e) filtered).
  { apply list_elem_of_filter. split; [reflexivity | exact He]. }
  destruct (filter _ filtered) eqn:E; [inversion Hin|]. clear E Hin.
  cbn [fmap option_fmap option_map or_undefined].
  fold (meanOfCategory (Expense.category e)).
  assert (Hm : is_finite (meanOfCategory (Expense.category e))).
  { unfold meanOfCategory.
    destruct (categoryCount_pos e He) as (n & -> & Hn).
    pose proof (spendOfCategory_finite filtered (Expense.category e) Hfin) as Hs.
    apply is_finite_Fin in Hs as [s ->].
    rewrite div_Fin; [exact I|]. symmetry. apply Qclt_not_eq, Hn. }
  rewrite (or_0_finite _ Hm), mul_comm. reflexivity.
Qed.

End Anomalies.

Section AnomaliesClaim.
Import Dashboard.
Local Open Scope js_scope.

(** When every amount of a category is the same [a], its mean is [a]. *)
Lemma meanOfCategory_constant (filtered : list Expense.t) (e : Expense.t) (a : Qc) :
  e ∈ filtered ->
  (forall e', e' ∈ filtered -> Expense.category e' = Expense.category e ->
              Expense.amount e' = Fin a) ->
  meanOfCategory filtered (Expense.category e) = Fin a.
Proof.
  intros He Hsame. unfold meanOfCategory, spendOfCategory, spentIn, categoryCount.
  rewrite foldl_add_total, add_0_l.
  set (same := filter (fun t => Expense.category t = Expense.category e) filtered).
  assert (Hin : e ∈ same).
  { apply list_elem_of_filter. split; [reflexivity | exact He]. }
  rewrite (total_constant a).
  - rewrite length_fmap, of_nat_Fin.
    assert (Hpos : (0 < Qc_of_nat (length same))%Qc).
    { apply Qc_of_nat_pos. destruct same; [inversion Hin | simpl; lia]. }
    rewrite div_Fin by (symmetry; apply Qclt_not_eq, Hpos).
    f_equal. field. symmetry. apply Qclt_not_eq, Hpos.
  - apply Forall_fmap, Forall_forall. intros e' He'.
    apply list_elem_of_filter in He' as [Hc He']. simpl. apply Hsame; assumption.
Qed.



End AnomaliesClaim.

(** ** The financial health score *)

(** A finite number within rational bounds. *)
Definition within (lo hi : Q) (x : number) : Prop :=
  match x with
  | Fin q => (lo <= this q /\ this q <= hi)%Q
  | _ => False
  end.

Section HealthScore.
Import Dashboard.
Local Open Scope js_scope.

Lemma foldl_nonneg {A} (f : A -> number) (l : list A) :
  Forall (fun x => nonneg (f x)) l ->
  nonneg (foldl (fun s x => s + f x) (num 0) l).
Proof.
  intros Hl. rewrite foldl_add_total, add_0_l. apply total_nonneg.
  apply Forall_fmap. exact Hl.
Qed.

Lemma Math_round_within (lo hi : Z) (x : number) :
  within (inject_Z lo) (inject_Z hi) x ->
  exists z : Z, Math_round x = num (inject_Z z) /\ (lo <= z <= hi)%Z.
Proof.
  destruct x as [q| | |]; simpl; try tauto. intros [Hlo Hhi].
  exists (Qfloor (this q + (1 # 2))). split; [reflexivity|]. split.
  - rewrite <- (Qfloor_Z lo). apply Qfloor_resp_le. lra.
  - assert (H : (Qfloor (this q + (1 # 2)) < hi + 1)%Z); [|lia].
    rewrite Zlt_Qlt. apply Qle_lt_trans with (this q + (1 # 2))%Q.
    + apply Qfloor_le.
    + rewrite inject_Z_plus. change (inject_Z 1) with 1%Q. lra.
Qed.

(** The saving sub-score, case by case. *)
Lemma savingScore_nil : savingScore [] = num 0.
Proof. js_eval. Qed.

Lemma savingScore_cons (g : FinancialGoal.t) (gs : list FinancialGoal.t) :
  savingScore (g :: gs)
  = Math_min (num 100)
      ((FinancialGoal.current g / FinancialGoal.target g) * num 100 || num 0).
Proof. reflexivity. Qed.

Lemma saving_ratio (c t : Qc) :
  t <> 0%Qc ->
  Math_min (num 100) ((Fin c / Fin t) * num 100 || num 0)
  = Math_min (num 100) (Fin (c / t * Q2Qc 100)).
Proof.
  intros Ht. rewrite div_Fin by exact Ht. cbn [mul num].
  rewrite or_0_finite by exact I. reflexivity.
Qed.

Lemma saving_zero_target_pos (c : Qc) :
  (0 < c)%Qc ->
  Math_min (num 100) ((Fin c / Fin 0%Qc) * num 100 || num 0) = num 100.
Proof.
  intros Hc. cbn [div].
  replace (Qc_eqb 0 0) with true by (symmetry; apply Qc_eqb_eq; reflexivity).
  replace (Qc_eqb c 0) with false
    by (symmetry; apply Qc_eqb_neq; symmetry; apply Qclt_not_eq, Hc).
  replace (Qc_ltb 0 c) with true by (symmetry; apply Qc_ltb_lt, Hc).
  js_eval.
Qed.

Lemma saving_zero_target_zero :
  Math_min (num 100) ((Fin 0%Qc / Fin 0%Qc) * num 100 || num 0) = num 0.
Proof. js_eval. Qed.

Lemma saving_undefined_target (x : number) :
  Math_min (num 100) ((x / NaN) * num 100 || num 0) = num 0.
Proof. destruct x; js_eval. Qed.

Section Scores.
Variable expenses : list Expense.t.
Variable budgets : list Budget.t.
Variable financialGoals : list FinancialGoal.t.

Hypothesis amounts_nonneg : Forall (fun e => nonneg (Expense.amount e)) expenses.
Hypothesis limits_nonneg : Forall (fun b => nonneg (Budget.limit b)) budgets.
Hypothesis goal_nonneg :
  forall g, head financialGoals = Some g ->
            nonneg (FinancialGoal.current g) /\ nonneg (FinancialGoal.target g).

Lemma spendingScore_within : within 0 100 (spendingScore expenses budgets).
Proof.
  unfold spendingScore.
  pose proof (foldl_nonneg Expense.amount expenses amounts_nonneg) as Hs.
  pose proof (foldl_nonneg Budget.limit budgets limits_nonneg) as Hb.
  fold (totalSpent expenses) in Hs. fold (totalBudget budgets) in Hb.
  apply nonneg_Fin in Hs as (s & -> & Hs). apply nonneg_Fin in Hb as (b & -> & Hb).
  destruct (Fin b > num 0) eqn:Hgt.
  - apply gt_Fin in Hgt.
    rewrite div_Fin by (symmetry; apply Qclt_not_eq, Hgt).
    assert (Hratio : (0 <= s / b)%Qc).
    { qc2q. apply Qle_shift_div_l; [exact Hgt | lra]. }
    cbn [mul sub add neg Math_max num lt].
    destruct (Qc_ltb _ _) eqn:Hlt.
    + apply Qc_ltb_lt in Hlt. simpl. qc2q. lra.
    + vm_compute. split; discriminate.
  - vm_compute. split; discriminate.
Qed.

Lemma savingScore_within : within 0 100 (savingScore financialGoals).
Proof.
  destruct financialGoals as [|g gs].
  - rewrite savingScore_nil. vm_compute. split; discriminate.
  - destruct (goal_nonneg g eq_refl) as [Hc Ht]. rewrite savingScore_cons.
    apply nonneg_Fin in Hc as (c & -> & Hc). apply nonneg_Fin in Ht as (t & -> & Ht).
    destruct (decide (t = 0%Qc)) as [->|Et].
    + destruct (decide (c = 0%Qc)) as [->|Ec].
      * vm_compute. split; discriminate.
      * rewrite saving_zero_target_pos.
        -- vm_compute. split; discriminate.
        -- destruct (Qcle_lt_or_eq _ _ Hc) as [H|H]; [exact H | congruence].
    + rewrite saving_ratio by exact Et.
      assert (Hratio : (0 <= c / t)%Qc).
      { assert (Hpos : (0 < t)%Qc).
        { destruct (Qcle_lt_or_eq _ _ Ht) as [H|H]; [exact H | congruence]. }
        qc2q. apply Qle_shift_div_l; [exact Hpos | lra]. }
      cbn [Math_min num lt]. destruct (Qc_ltb _ _) eqn:Hlt.
      * apply Qc_ltb_lt in Hlt. simpl. qc2q. lra.
      * vm_compute. split; discriminate.
Qed.

Lemma budgetingScore_within : within 20 80 (budgetingScore budgets).
Proof.
  unfold budgetingScore. destruct (bool_decide _); vm_compute; split; discriminate.
Qed.

Lemma planningScore_within : within 25 75 (planningScore financialGoals).
Proof.
  unfold planningScore. destruct (bool_decide _); vm_compute; split; discriminate.
Qed.

Lemma mean_within :
  within 0 100
    ((spendingScore expenses budgets + savingScore financialGoals
      + budgetingScore budgets + planningScore financialGoals) / num 4).
Proof.
  pose proof spendingScore_within as H1. pose proof savingScore_within as H2.
  pose proof budgetingScore_within as H3. pose proof planningScore_within as H4.
  destruct (spendingScore _ _) as [a| | |]; try contradiction.
  destruct (savingScore _) as [b| | |]; try contradiction.
  destruct (budgetingScore _) as [c| | |]; try contradiction.
  destruct (planningScore _) as [d| | |]; try contradiction.
  cbn [add]. unfold num. rewrite div_Fin by (vm_compute; discriminate).
  simpl in *. qc2q.
  assert (E : ((this a + this b + this c + this d) * / 4
               == (this a + this b + this c + this d) / 4)%Q) by reflexivity.
  rewrite E. split.
  - apply Qle_shift_div_l; lra.
  - apply Qle_shift_div_r; lra.
Qed.

End Scores.
End HealthScore.

Section HealthClaims.
Import Dashboard.
Local Open Scope js_scope.







End HealthClaims.

(** ** The monthly projection *)

Section Projection.
Import Dashboard.
Local Open Scope js_scope.

Lemma day_nonzero (d : Z) : (1 <= d <= 31)%Z -> Q2Qc (inject_Z d) <> 0%Qc.
Proof.
  intros Hd. qc2q. unfold Qeq. simpl. lia.
Qed.



End Projection.

(** ** The trend series *)

Section Trend.
Import Dashboard.
Local Open Scope js_scope.

Variable filtered : list Expense.t.
Variable today : Z.
Variable localDay : string -> option Z.
Variable isoKey : Z -> string.
Variable random : nat -> number.

#[local] Abbreviation predictedDay := (predictedDay today isoKey random).
#[local] Abbreviation actualDays := (actualDays filtered today localDay isoKey).
#[local] Abbreviation trendData := (trendData filtered today localDay isoKey random).

(** The array [days] after [n] turns of the second loop. *)
Definition series (n : nat) : list TrendPoint.t :=
  foldl (fun days i => days ++ [predictedDay days i]) actualDays (seq 1 n).

Lemma series_0 : series 0 = actualDays.
Proof. reflexivity. Qed.

Lemma series_S (n : nat) :
  series (S n) = series n ++ [predictedDay (series n) (S n)].
Proof. unfold series. rewrite seq_S, foldl_app. reflexivity. Qed.

Lemma trendData_series : trendData = series 5.
Proof. reflexivity. Qed.

Lemma length_actualDays : length actualDays = 12%nat.
Proof. reflexivity. Qed.

Lemma length_series (n : nat) : length (series n) = (12 + n)%nat.
Proof.
  induction n as [|n IH]; [reflexivity|].
  rewrite series_S, length_app, IH. simpl. lia.
Qed.

(** Later turns only append: the first [12 + k] entries are those of turn [k]. *)
Lemma take_series (k n : nat) : (k <= n)%nat -> take (12 + k) (series n) = series k.
Proof.
  induction 1 as [|n Hle IH].
  - rewrite <- (length_series k). apply firstn_all.
  - rewrite series_S, take_app_le by (rewrite length_series; lia). exact IH.
Qed.

Lemma lookup_series (k n : nat) :
  (k < n)%nat -> series n !! (12 + k)%nat = Some (predictedDay (series k) (S k)).
Proof.
  induction 1 as [|n Hle IH].
  - rewrite series_S, lookup_app_r by (rewrite length_series; lia).
    rewrite length_series. replace (12 + k - (12 + k))%nat with 0%nat by lia.
    reflexivity.
  - rewrite series_S, lookup_app_l by (rewrite length_series; lia). exact IH.
Qed.

Hypothesis amounts_nonneg : Forall (fun e => nonneg (Expense.amount e)) filtered.
Hypothesis random_unit :
  forall i, exists r, random i = Fin r /\ (0 <= this r /\ this r < 1)%Q.

Lemma nonneg_inject_Z (v : Z) : (0 <= v)%Z -> nonneg (num (inject_Z v)).
Proof.
  intros Hv. unfold nonneg, num. qc2q. unfold Qle. simpl. lia.
Qed.

Lemma spendOn_nonneg (d : Z) : nonneg (spendOn filtered localDay d).
Proof.
  unfold spendOn. apply foldl_nonneg. apply Forall_filter_keep. exact amounts_nonneg.
Qed.

Lemma actualDays_nonneg : Forall (fun p => nonneg (TrendPoint.spend p)) actualDays.
Proof.
  unfold Dashboard.actualDays. apply Forall_fmap, Forall_forall. intros i _.
  simpl. apply spendOn_nonneg.
Qed.

Lemma jitter_band (i : nat) :
  exists j, jitter random i = Fin j /\ (0.8 <= this j /\ this j < 1.2)%Q.
Proof.
  destruct (random_unit i) as (r & Hr & Hr0 & Hr1). unfold jitter. rewrite Hr.
  eexists. split; [reflexivity|]. qc2q. lra.
Qed.

Lemma avgSpend_nonneg (days : list TrendPoint.t) :
  Forall (fun p => nonneg (TrendPoint.spend p)) days -> (0 < length days)%nat ->
  exists m, avgSpend days = Fin m /\ (0 <= this m)%Q.
Proof.
  intros Hdays Hlen. unfold avgSpend.
  pose proof (foldl_nonneg TrendPoint.spend days Hdays) as Hs.
  apply nonneg_Fin in Hs as (s & -> & Hs).
  pose proof (Qc_of_nat_pos (length days) Hlen) as Hn.
  rewrite of_nat_Fin, div_Fin by (symmetry; apply Qclt_not_eq, Hn).
  eexists. split; [reflexivity|]. qc2q. apply Qle_shift_div_l; [exact Hn | lra].
Qed.

(** The entry pushed by one turn of the second loop. *)
Lemma predictedDay_band (days : list TrendPoint.t) (i : nat) :
  Forall (fun p => nonneg (TrendPoint.spend p)) days -> (0 < length days)%nat ->
  exists (m j : Qc) (v : Z),
    avgSpend days = Fin m /\ jitter random i = Fin j
    /\ (0.8 <= this j /\ this j < 1.2)%Q
    /\ TrendPoint.spend (predictedDay days i) = num (inject_Z v)
    /\ (this m * 0.8 - (1 # 2) < inject_Z v /\ inject_Z v <= this m * 1.2 + (1 # 2))%Q
    /\ (0 <= v)%Z.
Proof.
  intros Hdays Hlen.
  destruct (avgSpend_nonneg days Hdays Hlen) as (m & Hm & Hm0).
  destruct (jitter_band i) as (j & Hj & Hj0 & Hj1).
  exists m, j, (Qfloor (this (m * j)%Qc + (1 # 2))).
  split; [exact Hm|]. split; [exact Hj|]. split; [split; assumption|].
  split; [cbn [Dashboard.predictedDay TrendPoint.spend]; rewrite Hm, Hj; reflexivity|].
  pose proof (Qfloor_le (this (m * j)%Qc + (1 # 2))) as Hfl.
  pose proof (Qlt_floor (this (m * j)%Qc + (1 # 2))) as Hfu.
  rewrite inject_Z_plus in Hfu. change (inject_Z 1) with 1%Q in Hfu.
  assert (Hx : (this (m * j)%Qc == this m * this j)%Q).
  { unfold Qcmult, Q2Qc. cbn [this]. apply Qred_correct. }
  assert (Hlo : (this m * 0.8 <= this m * this j)%Q) by nra.
  assert (Hhi : (this m * this j <= this m * 1.2)%Q) by nra.
  split; [split; lra|].
  rewrite <- (Qfloor_Z 0). apply Qfloor_resp_le. change (inject_Z 0) with 0%Q. lra.
Qed.

Lemma series_nonneg (n : nat) :
  Forall (fun p => nonneg (TrendPoint.spend p)) (series n).
Proof.
  induction n as [|n IH]; [exact actualDays_nonneg|].
  rewrite series_S. apply Forall_app. split; [exact IH|].
  constructor; [|constructor].
  destruct (predictedDay_band (series n) (S n) IH) as (m & j & v & _ & _ & _ & Hv & _ & Hv0).
  { rewrite length_series. lia. }
  rewrite Hv. apply nonneg_inject_Z, Hv0.
Qed.

End Trend.

Section TrendClaim.
Import Dashboard.
Local Open Scope js_scope.




End TrendClaim.

(** ** Sending a chat message *)

Section SendFacts.
Import ChatCenter.

(** The message function that [updateMessageInChat] maps over a chat. *)
Definition patched (messageId : string) (patch : Patch.t) (m : Message.t) : Message.t :=
  if bool_decide (Message.id m = messageId) then applyPatch m patch else m.

Lemma addMessageToChat_target chatId m prev i c :
  prev !! i = Some c -> Chat.id c = chatId ->
  addMessageToChat chatId m prev !! i = Some (withMessages c (Chat.messages c ++ [m])).
Proof.
  intros Hi Hid. unfold addMessageToChat. rewrite list_lookup_fmap, Hi. simpl.
  rewrite bool_decide_eq_true_2 by exact Hid. reflexivity.
Qed.

Lemma updateMessageInChat_target chatId messageId patch prev i c :
  prev !! i = Some c -> Chat.id c = chatId ->
  updateMessageInChat chatId messageId patch prev !! i
  = Some (withMessages c (patched messageId patch <$> Chat.messages c)).
Proof.
  intros Hi Hid. unfold updateMessageInChat. rewrite list_lookup_fmap, Hi. simpl.
  rewrite bool_decide_eq_true_2 by exact Hid. reflexivity.
Qed.

Lemma patched_content messageId role text ts text' :
  patched messageId (contentPatch text') (newMessage messageId role text ts)
  = newMessage messageId role text' ts.
Proof.
  unfold patched. cbn [newMessage Message.id].
  rewrite bool_decide_eq_true_2 by reflexivity. reflexivity.
Qed.

(** The target chat after the two appends and one patch of the placeholder. *)
Lemma appended_then_patched chatId userMsg assistantId ats text text' prev i c :
  prev !! i = Some c -> Chat.id c = chatId ->
  exists c',
    updateMessageInChat chatId assistantId (contentPatch text')
      (addMessageToChat chatId (newMessage assistantId assistant text ats)
         (addMessageToChat chatId userMsg prev)) !! i = Some c'
    /\ Chat.id c' = chatId
    /\ length (Chat.messages c') = (length (Chat.messages c) + 2)%nat
    /\ last (Chat.messages c') = Some (newMessage assistantId assistant text' ats).
Proof.
  intros Hi Hid.
  pose proof (addMessageToChat_target chatId userMsg prev i c Hi Hid) as H1.
  pose proof (addMessageToChat_target chatId (newMessage assistantId assistant text ats)
                _ i _ H1 Hid) as H2.
  pose proof (updateMessageInChat_target chatId assistantId (contentPatch text')
                _ i _ H2 Hid) as H3.
  eexists. split; [exact H3|]. split; [exact Hid|].
  cbn [withMessages Chat.messages]. split.
  - rewrite length_fmap, !length_app. simpl. lia.
  - rewrite fmap_last, last_snoc. simpl. f_equal. apply patched_content.
Qed.

(** Patching the placeholder again replaces its content. *)
Lemma patched_again_target chatId assistantId prev i c' ats text text' :
  prev !! i = Some c' -> Chat.id c' = chatId ->
  last (Chat.messages c') = Some (newMessage assistantId assistant text ats) ->
  exists c'',
    updateMessageInChat chatId assistantId (contentPatch text') prev !! i = Some c''
    /\ Chat.id c'' = chatId
    /\ length (Chat.messages c'') = length (Chat.messages c')
    /\ last (Chat.messages c'') = Some (newMessage assistantId assistant text' ats).
Proof.
  intros Hi Hid Hlast. eexists. split.
  - apply updateMessageInChat_target; [exact Hi | exact Hid].
  - cbn [withMessages Chat.messages Chat.id]. split; [exact Hid|]. split.
    + apply length_fmap.
    + rewrite fmap_last, Hlast. simpl. f_equal. apply patched_content.
Qed.

End SendFacts.

Section SendClaims.
Import ChatCenter.

Variable JSON_parse : string -> result JSON.
Variable JSON_stringify : JSON -> string.
Variable String_of : option JSON -> string.

#[local] Abbreviation send := (sendChatMessage JSON_parse JSON_stringify String_of).

(** A text that trims to nothing sends nothing. *)
Lemma send_blank streamEnabled fetched userId userTs assistantId assistantTs
    chatId userText app :
  trim userText = EmptyString ->
  send streamEnabled fetched userId userTs assistantId assistantTs chatId userText app
  = (app, Ok tt).
Proof.
  intros Hblank. unfold sendChatMessage.
  rewrite bool_decide_eq_true_2 by exact Hblank. reflexivity.
Qed.

(** C9, amended. When the text is not blank (it does not trim to the empty
    string) and the response is not [ok] with the JSON body
    [{"error":"boom"}], the send returns without an exception, and every chat
    with the target id has two more messages, the last of which is the
    assistant placeholder with the content ["⚠️ boom"]. *)
Theorem send_error_response (streamEnabled : bool) (res : Response)
    (userId userTs assistantId assistantTs chatId userText : string) (app : App) :
  trim userText <> EmptyString ->
  ok res = false ->
  json res = Ok (JObj [("error", JStr "boom")]) ->
  let out := send streamEnabled (Ok res) userId userTs assistantId assistantTs
               chatId userText app in
  snd out = Ok tt
  /\ sending (fst out) = false
  /\ chats (fst out)
     = updateMessageInChat chatId assistantId (contentPatch "⚠️ boom")
         (addMessageToChat chatId
            (newMessage assistantId assistant "⏳ Assistant is thinking..." assistantTs)
            (addMessageToChat chatId (newMessage userId user (trim userText) userTs)
               (chats app)))
  /\ forall i c,
       chats app !! i = Some c -> Chat.id c = chatId ->
       exists c',
         chats (fst out) !! i = Some c'
         /\ length (Chat.messages c') = (length (Chat.messages c) + 2)%nat
         /\ last (Chat.messages c')
            = Some (newMessage assistantId assistant "⚠️ boom" assistantTs).
Proof.
  intros Htext Hok Hjson out.
  assert (Hout : out
    = (setSending false (setSending false
         (setChats (updateMessageInChat chatId assistantId (contentPatch "⚠️ boom"))
            (setStreamedTextTemp (fun s => <[assistantId := EmptyString]> s)
               (setSending true (setComposerText EmptyString
                  (setChats (addMessageToChat chatId
                     (newMessage assistantId assistant "⏳ Assistant is thinking..."
                        assistantTs))
                     (setChats (addMessageToChat chatId
                        (newMessage userId user (trim userText) userTs)) app))))))),
       Ok tt)).
  { subst out. unfold sendChatMessage.
    rewrite bool_decide_eq_false_2 by exact Htext.
    destruct res as [ok0 st b j t]. simpl in Hok, Hjson. subst ok0 j. reflexivity. }
  rewrite Hout. cbn [fst snd]. split; [reflexivity|]. split; [reflexivity|].
  split; [reflexivity|].
  intros i c Hi Hid. cbn [setSending setChats setStreamedTextTemp setComposerText chats].
  destruct (appended_then_patched chatId (newMessage userId user (trim userText) userTs)
              assistantId assistantTs "⏳ Assistant is thinking..." "⚠️ boom"
              (chats app) i c Hi Hid) as (c' & Hc' & _ & Hlen & Hlast).
  exists c'. split; [exact Hc'|]. split; [exact Hlen | exact Hlast].
Qed.

End SendClaims.

Section SendExamples.
Import ChatCenter.

(** Stand-ins for the library functions on the examples: no line parses as
    JSON, and values print as a fixed text. *)
Definition noParse (line : string) : result JSON := Throw "SyntaxError".
Definition printFixed (j : JSON) : string := "[object Object]".
Definition stringFixed (v : option JSON) : string := "[object Object]".

#[local] Abbreviation send := (sendChatMessage noParse printFixed stringFixed).

Definition errorResponse : Response :=
  {| ok := false; status := 500; body := None;
     json := Ok (JObj [("error", JStr "boom")]);
     text := Throw "body stream already read" |}.

Definition oneChat : App :=
  {| chats := twoChats; composerText := "How much did I spend?";
     sending := false; streamedTextTemp := ∅ |}.

Lemma send_error_response_witness :
  let out := send true (Ok errorResponse) "u1" "2025-01-01T00:00:01.000Z"
               "a1" "2025-01-01T00:00:02.000Z" "c1" " How much did I spend? " oneChat in
  exists c',
    chats (fst out) !! 0%nat = Some c'
    /\ length (Chat.messages c') = 4%nat
    /\ last (Chat.messages c')
       = Some (newMessage "a1" assistant "⚠️ boom" "2025-01-01T00:00:02.000Z").
Proof.
  intros out.
  assert (Htext : trim " How much did I spend? " <> EmptyString) by (vm_compute; discriminate).
  destruct (send_error_response noParse printFixed stringFixed true errorResponse "u1" "2025-01-01T00:00:01.000Z"
              "a1" "2025-01-01T00:00:02.000Z" "c1" " How much did I spend? " oneChat
              Htext eq_refl eq_refl) as (_ & _ & _ & Hchat).
  exact (Hchat 0%nat _ eq_refl eq_refl).
Defined.

(** C9, as stated, fails: a text of one space is not empty, but it trims to
    the empty string; the send returns at once and the chat keeps its two
    messages. *)
Lemma send_space_appends_nothing :
  let out := send true (Ok errorResponse) "u1" "2025-01-01T00:00:01.000Z"
               "a1" "2025-01-01T00:00:02.000Z" "c1" " " oneChat in
  " " <> EmptyString
  /\ snd out = Ok tt
  /\ fst out = oneChat
  /\ (Chat.messages <$> chats oneChat !! 0%nat) = (Chat.messages <$> chats (fst out) !! 0%nat)
  /\ ~ (exists c c', chats oneChat !! 0%nat = Some c /\ chats (fst out) !! 0%nat = Some c'
          /\ length (Chat.messages c') = (length (Chat.messages c) + 2)%nat).
Proof.
  intros out. assert (Hout : out = (oneChat, Ok tt)) by (apply send_blank; reflexivity).
  rewrite Hout. cbn [fst snd]. repeat split; try reflexivity; try discriminate.
  intros (c & c' & Hc & Hc' & Hlen). rewrite Hc in Hc'. injection Hc' as <-. lia.
Qed.

End SendExamples.

Section StreamClaim.
Import ChatCenter.

Variable JSON_parse : string -> result JSON.
Variable JSON_stringify : JSON -> string.
Variable String_of : option JSON -> string.

Definition helloBody : Body := {| chunks := ["Hel"; "lo wor"; "ld"]; failure := None |}.

(** The chunks hold no line break, so no line is parsed and the helper calls
    the chunk callback once per chunk, in order, then the completion
    callback. *)
Lemma stream_hello_calls {S : Type} (res : Response)
    (onChunk : string -> Eff S unit) (onComplete : Eff S unit) (s : S) :
  body res = Some helloBody ->
  streamTextFromResponse JSON_parse res onChunk (Some onComplete) s
  = (onChunk "Hel" ;; onChunk "lo wor" ;; onChunk "ld" ;; onComplete) s.
Proof.
  intros Hbody. unfold streamTextFromResponse. rewrite Hbody.
  cbv [helloBody chunks failure readLoop mbind Eff_bind eff_bind].
  destruct (onChunk "Hel" s) as [s1 [[]|e1]]; [|reflexivity].
  change (for_of (removelast (split_lines (EmptyString +:+ "Hel")))
            (forwardLine JSON_parse onChunk) s1) with (s1, Ok tt).
  cbv iota beta.
  destruct (onChunk "lo wor" s1) as [s2 [[]|e2]]; [|reflexivity].
  change (for_of _ (forwardLine JSON_parse onChunk) s2) with (s2, Ok tt).
  cbv iota beta.
  destruct (onChunk "ld" s2) as [s3 [[]|e3]]; [|reflexivity].
  change (for_of _ (forwardLine JSON_parse onChunk) s3) with (s3, Ok tt).
  reflexivity.
Qed.


End StreamClaim.

Section StreamExample.
Import ChatCenter.

Definition helloResponse : Response :=
  {| ok := true; status := 200; body := Some helloBody;
     json := Throw "body stream already read";
     text := Throw "body stream already read" |}.


End StreamExample.

(** ** Budgets: one per category *)

Section BudgetFacts.
Import Dashboard DashboardActions.

(** The budget that [setBudgetLimit] writes over an existing one. *)
Definition withLimit (category : string) (limit : number) (b : Budget.t) : Budget.t :=
  if bool_decide (Budget.category b = category)
  then {| Budget.category := Budget.category b; Budget.limit := limit;
          Budget.rollover := Budget.rollover b;
          Budget.smartLimit := Budget.smartLimit b;
          Budget.priority := Budget.priority b |}
  else b.

Definition freshBudget (category : string) (limit : number) : Budget.t :=
  {| Budget.category := category; Budget.limit := limit; Budget.rollover := None;
     Budget.smartLimit := None; Budget.priority := Some medium |}.

Lemma find_category_None (category : string) (bs : list Budget.t) :
  List.find (fun b => bool_decide (Budget.category b = category)) bs = None
  <-> category ∉ Budget.category <$> bs.
Proof.
  induction bs as [|b bs IH].
  - split; [intros _; apply not_elem_of_nil | reflexivity].
  - rewrite fmap_cons, not_elem_of_cons. cbn [List.find].
    destruct (decide (Budget.category b = category)) as [E|N].
    + rewrite bool_decide_eq_true_2 by exact E.
      split; [discriminate | intros [H _]; congruence].
    + rewrite bool_decide_eq_false_2 by exact N. rewrite IH.
      split; [intros H; split; [congruence | exact H] | tauto].
Qed.

Lemma find_category_Some (category : string) (bs : list Budget.t) (b : Budget.t) :
  List.find (fun b => bool_decide (Budget.category b = category)) bs = Some b ->
  b ∈ bs /\ Budget.category b = category.
Proof.
  intros H. apply List.find_some in H as [Hin Hc].
  split; [apply list_elem_of_In, Hin | exact (bool_decide_eq_true_1 _ Hc)].
Qed.

Lemma setBudgetLimit_present category limit prev :
  category ∈ Budget.category <$> prev ->
  setBudgetLimit category limit prev = withLimit category limit <$> prev.
Proof.
  intros Hin. unfold setBudgetLimit.
  destruct (List.find _ prev) eqn:E; [reflexivity|].
  apply find_category_None in E. contradiction.
Qed.

Lemma setBudgetLimit_absent category limit prev :
  category ∉ Budget.category <$> prev ->
  setBudgetLimit category limit prev = prev ++ [freshBudget category limit].
Proof.
  intros Hout. apply find_category_None in Hout. unfold setBudgetLimit.
  rewrite Hout. reflexivity.
Qed.

Lemma withLimit_category category limit b :
  Budget.category (withLimit category limit b) = Budget.category b.
Proof. unfold withLimit. destruct (bool_decide _); reflexivity. Qed.

Lemma categories_withLimit category limit (bs : list Budget.t) :
  Budget.category <$> (withLimit category limit <$> bs) = Budget.category <$> bs.
Proof.
  rewrite <- list_fmap_compose. apply list_fmap_ext. intros _ b _.
  apply withLimit_category.
Qed.

Lemma categories_optimizeBudget filtered category (bs : list Budget.t) :
  Budget.category <$> optimizeBudget filtered category bs = Budget.category <$> bs.
Proof.
  unfold optimizeBudget. rewrite <- list_fmap_compose. apply list_fmap_ext.
  intros _ b _. simpl. destruct (bool_decide _); reflexivity.
Qed.

(** X1. After [setBudgetLimit category limit] some budget has the category, every
    budget of the category has the limit, each earlier budget keeps its
    position, category, smart limit, rollover and priority, budgets of other
    categories are unchanged, and the list grows by one exactly when the
    category had no budget. *)
Theorem setBudgetLimit_upsert (category : string) (limit : number) (prev : list Budget.t) :
  let next := setBudgetLimit category limit prev in
  category ∈ Budget.category <$> next
  /\ (forall b, b ∈ next -> Budget.category b = category -> Budget.limit b = limit)
  /\ (forall i b, prev !! i = Some b ->
        exists b', next !! i = Some b'
          /\ Budget.category b' = Budget.category b
          /\ Budget.smartLimit b' = Budget.smartLimit b
          /\ Budget.rollover b' = Budget.rollover b
          /\ Budget.priority b' = Budget.priority b
          /\ (Budget.category b <> category -> b' = b))
  /\ length next
     = (length prev + if bool_decide (category ∈ Budget.category <$> prev) then 0 else 1)%nat.
Proof.
  intros next. subst next.
  destruct (decide (category ∈ Budget.category <$> prev)) as [Hin|Hout].
  - rewrite (setBudgetLimit_present _ _ _ Hin), bool_decide_eq_true_2 by exact Hin.
    split; [rewrite categories_withLimit; exact Hin|]. split; [|split].
    + intros b Hb Hc. apply list_elem_of_fmap in Hb as (b0 & -> & _).
      unfold withLimit in *. destruct (bool_decide (Budget.category b0 = category)) eqn:E.
      * reflexivity.
      * apply bool_decide_eq_false_1 in E. contradiction.
    + intros i b Hi. exists (withLimit category limit b).
      rewrite list_lookup_fmap, Hi. split; [reflexivity|].
      unfold withLimit. destruct (bool_decide (Budget.category b = category)) eqn:E.
      * apply bool_decide_eq_true_1 in E. repeat split; try reflexivity.
        intros N. contradiction.
      * repeat split; reflexivity.
    + rewrite length_fmap. lia.
  - rewrite (setBudgetLimit_absent _ _ _ Hout), bool_decide_eq_false_2 by exact Hout.
    split; [|split; [|split]].
    + rewrite fmap_app. apply elem_of_app. right. simpl. apply list_elem_of_here.
    + intros b Hb Hc. apply elem_of_app in Hb as [Hb|Hb].
      * exfalso. apply Hout. apply list_elem_of_fmap. exists b. split; [symmetry; exact Hc | exact Hb].
      * apply list_elem_of_singleton in Hb. subst b. reflexivity.
    + intros i b Hi. exists b. rewrite lookup_app_l by (apply lookup_lt_Some in Hi; exact Hi).
      repeat split; try reflexivity. exact Hi.
    + rewrite length_app. simpl. lia.
Qed.

(** X2. The budgets keep one entry per category under [setBudgetLimit] and
    [optimizeBudget]. *)
Theorem budgets_stay_unique (filtered : list Expense.t) (category : string)
    (limit : number) (prev : list Budget.t) :
  NoDup (Budget.category <$> prev) ->
  NoDup (Budget.category <$> setBudgetLimit category limit prev)
  /\ NoDup (Budget.category <$> optimizeBudget filtered category prev).
Proof.
  intros Hnd. split.
  - destruct (decide (category ∈ Budget.category <$> prev)) as [Hin|Hout].
    + rewrite (setBudgetLimit_present _ _ _ Hin), categories_withLimit. exact Hnd.
    + rewrite (setBudgetLimit_absent _ _ _ Hout), fmap_app. apply NoDup_app.
      split; [exact Hnd|]. split.
      * intros c Hc Hc'. simpl in Hc'. apply list_elem_of_singleton in Hc'. subst c.
        contradiction.
      * simpl. apply NoDup_singleton.
  - rewrite categories_optimizeBudget. exact Hnd.
Qed.

Lemma budgets_stay_unique_witness :
  NoDup (Budget.category <$> setBudgetLimit "Bills" (num 2500) seedBudgets)
  /\ NoDup (Budget.category <$> optimizeBudget seedExpenses "Bills" seedBudgets).
Proof.
  apply budgets_stay_unique. apply (bool_decide_unpack _). vm_compute. exact I.
Defined.

End BudgetFacts.

Section BudgetCompose.
Import Dashboard DashboardActions.
Local Open Scope js_scope.

(** X3. Setting a limit and optimising commute, except for one case: when the
    category being optimised is the one given a limit and it had no budget,
    optimising after the limit gives the new budget a smart limit, and
    optimising before does not. *)
Theorem optimizeBudget_setBudgetLimit (filtered : list Expense.t)
    (category category' : string) (limit : number) (prev : list Budget.t) :
  (category' ∈ Budget.category <$> prev \/ category <> category' ->
   optimizeBudget filtered category (setBudgetLimit category' limit prev)
   = setBudgetLimit category' limit (optimizeBudget filtered category prev))
  /\ (category ∉ Budget.category <$> prev ->
      optimizeBudget filtered category (setBudgetLimit category limit prev)
      <> setBudgetLimit category limit (optimizeBudget filtered category prev)).
Proof.
  split.
  - intros Hcase.
    destruct (decide (category' ∈ Budget.category <$> prev)) as [Hin|Hout].
    + rewrite (setBudgetLimit_present _ _ _ Hin).
      rewrite setBudgetLimit_present by (rewrite categories_optimizeBudget; exact Hin).
      unfold optimizeBudget. rewrite <- !list_fmap_compose. apply list_fmap_ext.
      intros _ b _. unfold withLimit. cbn [compose].
      destruct (bool_decide (Budget.category b = category')) eqn:E1;
        destruct (bool_decide (Budget.category b = category)) eqn:E2;
        cbn [Budget.category Budget.limit Budget.rollover Budget.smartLimit Budget.priority];
        rewrite ?E1, ?E2; reflexivity.
    + destruct Hcase as [Hin|Hne]; [contradiction|].
      rewrite (setBudgetLimit_absent _ _ _ Hout).
      rewrite setBudgetLimit_absent by (rewrite categories_optimizeBudget; exact Hout).
      unfold optimizeBudget. rewrite fmap_app. f_equal. simpl.
      rewrite bool_decide_eq_false_2 by congruence. reflexivity.
  - intros Hout.
    rewrite (setBudgetLimit_absent _ _ _ Hout).
    rewrite setBudgetLimit_absent by (rewrite categories_optimizeBudget; exact Hout).
    unfold optimizeBudget. rewrite fmap_app. intros Heq.
    apply app_inv_head in Heq. simpl in Heq.
    rewrite bool_decide_eq_true_2 in Heq by reflexivity. discriminate Heq.
Qed.

Lemma optimizeBudget_setBudgetLimit_witness :
  optimizeBudget seedExpenses "Food" (setBudgetLimit "Bills" (num 2500) seedBudgets)
  = setBudgetLimit "Bills" (num 2500) (optimizeBudget seedExpenses "Food" seedBudgets)
  /\ optimizeBudget seedExpenses "Bills" (setBudgetLimit "Bills" (num 2500) seedBudgets)
     <> setBudgetLimit "Bills" (num 2500) (optimizeBudget seedExpenses "Bills" seedBudgets).
Proof.
  split.
  - apply (proj1 (optimizeBudget_setBudgetLimit seedExpenses "Food" "Bills" (num 2500)
                    seedBudgets)).
    right. discriminate.
  - apply (proj2 (optimizeBudget_setBudgetLimit seedExpenses "Bills" "Bills" (num 2500)
                    seedBudgets)).
    apply (bool_decide_unpack _). vm_compute. exact I.
Defined.

(** *** The budget card *)

Lemma gt_100_gt_80 (x : number) : (x > num 100) = true -> (x > num 80) = true.
Proof.
  destruct x as [q| | |]; simpl; try discriminate; try reflexivity.
  unfold gt, lt, num. rewrite !Qc_ltb_lt. intros H.
  apply Qclt_trans with (Q2Qc 100); [|exact H]. apply Qc_ltb_lt. reflexivity.
Qed.


End BudgetCompose.

Section CardsAndTrend.
Import Dashboard DashboardActions.
Local Open Scope js_scope.






End CardsAndTrend.

(** ** The entries of the totals *)

Section TotalsEntries.
Import Dashboard.
Local Open Scope js_scope.

Lemma filter_nonempty_iff {A} (P : A -> Prop) `{!forall x, Decision (P x)} (l : list A) :
  filter P l <> [] <-> exists x, x ∈ l /\ P x.
Proof.
  split.
  - destruct (filter P l) as [|x k] eqn:E; [congruence|]. intros _.
    assert (Hx : x ∈ filter P l) by (rewrite E; apply list_elem_of_here).
    apply list_elem_of_filter in Hx. exists x. tauto.
  - intros (x & Hx & HP) E.
    assert (Hin : x ∈ filter P l) by (apply list_elem_of_filter; tauto).
    rewrite E in Hin. inversion Hin.
Qed.

Lemma categoryMap_is_Some (filtered : list Expense.t) (c : string) :
  is_Some (categoryMap filtered !! c)
  <-> exists e, e ∈ filtered /\ Expense.category e = c.
Proof.
  rewrite categoryMap_spend. split.
  - intros [v Hv]. destruct (filter _ filtered) as [|e l] eqn:E; [discriminate|].
    assert (He : e ∈ e :: l) by apply list_elem_of_here.
    rewrite <- E in He. apply list_elem_of_filter in He. exists e. tauto.
  - intros (e & He & Hc).
    assert (Hin : e ∈ filter (fun x => Expense.category x = c) filtered).
    { apply list_elem_of_filter. tauto. }
    destruct (filter _ filtered); [inversion Hin | eauto].
Qed.


End TotalsEntries.

(** ** Anomalies are a minority of their category *)

Section AnomalyMinority.
Import Dashboard.
Local Open Scope js_scope.

Lemma filter_ext_in {A} (P Q : A -> Prop) `{!forall x, Decision (P x)}
    `{!forall x, Decision (Q x)} (l : list A) :
  (forall x, x ∈ l -> (P x <-> Q x)) -> filter P l = filter Q l.
Proof.
  induction l as [|x l IH]; intros Hall; [reflexivity|].
  rewrite !filter_cons.
  assert (Hx : P x <-> Q x) by (apply Hall, list_elem_of_here).
  assert (Hl : filter P l = filter Q l).
  { apply IH. intros y Hy. apply Hall. apply list_elem_of_further, Hy. }
  destruct (decide (P x)), (decide (Q x)); rewrite Hl; tauto.
Qed.

(** The transactions of [l] whose amount is above [t]. *)
Definition above (t : Qc) (l : list Expense.t) : list Expense.t :=
  filter (fun e => (Expense.amount e > Fin t) = true) l.

(** The amounts above a threshold [t] weigh at least [t] each. *)
Lemma above_threshold_sum (t : Qc) (l : list Expense.t) :
  (0 <= t)%Qc ->
  Forall (fun e => nonneg (Expense.amount e)) l ->
  exists s : Qc,
    total (Expense.amount <$> l) = Fin s
    /\ (Qc_of_nat (length (above t l)) * t <= s)%Qc
    /\ ((0 < length (above t l))%nat -> (Qc_of_nat (length (above t l)) * t < s)%Qc).
Proof.
  intros Ht. induction 1 as [|e l He Hl (s & Hs & Hle & Hlt)].
  - exists 0%Qc. split; [reflexivity|]. split; [|simpl; lia].
    simpl. change (Qc_of_nat 0) with 0%Qc. qc2q. lra.
  - apply nonneg_Fin in He as (a & Ha & Ha0). exists (a + s)%Qc.
    split; [rewrite fmap_cons; cbn [total foldr]; fold (total (Expense.amount <$> l));
            rewrite Hs, Ha; reflexivity|].
    unfold above in *. rewrite filter_cons. rewrite Ha.
    destruct (decide ((Fin a > Fin t) = true)) as [Hgt|Hngt].
    + apply gt_Fin in Hgt. cbn [length]. rewrite Qc_of_nat_S.
      set (k := Qc_of_nat _) in *.
      assert (Hstrict : ((k + 1) * t < a + s)%Qc).
      { qc2q. lra. }
      split; [apply Qclt_le_weak, Hstrict | intros _; exact Hstrict].
    + split.
      * qc2q. lra.
      * intros Hk. specialize (Hlt Hk). qc2q. lra.
Qed.



End AnomalyMinority.

(** ** The actual days of the trend conserve the spend of the window *)

Section TrendConservation.
Import Dashboard.
Local Open Scope js_scope.

Variable today : Z.
Variable localDay : string -> option Z.
Variable isoKey : Z -> string.

(** A transaction dated on one of the twelve days that end today. *)
Definition inWindow (t : Expense.t) : bool :=
  match localDay (Expense.date t) with
  | Some d => ((today - 11 <=? d) && (d <=? today))%Z
  | None => false
  end.

Lemma total_zip_add {A} (f g : A -> number) (l : list A) :
  total ((fun i => f i + g i) <$> l) = total (f <$> l) + total (g <$> l).
Proof.
  induction l as [|x l IH]; [symmetry; apply add_0_l|].
  rewrite !fmap_cons. cbn [total foldr].
  fold (total ((fun i => f i + g i) <$> l)) (total (f <$> l)) (total (g <$> l)).
  rewrite IH, <- !add_assoc. f_equal. rewrite !add_assoc. f_equal. apply add_comm.
Qed.

(** A sum in which at most one term is [a] and the others are 0. *)
Lemma total_indicator (a : number) (P : nat -> Prop) `{!forall i, Decision (P i)}
    (l : list nat) :
  NoDup l -> (forall i j, P i -> P j -> i = j) ->
  total ((fun i => if decide (P i) then a else num 0) <$> l)
  = if decide (Exists P l) then a else num 0.
Proof.
  intros Hnd Huniq. induction Hnd as [|i l Hi Hnd IH]; [reflexivity|].
  rewrite fmap_cons. cbn [total foldr].
  fold (total ((fun i => if decide (P i) then a else num 0) <$> l)). rewrite IH.
  destruct (decide (P i)) as [Hp|Hp].
  - rewrite (decide_True (P := Exists P (i :: l))) by (apply Exists_cons_hd, Hp).
    rewrite decide_False; [apply add_0_r|].
    intros Hex. apply Exists_exists in Hex as (j & Hj & Hpj).
    rewrite (Huniq i j Hp Hpj) in Hi. contradiction.
  - rewrite add_0_l. destruct (decide (Exists P l)) as [Hex|Hex].
    + rewrite decide_True by (apply Exists_cons_tl, Hex). reflexivity.
    + rewrite decide_False; [reflexivity|]. intros Hc. inversion Hc; contradiction.
Qed.

Lemma inWindow_Exists (t : Expense.t) :
  Exists (fun i : nat => localDay (Expense.date t) = Some (today - Z.of_nat i)%Z)
         (rev (seq 0 12))
  <-> inWindow t = true.
Proof.
  unfold inWindow. rewrite Exists_exists. split.
  - intros (i & Hi & ->).
    apply list_elem_of_In, (proj2 (in_rev _ _)), list_elem_of_In, elem_of_seq in Hi.
    apply andb_true_intro. split; [apply Z.leb_le | apply Z.leb_le]; lia.
  - destruct (localDay (Expense.date t)) as [d|]; [|discriminate].
    intros H. apply andb_prop in H as [H1 H2]. apply Z.leb_le in H1, H2.
    exists (Z.to_nat (today - d)). split.
    + apply list_elem_of_In, (proj1 (in_rev _ _)), list_elem_of_In, elem_of_seq. lia.
    + f_equal. lia.
Qed.


End TrendConservation.

(** ** The quick-add form and the deletion of an expense *)

Section Substrings.
Import DashboardActions.

(** [sub] occurs in [s]. *)
Definition occursIn (sub s : string) : Prop :=
  exists before after, s = before +:+ sub +:+ after.

Lemma prefix_spec (sub s : string) :
  String.prefix sub s = true <-> exists after, s = sub +:+ after.
Proof.
  revert s. induction sub as [|a sub IH]; intros s.
  - split; [intros _; exists s; reflexivity | intros _; destruct s; reflexivity].
  - destruct s as [|b s]; simpl.
    + split; [discriminate | intros (after & H); discriminate].
    + destruct (ascii_dec a b) as [->|Hne].
      * rewrite IH. split; intros (after & H); exists after.
        -- rewrite H. reflexivity.
        -- injection H as H. exact H.
      * split; [discriminate|]. intros (after & H). injection H as H _.
        congruence.
Qed.

(** [includes] is the test for an occurrence anywhere in the text. *)
Lemma includes_spec (s sub : string) :
  includes s sub = true <-> occursIn sub s.
Proof.
  unfold occursIn. induction s as [|c s IH].
  - cbn [includes]. destruct (String.prefix sub EmptyString) eqn:E.
    + split; [intros _|reflexivity]. apply prefix_spec in E as (after & E).
      exists EmptyString, after. exact E.
    + split; [discriminate|]. intros (before & after & H).
      destruct before; [|discriminate]. simpl in H.
      assert (String.prefix sub EmptyString = true) as E'
        by (apply prefix_spec; exists after; exact H).
      congruence.
  - cbn [includes]. destruct (String.prefix sub (String c s)) eqn:E.
    + split; [intros _|reflexivity]. apply prefix_spec in E as (after & E).
      exists EmptyString, after. exact E.
    + rewrite IH. split.
      * intros (before & after & H). exists (String c before), after.
        rewrite H. reflexivity.
      * intros (before & after & H). destruct before as [|c' before].
        -- simpl in H.
           assert (String.prefix sub (String c s) = true) as E'
             by (apply prefix_spec; exists after; exact H).
           congruence.
        -- injection H as _ H. exists before, after. exact H.
Qed.

Lemma find_first {A} (f : A -> bool) (l : list A) :
  match List.find f l with
  | Some x => exists before after,
                l = before ++ x :: after /\ f x = true
                /\ Forall (fun y => f y = false) before
  | None => Forall (fun y => f y = false) l
  end.
Proof.
  induction l as [|a l IH]; simpl; [constructor|].
  destruct (f a) eqn:E.
  - exists [], l. split; [reflexivity|]. split; [exact E | constructor].
  - destruct (List.find f l) as [x|].
    + destruct IH as (before & after & -> & Hx & Hb).
      exists (a :: before), after. split; [reflexivity|].
      split; [exact Hx | constructor; assumption].
    + constructor; assumption.
Qed.

End Substrings.

Section QuickAddFacts.
Import Dashboard DashboardActions.

Variable toLowerCase : string -> string.
Variable Number_of : string -> number.

(** A row of the keyword table one of whose words occurs in the text. *)
Definition rowMatches (lowerTitle : string) (row : string * list string) : Prop :=
  exists word, word ∈ snd row /\ occursIn word lowerTitle.

Lemma rowMatches_existsb lowerTitle row :
  existsb (fun word => includes lowerTitle word) (snd row) = true
  <-> rowMatches lowerTitle row.
Proof.
  unfold rowMatches. rewrite existsb_exists. split.
  - intros (w & Hin & Hinc). exists w. split; [apply list_elem_of_In, Hin|].
    apply includes_spec, Hinc.
  - intros (w & Hin & Hocc). exists w. split; [apply list_elem_of_In, Hin|].
    apply includes_spec, Hocc.
Qed.

(** X10. The suggestion is the category of the first row of the keyword table, in
    the order Food, Transport, Shopping, Entertainment, Bills, Health, one of
    whose words occurs anywhere in the lower-cased title, inside a longer
    word as well; when no word occurs it is the category selected in the
    form. *)
Theorem suggestCategoryFromTitle_first_row (categoryQuick title : string) :
  let lowerTitle := toLowerCase title in
  let suggestion := suggestCategoryFromTitle toLowerCase categoryQuick title in
  (suggestion = categoryQuick
   /\ forall row, row ∈ keywords -> ~ rowMatches lowerTitle row)
  \/ (exists before row after,
        keywords = before ++ row :: after
        /\ suggestion = fst row
        /\ rowMatches lowerTitle row
        /\ forall earlier, earlier ∈ before -> ~ rowMatches lowerTitle earlier).
Proof.
  intros lowerTitle suggestion. subst suggestion. unfold suggestCategoryFromTitle.
  fold lowerTitle.
  pose proof (find_first
                (fun row => existsb (fun word => includes lowerTitle word) (snd row))
                keywords) as H.
  destruct (List.find _ keywords) as [[category words]|].
  - right. destruct H as (before & after & Hk & Hrow & Hbefore).
    exists before, (category, words), after. split; [exact Hk|].
    split; [reflexivity|]. split; [apply rowMatches_existsb, Hrow|].
    intros earlier Hin Hm. rewrite Forall_forall in Hbefore.
    apply rowMatches_existsb in Hm. rewrite (Hbefore earlier Hin) in Hm. discriminate.
  - left. split; [reflexivity|]. intros row Hin Hm. rewrite Forall_forall in H.
    apply rowMatches_existsb in Hm. rewrite (H row Hin) in Hm. discriminate.
Qed.

Variable newId : string.
Variable now : string.

#[local] Abbreviation add := (addQuickExpense toLowerCase Number_of newId now).

Lemma addQuickExpense_never_throws (posted : result unit) (p : Page) :
  snd (add posted p) = Ok tt.
Proof.
  unfold addQuickExpense.
  destruct (bool_decide (amountQuick p = EmptyString)
            || bool_decide (categoryQuick p = EmptyString)); [reflexivity|].
  destruct posted; reflexivity.
Qed.

(** Adding from the form never throws, and the state it leaves does not
    depend on the outcome of the POST to the API: a failed request is
    swallowed. With an empty amount or category nothing changes at all. *)
Lemma addQuickExpense_swallows_post_failure (posted : result unit) (p : Page) :
  snd (add posted p) = Ok tt
  /\ fst (add posted p) = fst (add (Ok tt) p)
  /\ (amountQuick p = EmptyString \/ categoryQuick p = EmptyString ->
      fst (add posted p) = p).
Proof.
  unfold addQuickExpense.
  destruct (bool_decide (amountQuick p = EmptyString)
            || bool_decide (categoryQuick p = EmptyString)) eqn:E.
  - repeat split; reflexivity.
  - split; [destruct posted; reflexivity|]. split; [destruct posted; reflexivity|].
    intros [H|H]; apply orb_false_elim in E as [E1 E2].
    + rewrite bool_decide_eq_true_2 in E1 by exact H. discriminate.
    + rewrite bool_decide_eq_true_2 in E2 by exact H. discriminate.
Qed.

(** The expense that the form adds. *)
Definition quickExpense (p : Page) : Expense.t :=
  let hasTitle := negb (bool_decide (titleQuick p = EmptyString)) in
  {| Expense.id := IdStr newId;
     Expense.amount := Number_of (amountQuick p);
     Expense.category :=
       if hasTitle
       then suggestCategoryFromTitle toLowerCase (categoryQuick p) (titleQuick p)
       else categoryQuick p;
     Expense.date := now;
     Expense.title := if hasTitle then Some (titleQuick p) else None;
     Expense.tags := None;
     Expense.mood := Some (moodQuick p);
     Expense.confidence := Some (if hasTitle then num 85 else num 100);
     Expense.predicted := None;
     Expense.anomaly := None |}.

Lemma addQuickExpense_state (posted : result unit) (p : Page) :
  amountQuick p <> EmptyString -> categoryQuick p <> EmptyString ->
  fst (add posted p)
  = recalculateLater p (resetQuickForm (setExpenses (fun prev => quickExpense p :: prev) p)).
Proof.
  intros Ha Hc. unfold addQuickExpense.
  rewrite (bool_decide_eq_false_2 _ Ha), (bool_decide_eq_false_2 _ Hc).
  destruct posted; reflexivity.
Qed.

Lemma filter_idEq_fresh (id : ExpenseId) (l : list Expense.t) :
  Forall (fun x => idEq (Expense.id x) id = false) l ->
  filter (fun x => idEq (Expense.id x) id = false) l = l.
Proof.
  induction 1 as [|x l Hx _ IH]; [reflexivity|].
  rewrite filter_cons, decide_True by exact Hx. f_equal. exact IH.
Qed.

Lemma idEq_IdStr_refl (s : string) : idEq (IdStr s) (IdStr s) = true.
Proof. simpl. apply bool_decide_eq_true_2. reflexivity. Qed.

(** X11. Adding an expense ends without an exception whatever the POST to the
    API does, and deleting it again gives back the list of expenses, when
    the new id is not the id of a listed expense; but each of the two
    actions stores the health score of the list as it was before the action:
    after the addition the score does not count the new expense, and after
    the deletion it counts the deleted one. *)
Theorem add_then_delete_expense (posted : result unit) (p : Page) :
  amountQuick p <> EmptyString -> categoryQuick p <> EmptyString ->
  Forall (fun x => Expense.id x <> IdStr newId) (expenses p) ->
  let added := fst (add posted p) in
  let deleted := deleteExpense (IdStr newId) added in
  snd (add posted p) = Ok tt
  /\ expenses added = quickExpense p :: expenses p
  /\ financialHealth added
     = calculateFinancialHealth (expenses p) (budgets p) (financialGoals p)
  /\ expenses deleted = expenses p
  /\ financialHealth deleted
     = calculateFinancialHealth (quickExpense p :: expenses p) (budgets p)
         (financialGoals p).
Proof.
  intros Ha Hc Hfresh added deleted. subst deleted added.
  split; [apply addQuickExpense_never_throws|].
  rewrite (addQuickExpense_state posted p Ha Hc).
  split; [reflexivity|]. split; [reflexivity|]. split; [|reflexivity].
  cbn [deleteExpense recalculateLater setFinancialHealth setExpenses resetQuickForm
       expenses].
  rewrite filter_cons, decide_False.
  - apply filter_idEq_fresh. eapply Forall_impl; [exact Hfresh|].
    intros x Hx. cbn beta in *. destruct (Expense.id x) as [s|n]; [|destruct n; reflexivity].
    simpl. apply bool_decide_eq_false_2. congruence.
  - cbn [quickExpense Expense.id]. rewrite idEq_IdStr_refl. discriminate.
Qed.

End QuickAddFacts.

Section DeleteAndCategories.
Import Dashboard DashboardActions.

Definition hasStringId (x : Expense.t) : bool :=
  match Expense.id x with IdStr _ => true | IdNum _ => false end.


(** X13. The category manager keeps the names distinct: neither handler
    introduces a duplicate, a removed name is gone, an added name is listed
    in its trimmed form, and adding the same text again changes nothing. *)
Theorem categories_stay_unique (value category : string) (p : Page) :
  NoDup (categories p) ->
  NoDup (categories (addCategory value p))
  /\ NoDup (categories (removeCategory category p))
  /\ (category ∉ categories (removeCategory category p))
  /\ (trim value <> EmptyString -> trim value ∈ categories (addCategory value p))
  /\ addCategory value (addCategory value p) = addCategory value p.
Proof.
  intros Hnd. unfold addCategory, removeCategory.
  split; [|split; [|split; [|split]]].
  - destruct (bool_decide (trim value = EmptyString)); [exact Hnd|].
    destruct (bool_decide (trim value ∈ categories p)) eqn:E; [exact Hnd|].
    apply bool_decide_eq_false in E. cbn [setCategories categories].
    apply NoDup_app. split; [exact Hnd|]. split; [|apply NoDup_singleton].
    intros x Hx Hx'. apply list_elem_of_singleton in Hx'. subst x. contradiction.
  - cbn [setCategories categories]. apply NoDup_filter, Hnd.
  - cbn [setCategories categories]. intros Hin.
    apply list_elem_of_filter in Hin as [Hne _]. apply Hne. reflexivity.
  - intros Hv. rewrite bool_decide_eq_false_2 by exact Hv.
    destruct (bool_decide (trim value ∈ categories p)) eqn:E.
    + apply bool_decide_eq_true in E. exact E.
    + cbn [setCategories categories]. apply elem_of_app. right.
      apply list_elem_of_singleton. reflexivity.
  - destruct (bool_decide (trim value = EmptyString)) eqn:Ev; [reflexivity|].
    destruct (bool_decide (trim value ∈ categories p)) eqn:E.
    + rewrite E. reflexivity.
    + cbn [setCategories categories].
      rewrite bool_decide_eq_true_2; [reflexivity|].
      apply elem_of_app. right. apply list_elem_of_singleton. reflexivity.
Qed.

(** X14. Whatever the load of the expenses gives, the list of the API or the seed
    list after a failure, the health score stored at its end is the one of
    the state before the load: on the first render, with no expense yet, it
    is 70 overall with 100 for spending, 25 for saving, 80 for budgeting and
    75 for planning. A load cancelled in the meantime touches neither the
    expenses nor the score. *)
Theorem load_health_ignores_loaded (loaded : result (list Expense.t))
    (seed : list Expense.t) (p : Page) (goalId : string) :
  let out := load loaded seed false p in
  snd out = Ok tt
  /\ loading (fst out) = false
  /\ expenses (fst out) = match loaded with Ok normalized => normalized | Throw _ => seed end
  /\ financialHealth (fst out)
     = calculateFinancialHealth (expenses p) (budgets p) (financialGoals p)
  /\ financialHealth (fst (load loaded seed false (initialPage goalId)))
     = {| FinancialHealthScore.overall := num 70;
          FinancialHealthScore.spending := num 100;
          FinancialHealthScore.saving := num 25;
          FinancialHealthScore.budgeting := num 80;
          FinancialHealthScore.planning := num 75 |}
  /\ fst (load loaded seed true p) = setLoading true p.
Proof.
  cbn zeta. destruct loaded as [normalized|e]; repeat split; reflexivity.
Qed.

End DeleteAndCategories.

Section FilteredFacts.
Import Dashboard DashboardActions.

Variable toLowerCase : string -> string.
Variable String_of : number -> string.
Variable sortNewestFirst : list Expense.t -> list Expense.t.
Hypothesis sort_permutes : forall l, sortNewestFirst l ≡ₚ l.

Variables catFilter monthFilter search : string.

#[local] Abbreviation shown :=
  (filtered toLowerCase String_of sortNewestFirst catFilter monthFilter search).

Lemma elem_of_List_filter {A} (f : A -> bool) (l : list A) (x : A) :
  x ∈ List.filter f l <-> x ∈ l /\ f x = true.
Proof. rewrite !list_elem_of_In. apply filter_In. Qed.

Lemma filtered_elem (expenses : list Expense.t) (e : Expense.t) :
  e ∈ shown expenses
  <-> e ∈ expenses
      /\ matchesCategory catFilter e = true
      /\ matchesMonth monthFilter e = true
      /\ matchesSearch toLowerCase String_of search e = true.
Proof.
  unfold filtered. rewrite (sort_permutes _), !elem_of_List_filter. tauto.
Qed.

Lemma optimizedAmount_unrecorded (l : list Expense.t) (category : string) :
  (forall e, e ∈ l -> Expense.category e <> category) ->
  optimizedAmount l category = num 0.
Proof.
  intros Hnone. unfold optimizedAmount, categorySpend.
  rewrite find_totalsByCategory, categoryMap_spend.
  replace (filter (fun e => Expense.category e = category) l) with (@nil Expense.t).
  - vm_compute. reflexivity.
  - symmetry. induction l as [|e l IH]; [reflexivity|].
    rewrite filter_cons, decide_False by (apply Hnone; left).
    apply IH. intros e' He'. apply Hnone. right. exact He'.
Qed.

(** X15. While the filter shows one category, every shown expense is of that
    category, and optimising the budget of another category sets its smart
    limit to 0 whatever was spent in it: the optimisation reads the totals of
    the shown list, not of all expenses. *)
Theorem optimizeBudget_under_category_filter (expenses : list Expense.t)
    (category : string) (prev : list Budget.t) :
  catFilter <> "All" -> category <> catFilter ->
  (forall e, e ∈ shown expenses -> Expense.category e = catFilter)
  /\ optimizedAmount (shown expenses) category = num 0
  /\ forall i b,
       prev !! i = Some b -> Budget.category b = category ->
       Budget.smartLimit <$> optimizeBudget (shown expenses) category prev !! i
       = Some (Some (num 0)).
Proof.
  intros Hall Hother.
  assert (Hcat : forall e, e ∈ shown expenses -> Expense.category e = catFilter).
  { intros e He. apply filtered_elem in He as (_ & Hc & _).
    unfold matchesCategory in Hc. rewrite bool_decide_eq_false_2 in Hc by exact Hall.
    apply bool_decide_eq_true in Hc. exact Hc. }
  assert (Hzero : optimizedAmount (shown expenses) category = num 0).
  { apply optimizedAmount_unrecorded. intros e He Hc. rewrite (Hcat e He) in Hc.
    congruence. }
  split; [exact Hcat|]. split; [exact Hzero|].
  intros i b Hi Hb. unfold optimizeBudget. rewrite list_lookup_fmap, Hi. simpl.
  rewrite bool_decide_eq_true_2 by exact Hb. simpl. rewrite Hzero. reflexivity.
Qed.

End FilteredFacts.

(** ** The list of chats and the active chat *)

Section ChatStoreFacts.
Import ChatCenter ChatStore.

Definition chatIds (cs : list Chat.t) : list string := Chat.id <$> cs.

(** The active id is [null] or the id of a listed chat. *)
Definition activeListed (s : Store) : Prop :=
  match activeChatId s with
  | Some a => a ∈ chatIds (chats s)
  | None => True
  end.

Lemma find_chat_Some id (cs : list Chat.t) found :
  List.find (fun c => bool_decide (Chat.id c = id)) cs = Some found ->
  found ∈ cs /\ Chat.id found = id.
Proof.
  intros H. apply find_some in H as [Hin Hid]. split.
  - apply list_elem_of_In, Hin.
  - apply bool_decide_eq_true in Hid. exact Hid.
Qed.

Lemma find_chat_None id (cs : list Chat.t) :
  List.find (fun c => bool_decide (Chat.id c = id)) cs = None <-> id ∉ chatIds cs.
Proof.
  unfold chatIds. induction cs as [|c cs IH]; simpl.
  - split; [intros _ H; inversion H | reflexivity].
  - destruct (bool_decide (Chat.id c = id)) eqn:E.
    + apply bool_decide_eq_true in E. split; [discriminate|].
      intros H. exfalso. apply H. rewrite E. left.
    + apply bool_decide_eq_false in E. rewrite IH, not_elem_of_cons. split.
      * intros H. split; [congruence | exact H].
      * intros [_ H]. exact H.
Qed.

Lemma filter_other_chats_fresh id (cs : list Chat.t) :
  id ∉ chatIds cs -> filter (fun p => Chat.id p <> id) cs = cs.
Proof.
  unfold chatIds. induction cs as [|c cs IH]; [reflexivity|].
  rewrite fmap_cons, not_elem_of_cons. intros [Hne Hrest].
  rewrite filter_cons, decide_True by congruence. f_equal. apply IH, Hrest.
Qed.

Lemma promote_permutation id (cs : list Chat.t) found :
  NoDup (chatIds cs) ->
  List.find (fun c => bool_decide (Chat.id c = id)) cs = Some found ->
  found :: filter (fun p => Chat.id p <> id) cs ≡ₚ cs.
Proof.
  unfold chatIds. induction cs as [|c cs IH]; [discriminate|].
  rewrite fmap_cons, NoDup_cons. intros [Hc Hnd]. simpl.
  destruct (bool_decide (Chat.id c = id)) eqn:E.
  - apply bool_decide_eq_true in E. intros [= <-].
    rewrite filter_cons, decide_False by (intros H; apply H, E).
    rewrite filter_other_chats_fresh by (rewrite <- E; exact Hc). reflexivity.
  - apply bool_decide_eq_false in E. intros Hfind.
    rewrite filter_cons, decide_True by exact E.
    rewrite Permutation_swap. apply Permutation_skip, IH; assumption.
Qed.

(** X16. Making a chat active moves it to the front and loses no chat, when the
    ids are distinct: the list is a permutation of the former one, the other
    chats keep their order, the promoted chat is the active one, and doing it
    again changes nothing. *)
Theorem setActiveChat_promotes (id : string) (s : Store) :
  NoDup (chatIds (chats s)) ->
  chats (setActiveChat id s) ≡ₚ chats s
  /\ NoDup (chatIds (chats (setActiveChat id s)))
  /\ filter (fun p => Chat.id p <> id) (chats (setActiveChat id s))
     = filter (fun p => Chat.id p <> id) (chats s)
  /\ (id ∈ chatIds (chats s) ->
      exists found,
        head (chats (setActiveChat id s)) = Some found
        /\ Chat.id found = id
        /\ getActiveChat (setActiveChat id s) = Some found)
  /\ setActiveChat id (setActiveChat id s) = setActiveChat id s.
Proof.
  intros Hnd. unfold setActiveChat, getActiveChat. cbn [chats activeChatId].
  destruct (List.find _ (chats s)) as [found|] eqn:Hfind.
  - destruct (find_chat_Some _ _ _ Hfind) as [Hin Hid].
    pose proof (promote_permutation id (chats s) found Hnd Hfind) as Hperm.
    split; [exact Hperm|]. split; [|split; [|split]].
    + unfold chatIds in *. rewrite Hperm. exact Hnd.
    + rewrite filter_cons, decide_False by (intros H; apply H, Hid).
      rewrite list_filter_filter. apply list_filter_iff. intros x. tauto.
    + intros _. exists found. split; [reflexivity|]. split; [exact Hid|].
      simpl. rewrite bool_decide_eq_true_2 by exact Hid. reflexivity.
    + f_equal. simpl. rewrite bool_decide_eq_true_2 by exact Hid.
      f_equal. rewrite filter_cons, decide_False by (intros H; apply H, Hid).
      rewrite list_filter_filter. apply list_filter_iff. intros x. tauto.
  - split; [reflexivity|]. split; [exact Hnd|]. split; [reflexivity|]. split.
    + intros Hin. apply find_chat_None in Hfind. contradiction.
    + rewrite Hfind. reflexivity.
Qed.

(** X17. The active id stays the id of a listed chat, or [null], under the
    creation, the deletion and the renaming of a chat; after the deletion of
    the active chat it is the id of the first remaining chat. Making a chat
    active keeps it so exactly when the id is listed: an unknown id becomes
    the active id all the same. *)
Theorem active_chat_stays_listed (s : Store) (confirmed : bool)
    (id title systemPrompt chatId messageId createdAt ts defaultTitle : string)
    (newTitle : option string) :
  activeListed s ->
  activeListed (deleteChat confirmed id s)
  /\ activeListed (renameChat id title s)
  /\ activeListed (createNewChat newTitle systemPrompt chatId messageId createdAt ts
                     defaultTitle s)
  /\ (activeListed (setActiveChat id s) <-> id ∈ chatIds (chats s))
  /\ (activeChatId s = Some id ->
      activeChatId (deleteChat true id s)
      = Chat.id <$> head (filter (fun c => Chat.id c <> id) (chats s))).
Proof.
  unfold activeListed. intros Hs. split; [|split; [|split; [|split]]].
  - unfold deleteChat. destruct confirmed; [|exact Hs]. cbn [negb chats activeChatId].
    destruct (bool_decide (activeChatId s = Some id)) eqn:E.
    + destruct (filter _ (chats s)) as [|first rest]; [exact I|].
      unfold chatIds. rewrite fmap_cons. left.
    + apply bool_decide_eq_false in E. destruct (activeChatId s) as [a|]; [|exact I].
      unfold chatIds in *. apply list_elem_of_fmap in Hs as (c & -> & Hc).
      apply list_elem_of_fmap. exists c. split; [reflexivity|].
      apply list_elem_of_filter. split; [congruence | exact Hc].
  - unfold renameChat. cbn [chats activeChatId].
    destruct (activeChatId s) as [a|]; [|exact I].
    unfold chatIds in *. rewrite <- list_fmap_compose.
    erewrite list_fmap_ext; [exact Hs|]. intros _ c _. simpl.
    destruct (bool_decide _); reflexivity.
  - unfold createNewChat. cbn [chats activeChatId Chat.id]. unfold chatIds.
    rewrite fmap_cons. left.
  - unfold setActiveChat. cbn [chats activeChatId].
    destruct (List.find _ (chats s)) as [found|] eqn:Hfind.
    + destruct (find_chat_Some _ _ _ Hfind) as [Hin Hid]. split.
      * intros _. unfold chatIds. apply list_elem_of_fmap. exists found. split; [congruence | exact Hin].
      * intros _. unfold chatIds. rewrite fmap_cons, Hid. left.
    + reflexivity.
  - intros Ha. unfold deleteChat. cbn [negb chats activeChatId].
    rewrite bool_decide_eq_true_2 by exact Ha.
    destruct (filter _ (chats s)); reflexivity.
Qed.

End ChatStoreFacts.

Section TrendsByMonth.
Import ChatCenter ChatStore.
Local Open Scope js_scope.

Variable monthOf : string -> string.

(** What the entries of a month hold together. *)
Definition amountOf (month : string) (acc : list MonthTotal.t) : number :=
  total (MonthTotal.amount <$> filter (fun item => MonthTotal.month item = month) acc).

Lemma addToMonth_months month amount acc :
  MonthTotal.month <$> addToMonth month amount acc
  = if bool_decide (month ∈ MonthTotal.month <$> acc)
    then MonthTotal.month <$> acc
    else (MonthTotal.month <$> acc) ++ [month].
Proof.
  induction acc as [|item rest IH]; cbn [addToMonth].
  - rewrite bool_decide_eq_false_2; [reflexivity|]. intros H. inversion H.
  - rewrite (fmap_cons _ item rest).
    destruct (bool_decide (MonthTotal.month item = month)) eqn:E.
    + apply bool_decide_eq_true in E. rewrite bool_decide_eq_true_2; [reflexivity|].
      rewrite E. left.
    + apply bool_decide_eq_false in E. rewrite fmap_cons, IH.
      destruct (bool_decide (month ∈ MonthTotal.month <$> rest)) eqn:E'.
      * apply bool_decide_eq_true in E'. rewrite bool_decide_eq_true_2; [reflexivity|].
        right. exact E'.
      * apply bool_decide_eq_false in E'. rewrite bool_decide_eq_false_2; [reflexivity|].
        rewrite not_elem_of_cons. split; [congruence | exact E'].
Qed.

Lemma addToMonth_NoDup month amount acc :
  NoDup (MonthTotal.month <$> acc) ->
  NoDup (MonthTotal.month <$> addToMonth month amount acc).
Proof.
  intros Hnd. rewrite addToMonth_months.
  destruct (bool_decide _) eqn:E; [exact Hnd|]. apply bool_decide_eq_false in E.
  apply NoDup_app. split; [exact Hnd|]. split; [|apply NoDup_singleton].
  intros x Hx Hx'. apply list_elem_of_singleton in Hx'. subst x. contradiction.
Qed.

Lemma addToMonth_total month amount acc :
  total (MonthTotal.amount <$> addToMonth month amount acc)
  = total (MonthTotal.amount <$> acc) + amount.
Proof.
  induction acc as [|item rest IH]; cbn [addToMonth].
  - vm_compute total at 2. rewrite add_0_l. cbn. apply add_0_r.
  - destruct (bool_decide (MonthTotal.month item = month)).
    + rewrite !fmap_cons. cbn [total foldr MonthTotal.amount].
      fold (total (MonthTotal.amount <$> rest)).
      rewrite <- !add_assoc. f_equal. apply add_comm.
    + rewrite !fmap_cons. cbn [total foldr].
      fold (total (MonthTotal.amount <$> addToMonth month amount rest))
           (total (MonthTotal.amount <$> rest)).
      rewrite IH. apply add_assoc.
Qed.

Lemma addToMonth_amountOf k month amount acc :
  amountOf k (addToMonth month amount acc)
  = if bool_decide (month = k) then amountOf k acc + amount else amountOf k acc.
Proof.
  unfold amountOf. induction acc as [|item rest IH]; cbn [addToMonth].
  - rewrite filter_nil. change (total (MonthTotal.amount <$> [])) with (num 0).
    rewrite add_0_l. cbn [MonthTotal.month].
    destruct (bool_decide (month = k)) eqn:E.
    + apply bool_decide_eq_true in E.
      rewrite filter_cons, decide_True by exact E. apply add_0_r.
    + apply bool_decide_eq_false in E.
      rewrite filter_cons, decide_False by exact E. reflexivity.
  - destruct (bool_decide (MonthTotal.month item = month)) eqn:Ei.
    + apply bool_decide_eq_true in Ei. rewrite !filter_cons. cbn [MonthTotal.month].
      destruct (bool_decide (month = k)) eqn:E.
      * apply bool_decide_eq_true in E.
        rewrite !decide_True by congruence. rewrite !fmap_cons.
        cbn [total foldr MonthTotal.amount].
        rewrite <- !add_assoc. f_equal. apply add_comm.
      * apply bool_decide_eq_false in E.
        rewrite !decide_False by congruence. reflexivity.
    + rewrite !filter_cons. destruct (decide (MonthTotal.month item = k)).
      * rewrite !fmap_cons. cbn [total foldr].
        fold (total (MonthTotal.amount <$>
                       filter (fun item => MonthTotal.month item = k)
                              (addToMonth month amount rest)))
             (total (MonthTotal.amount <$>
                       filter (fun item => MonthTotal.month item = k) rest)).
        rewrite IH. destruct (bool_decide (month = k)); [apply add_assoc | reflexivity].
      * exact IH.
Qed.

Lemma amountOf_single (acc : list MonthTotal.t) (item : MonthTotal.t) :
  NoDup (MonthTotal.month <$> acc) -> item ∈ acc ->
  amountOf (MonthTotal.month item) acc = MonthTotal.amount item.
Proof.
  unfold amountOf. induction acc as [|x rest IH]; [intros _ H; inversion H|].
  rewrite fmap_cons, NoDup_cons. intros [Hx Hnd] Hin.
  apply elem_of_cons in Hin as [->|Hin].
  - rewrite filter_cons, decide_True by reflexivity.
    replace (filter _ rest) with (@nil MonthTotal.t); [apply add_0_r|].
    symmetry. clear IH Hnd. induction rest as [|y rest IH]; [reflexivity|].
    rewrite fmap_cons, not_elem_of_cons in Hx. destruct Hx as [Hy Hrest].
    rewrite filter_cons, decide_False by congruence. apply IH, Hrest.
  - rewrite filter_cons, decide_False; [apply IH; assumption|].
    intros Heq. apply Hx. rewrite Heq. apply list_elem_of_fmap.
    exists item. split; [reflexivity | exact Hin].
Qed.


End TrendsByMonth.

(** ** Every send settles *)

Section SendAlways.
Import ChatCenter.

Variable JSON_parse : string -> result JSON.
Variable JSON_stringify : JSON -> string.
Variable String_of : option JSON -> string.
Variables chatId assistantId : string.

#[local] Abbreviation update text :=
  (updateMessageInChat chatId assistantId (contentPatch text)).

(** The state after the chunk callback has run with the text [accumulated]. *)
Definition afterChunk (accumulated : string) (a : App) : App :=
  setStreamedTextTemp (fun s => <[assistantId := accumulated]> s)
    (setChats (update accumulated) a).

Lemma patched_last_wins messageId t1 t2 m :
  patched messageId (contentPatch t2) (patched messageId (contentPatch t1) m)
  = patched messageId (contentPatch t2) m.
Proof.
  unfold patched. destruct (bool_decide (Message.id m = messageId)) eqn:E.
  - cbn [applyPatch contentPatch Patch.id Patch.content default Message.id].
    rewrite E. reflexivity.
  - rewrite E. reflexivity.
Qed.

(** The later of two patches of the content is the one that stays. *)
Lemma update_last_wins t1 t2 (cs : list Chat.t) :
  update t2 (update t1 cs) = update t2 cs.
Proof.
  unfold updateMessageInChat. rewrite <- list_fmap_compose.
  apply list_fmap_ext. intros _ c _. cbn [compose].
  destruct (bool_decide (Chat.id c = chatId)) eqn:E.
  - cbn [withMessages Chat.id Chat.messages]. rewrite E.
    unfold withMessages. cbn [Chat.id Chat.title Chat.createdAt Chat.messages].
    f_equal. rewrite <- list_fmap_compose. apply list_fmap_ext. intros _ m _.
    apply (patched_last_wins assistantId t1 t2 m).
  - rewrite E. reflexivity.
Qed.

Lemma afterChunk_last_wins t1 t2 (a : App) :
  afterChunk t2 (afterChunk t1 a) = afterChunk t2 a.
Proof.
  unfold afterChunk, setStreamedTextTemp, setChats.
  cbn [chats composerText sending streamedTextTemp].
  rewrite update_last_wins, insert_insert_eq. reflexivity.
Qed.

(** The streaming state [(accumulated, app)] has not moved, or it is the one
    left by a chunk callback. *)
Definition stepped (s s' : string * App) : Prop :=
  s' = s \/ snd s' = afterChunk (fst s') (snd s).

Lemma stepped_trans s1 s2 s3 : stepped s1 s2 -> stepped s2 s3 -> stepped s1 s3.
Proof.
  intros [->|H12] [->|H23].
  - left. reflexivity.
  - right. exact H23.
  - right. exact H12.
  - right. rewrite H23, H12. apply afterChunk_last_wins.
Qed.

Lemma stepped_then_chunk s1 s2 s3 :
  stepped s1 s2 -> snd s3 = afterChunk (fst s3) (snd s2) ->
  snd s3 = afterChunk (fst s3) (snd s1).
Proof.
  intros [->|H12] H23; [exact H23|]. rewrite H23, H12. apply afterChunk_last_wins.
Qed.

Lemma onChunkOf_run chunk (s : string * App) :
  onChunkOf chatId assistantId chunk s
  = ((fst s +:+ chunk, afterChunk (fst s +:+ chunk) (snd s)), Ok tt).
Proof. destruct s as [acc a]. reflexivity. Qed.

Lemma forwardLine_stepped line (s : string * App) :
  exists s',
    forwardLine JSON_parse (onChunkOf chatId assistantId) line s = (s', Ok tt)
    /\ stepped s s'.
Proof.
  unfold forwardLine. destruct (bool_decide (trim line = EmptyString)).
  - exists s. split; [reflexivity | left; reflexivity].
  - unfold try_catch, mbind, Eff_bind, eff_bind, await.
    destruct (JSON_parse line) as [parsed|e].
    + destruct (coalesce _ _) as [[| | |c| |]|];
        try (exists s; split; [reflexivity | left; reflexivity]).
      rewrite onChunkOf_run. eexists. split; [reflexivity|]. right. reflexivity.
    + exists s. split; [reflexivity | left; reflexivity].
Qed.

Lemma for_of_stepped lines (s : string * App) :
  exists s',
    for_of lines (forwardLine JSON_parse (onChunkOf chatId assistantId)) s = (s', Ok tt)
    /\ stepped s s'.
Proof.
  revert s. induction lines as [|line lines IH]; intros s.
  - exists s. split; [reflexivity | left; reflexivity].
  - cbn [for_of]. unfold mbind, Eff_bind, eff_bind.
    destruct (forwardLine_stepped line s) as (s1 & -> & H1).
    destruct (IH s1) as (s2 & -> & H2).
    exists s2. split; [reflexivity|]. exact (stepped_trans _ _ _ H1 H2).
Qed.

(** The read loop ends, with the failure of the reader if there is one and
    without an exception otherwise; once a chunk has arrived the state is the
    one left by a chunk callback. *)
Lemma readLoop_stepped pending failure buffer (s : string * App) :
  exists s',
    readLoop JSON_parse (onChunkOf chatId assistantId) pending failure buffer s
    = (s', match failure with Some e => Throw e | None => Ok tt end)
    /\ (pending = [] -> s' = s)
    /\ (pending <> [] -> snd s' = afterChunk (fst s') (snd s)).
Proof.
  revert buffer s. induction pending as [|chunk rest IH]; intros buffer s.
  - exists s. split; [destruct failure; reflexivity|]. split; [reflexivity|].
    intros H. contradiction.
  - cbn [readLoop]. unfold mbind, Eff_bind, eff_bind. rewrite onChunkOf_run.
    destruct (for_of_stepped (removelast (split_lines (buffer +:+ chunk)))
                (fst s +:+ chunk, afterChunk (fst s +:+ chunk) (snd s)))
      as (s1 & -> & H1).
    destruct (IH (default EmptyString (last (split_lines (buffer +:+ chunk)))) s1)
      as (s2 & -> & Hnil & Hcons).
    exists s2. split; [reflexivity|]. split; [discriminate|]. intros _.
    assert (H01 : snd s1 = afterChunk (fst s1) (snd s)).
    { destruct H1 as [->|H1]; [reflexivity|].
      rewrite H1. apply afterChunk_last_wins. }
    destruct rest as [|chunk' rest'].
    + rewrite (Hnil eq_refl). exact H01.
    + rewrite (Hcons ltac:(discriminate)), H01. apply afterChunk_last_wins.
Qed.

Variable streamEnabled : bool.
Variables userId userTs assistantTs : string.

#[local] Abbreviation send fetched :=
  (sendChatMessage JSON_parse JSON_stringify String_of streamEnabled fetched
     userId userTs assistantId assistantTs chatId).

(** The state when the request leaves: both messages appended, the composer
    cleared, the flag raised and the streamed text of the placeholder
    empty. *)
Definition started (userText : string) (app : App) : App :=
  setStreamedTextTemp (fun s => <[assistantId := EmptyString]> s)
    (setSending true
       (setComposerText EmptyString
          (setChats (addMessageToChat chatId
                       (newMessage assistantId assistant "⏳ Assistant is thinking..."
                          assistantTs))
             (setChats (addMessageToChat chatId
                          (newMessage userId user (trim userText) userTs)) app)))).

(** The state after the [catch] and the [finally] block. *)
Definition failedWith (e : string) (a : App) : App :=
  setSending false (setChats (update ("⚠️ Network error: " +:+ e)) a).

(** The text shown for a response that is not [ok]. *)
Definition errorText (res : Response) : string :=
  match json res with
  | Ok j =>
      toString String_of
        (coalesce (field "error" (Some j))
           (coalesce (field "message" (Some j)) (Some (JStr (JSON_stringify j)))))
  | Throw _ =>
      match text res with
      | Ok t => t
      | Throw _ => "Error " +:+ pretty (status res)
      end
  end.

Lemma errorTextOf_run (res : Response) (a : App) :
  errorTextOf JSON_stringify String_of res a = (a, Ok (errorText res)).
Proof.
  unfold errorTextOf, errorText, try_catch, mbind, Eff_bind, eff_bind, await.
  destruct (json res); [reflexivity|]. destruct (text res); reflexivity.
Qed.

Lemma send_fetch_failed e userText app :
  trim userText <> EmptyString ->
  send (Throw e) userText app = (failedWith e (started userText app), Ok tt).
Proof.
  intros Htext. unfold sendChatMessage.
  rewrite bool_decide_eq_false_2 by exact Htext. reflexivity.
Qed.

Lemma send_not_ok res userText app :
  trim userText <> EmptyString -> ok res = false ->
  send (Ok res) userText app
  = (setSending false
       (setSending false
          (setChats (update ("⚠️ " +:+ errorText res)) (started userText app))),
     Ok tt).
Proof.
  intros Htext Hok. unfold sendChatMessage.
  rewrite bool_decide_eq_false_2 by exact Htext.
  unfold mbind, Eff_bind, eff_bind, try_finally, try_catch, await.
  cbn [modify]. rewrite Hok. cbn [negb]. rewrite errorTextOf_run. reflexivity.
Qed.

Lemma send_not_streamed res userText app :
  trim userText <> EmptyString -> ok res = true ->
  bool_decide (is_Some (body res)) && streamEnabled = false ->
  send (Ok res) userText app
  = match json res with
    | Ok j =>
        (setSending false
           (setChats
              (update
                 (toString String_of
                    (coalesce (field "reply" (Some j))
                       (coalesce (field "response" (Some j))
                          (coalesce (field "content" (field "message" (Some j)))
                             (Some (JStr (toString String_of (Some j))))))))) 
              (started userText app)),
         Ok tt)
    | Throw e => (failedWith e (started userText app), Ok tt)
    end.
Proof.
  intros Htext Hok Hplain. unfold sendChatMessage.
  rewrite bool_decide_eq_false_2 by exact Htext.
  unfold mbind, Eff_bind, eff_bind, try_finally, try_catch, await.
  cbn [modify]. rewrite Hok. cbn [negb]. rewrite Hplain.
  destruct (json res); reflexivity.
Qed.

Lemma send_streamed res b userText app :
  trim userText <> EmptyString -> ok res = true ->
  body res = Some b -> streamEnabled = true ->
  exists accumulated a,
    (chunks b = [] -> a = started userText app)
    /\ (chunks b <> [] -> a = afterChunk accumulated (started userText app))
    /\ send (Ok res) userText app
       = match failure b with
         | None => (setSending false
                      (setStreamedTextTemp (fun s => delete assistantId s) a), Ok tt)
         | Some e => (failedWith e a, Ok tt)
         end.
Proof.
  intros Htext Hok Hbody Hstream.
  destruct (readLoop_stepped (chunks b) (failure b) EmptyString
              (EmptyString, started userText app)) as ([acc a] & Hrun & Hnil & Hcons).
  exists acc, a. split; [|split].
  - intros H. specialize (Hnil H). congruence.
  - intros H. exact (Hcons H).
  - unfold sendChatMessage. rewrite bool_decide_eq_false_2 by exact Htext.
    unfold mbind, Eff_bind, eff_bind, try_finally, try_catch, await, with_local.
    cbn [modify]. rewrite Hok. cbn [negb].
    rewrite Hbody, Hstream. rewrite bool_decide_eq_true_2 by eauto. cbn [andb].
    unfold streamTextFromResponse. rewrite Hbody.
    unfold mbind, Eff_bind, eff_bind.
    change (Message.id (newMessage assistantId assistant
                          "⏳ Assistant is thinking..." assistantTs))
      with assistantId.
    unfold started in Hrun. rewrite Hrun.
    destruct (failure b); reflexivity.
Qed.

Lemma send_shape (fetched : result Response) userText app :
  trim userText <> EmptyString ->
  exists a,
    send fetched userText app = (a, Ok tt)
    /\ sending a = false
    /\ composerText a = EmptyString
    /\ (chats a = chats (started userText app)
        \/ exists text, chats a = update text (chats (started userText app))).
Proof.
  intros Htext. destruct fetched as [res|e].
  - destruct (ok res) eqn:Hok.
    + destruct (bool_decide (is_Some (body res)) && streamEnabled) eqn:Hmode.
      * apply andb_prop in Hmode as [Hbody Hstream].
        apply bool_decide_eq_true in Hbody as [b Hbody].
        destruct (send_streamed res b userText app Htext Hok Hbody Hstream)
          as (acc & a & Hnil & Hcons & ->).
        destruct (chunks b) as [|chunk rest].
        -- rewrite (Hnil eq_refl). destruct (failure b) as [e|]; eexists;
             (split; [reflexivity|]); (split; [reflexivity|]);
             (split; [reflexivity|]).
           ++ right. eexists. reflexivity.
           ++ left. reflexivity.
        -- rewrite (Hcons ltac:(discriminate)). destruct (failure b) as [e|]; eexists;
             (split; [reflexivity|]); (split; [reflexivity|]);
             (split; [reflexivity|]); right; eexists.
           ++ cbn [failedWith afterChunk setSending setChats setStreamedTextTemp chats].
              apply update_last_wins.
           ++ reflexivity.
      * rewrite (send_not_streamed res userText app Htext Hok Hmode).
        destruct (json res); eexists; (split; [reflexivity|]);
          (split; [reflexivity|]); (split; [reflexivity|]); right; eexists; reflexivity.
    + rewrite (send_not_ok res userText app Htext Hok). eexists.
      split; [reflexivity|]. split; [reflexivity|]. split; [reflexivity|].
      right. eexists. reflexivity.
  - rewrite (send_fetch_failed e userText app Htext). eexists.
    split; [reflexivity|]. split; [reflexivity|]. split; [reflexivity|].
    right. eexists. reflexivity.
Qed.

(** X19. Whatever the request gives, a failure of the network, a response that is
    not [ok], a stream of any chunks that ends or breaks, a body that is or is
    not JSON, the send of a text that is not blank returns without an
    exception, with the sending flag lowered and the composer empty. It keeps
    the number of chats, leaves every chat with another id as it was, and
    gives the target chat exactly two more messages, the last of which is the
    assistant message. *)
Theorem send_always_settles (fetched : result Response) (userText : string) (app : App) :
  trim userText <> EmptyString ->
  let out := send fetched userText app in
  snd out = Ok tt
  /\ sending (fst out) = false
  /\ composerText (fst out) = EmptyString
  /\ length (chats (fst out)) = length (chats app)
  /\ forall i c,
       chats app !! i = Some c ->
       if bool_decide (Chat.id c = chatId) then
         exists c' text,
           chats (fst out) !! i = Some c'
           /\ Chat.id c' = chatId
           /\ length (Chat.messages c') = (length (Chat.messages c) + 2)%nat
           /\ last (Chat.messages c')
              = Some (newMessage assistantId assistant text assistantTs)
       else chats (fst out) !! i = Some c.
Proof.
  intros Htext out.
  destruct (send_shape fetched userText app Htext) as (a & Hout & Hs & Hc & Hchats).
  subst out. rewrite Hout. cbn [fst snd].
  split; [reflexivity|]. split; [exact Hs|]. split; [exact Hc|].
  cbn [started setStreamedTextTemp setSending setComposerText setChats chats] in Hchats.
  split.
  - destruct Hchats as [->|[text ->]]; unfold updateMessageInChat, addMessageToChat;
      rewrite !length_fmap; reflexivity.
  - intros i c Hi. destruct (bool_decide (Chat.id c = chatId)) eqn:E.
    + apply bool_decide_eq_true in E. destruct Hchats as [->|[text ->]].
      * pose proof (addMessageToChat_target chatId
                      (newMessage userId user (trim userText) userTs) _ i c Hi E) as H1.
        pose proof (addMessageToChat_target chatId
                      (newMessage assistantId assistant "⏳ Assistant is thinking..."
                         assistantTs) _ i _ H1 E) as H2.
        eexists _, _. split; [exact H2|]. split; [exact E|].
        cbn [withMessages Chat.messages]. split.
        -- rewrite !length_app. simpl. lia.
        -- rewrite last_snoc. reflexivity.
      * destruct (appended_then_patched chatId
                    (newMessage userId user (trim userText) userTs) assistantId
                    assistantTs "⏳ Assistant is thinking..." text (chats app) i c Hi E)
          as (c' & Hc' & Hid & Hlen & Hlast).
        exists c', text. repeat split; assumption.
    + apply bool_decide_eq_false in E. destruct Hchats as [->|[text ->]].
      * apply addMessageToChat_other; [|exact E].
        apply addMessageToChat_other; [exact Hi | exact E].
      * apply updateMessageInChat_other; [|exact E].
        apply addMessageToChat_other; [|exact E].
        apply addMessageToChat_other; [exact Hi | exact E].
Qed.

(** X20. The entry of the placeholder in the table of streamed texts is removed
    only when a stream has been read to its end. After every other send of a
    text that is not blank, an error response, a failure of the network or of
    the reader, or a reply that is not streamed, the entry stays in the
    table. *)
Theorem streamed_text_entry_stays (fetched : result Response) (userText : string)
    (app : App) :
  trim userText <> EmptyString ->
  let out := send fetched userText app in
  streamedTextTemp (fst out) !! assistantId = None
  <-> exists res b,
        fetched = Ok res /\ ok res = true /\ body res = Some b
        /\ streamEnabled = true /\ failure b = None.
Proof.
  intros Htext out. subst out. destruct fetched as [res|e].
  - destruct (ok res) eqn:Hok.
    + destruct (bool_decide (is_Some (body res)) && streamEnabled) eqn:Hmode.
      * apply andb_prop in Hmode as [Hbody Hstream].
        apply bool_decide_eq_true in Hbody as [b Hbody].
        destruct (send_streamed res b userText app Htext Hok Hbody Hstream)
          as (acc & a & Hnil & Hcons & ->).
        assert (Ha : is_Some (streamedTextTemp a !! assistantId)).
        { destruct (chunks b) as [|chunk rest].
          - rewrite (Hnil eq_refl). cbn [started setStreamedTextTemp streamedTextTemp].
            rewrite lookup_insert_eq. eauto.
          - rewrite (Hcons ltac:(discriminate)).
            cbn [afterChunk setStreamedTextTemp streamedTextTemp].
            rewrite lookup_insert_eq. eauto. }
        destruct (failure b) as [e|] eqn:Hf; cbn [fst].
        -- cbn [failedWith setSending setChats streamedTextTemp]. split.
           ++ intros Hnone. rewrite Hnone in Ha. destruct Ha; discriminate.
           ++ intros (res' & b' & [= <-] & _ & Hb' & _ & Hf').
              rewrite Hbody in Hb'. injection Hb' as <-. congruence.
        -- cbn [setSending setStreamedTextTemp streamedTextTemp].
           rewrite lookup_delete_eq. split; [|reflexivity].
           intros _. exists res, b. repeat split; assumption.
      * rewrite (send_not_streamed res userText app Htext Hok Hmode). split.
        -- destruct (json res); cbn [fst failedWith started setSending setChats
                                      setStreamedTextTemp streamedTextTemp];
             rewrite lookup_insert_eq; discriminate.
        -- intros (res' & b & [= <-] & _ & Hb & Hs & _).
           rewrite Hb, Hs in Hmode. rewrite bool_decide_eq_true_2 in Hmode by eauto.
           discriminate.
    + rewrite (send_not_ok res userText app Htext Hok). split.
      * cbn [fst started setSending setChats setStreamedTextTemp streamedTextTemp].
        rewrite lookup_insert_eq. discriminate.
      * intros (res' & b & [= <-] & Hok' & _). congruence.
  - rewrite (send_fetch_failed e userText app Htext). split.
    + cbn [fst failedWith started setSending setChats setStreamedTextTemp
           streamedTextTemp].
      rewrite lookup_insert_eq. discriminate.
    + intros (res & b & Hf & _). discriminate.
Qed.

(** X21. An exception inside the [try] block is reported as a network error,
    whichever step threw: the fetch, the reader of the stream, or the parsing
    of a body that is not streamed. The assistant message then holds the
    warning sign, ["Network error: "] and the message of the exception, and a
    text streamed before a failure of the reader is replaced by it. *)
Theorem send_reports_network_error (fetched : result Response) (e userText : string)
    (app : App) :
  trim userText <> EmptyString ->
  (fetched = Throw e
   \/ exists res,
        fetched = Ok res /\ ok res = true
        /\ ((exists b, body res = Some b /\ streamEnabled = true /\ failure b = Some e)
            \/ (bool_decide (is_Some (body res)) && streamEnabled = false
                /\ json res = Throw e))) ->
  let out := send fetched userText app in
  chats (fst out)
  = update ("⚠️ Network error: " +:+ e) (chats (started userText app))
  /\ forall i c,
       chats app !! i = Some c -> Chat.id c = chatId ->
       exists c',
         chats (fst out) !! i = Some c'
         /\ last (Chat.messages c')
            = Some (newMessage assistantId assistant ("⚠️ Network error: " +:+ e)
                      assistantTs).
Proof.
  intros Htext Hcase out.
  assert (Hchats : chats (fst out)
                   = update ("⚠️ Network error: " +:+ e) (chats (started userText app))).
  { subst out. destruct Hcase as [->|(res & -> & Hok & [(b & Hbody & Hstream & Hf)|[Hmode Hj]])].
    - rewrite (send_fetch_failed e userText app Htext). reflexivity.
    - destruct (send_streamed res b userText app Htext Hok Hbody Hstream)
        as (acc & a & Hnil & Hcons & ->).
      rewrite Hf. cbn [fst failedWith setSending setChats chats].
      destruct (chunks b) as [|chunk rest].
      + rewrite (Hnil eq_refl). reflexivity.
      + rewrite (Hcons ltac:(discriminate)).
        cbn [afterChunk setStreamedTextTemp setChats chats]. apply update_last_wins.
    - rewrite (send_not_streamed res userText app Htext Hok Hmode), Hj. reflexivity. }
  split; [exact Hchats|]. intros i c Hi Hid. rewrite Hchats.
  cbn [started setStreamedTextTemp setSending setComposerText setChats chats].
  destruct (appended_then_patched chatId
              (newMessage userId user (trim userText) userTs) assistantId
              assistantTs "⏳ Assistant is thinking..." ("⚠️ Network error: " +:+ e)
              (chats app) i c Hi Hid)
    as (c' & Hc' & _ & _ & Hlast).
  exists c'. split; assumption.
Qed.

(** A text without a line break. *)
Fixpoint noBreak (s : string) : bool :=
  match s with
  | EmptyString => true
  | String c s' => negb (Ascii.eqb c "010"%char) && noBreak s'
  end.

Lemma noBreak_app (s t : string) : noBreak (s +:+ t) = noBreak s && noBreak t.
Proof.
  induction s as [|c s IH]; [reflexivity|]. simpl. rewrite IH. apply andb_assoc.
Qed.

Lemma split_lines_noBreak (s : string) : noBreak s = true -> split_lines s = [s].
Proof.
  induction s as [|c s IH]; [reflexivity|]. simpl. intros H.
  apply andb_prop in H as [Hc Hs]. apply negb_true_iff in Hc. rewrite Hc.
  rewrite (IH Hs). reflexivity.
Qed.

Lemma split_lines_line (line : string) :
  noBreak line = true ->
  split_lines (line +:+ String "010"%char EmptyString) = [line; EmptyString].
Proof.
  induction line as [|c s IH]; [reflexivity|]. simpl. intros H.
  apply andb_prop in H as [Hc Hs]. apply negb_true_iff in Hc. rewrite Hc.
  rewrite (IH Hs). reflexivity.
Qed.

Lemma append_assoc (a b c : string) : (a +:+ b) +:+ c = a +:+ (b +:+ c).
Proof.
  induction a as [|x a IH]; [reflexivity|].
  change (String x ((a +:+ b) +:+ c) = String x (a +:+ (b +:+ c))).
  rewrite IH. reflexivity.
Qed.

(** Without a line break nothing is parsed: the loop calls the chunk callback
    once per chunk. *)
Lemma readLoop_noBreak pending failure buffer (s : string * App) :
  noBreak buffer = true -> Forall (fun chunk => noBreak chunk = true) pending ->
  readLoop JSON_parse (onChunkOf chatId assistantId) pending failure buffer s
  = (match pending with
     | [] => s
     | _ => (fst s +:+ String.concat EmptyString pending,
             afterChunk (fst s +:+ String.concat EmptyString pending) (snd s))
     end,
     match failure with Some e => Throw e | None => Ok tt end).
Proof.
  intros Hbuf Hall. revert buffer s Hbuf.
  induction Hall as [|chunk rest Hchunk Hrest IH]; intros buffer s Hbuf.
  - destruct failure; reflexivity.
  - cbn [readLoop]. unfold mbind, Eff_bind, eff_bind. rewrite onChunkOf_run.
    assert (Hb : noBreak (buffer +:+ chunk) = true)
      by (rewrite noBreak_app, Hbuf, Hchunk; reflexivity).
    rewrite (split_lines_noBreak _ Hb).
    cbn [removelast for_of last default mret Eff_ret eff_ret id].
    rewrite (IH _ _ Hb). cbn [fst snd].
    destruct rest as [|chunk' rest'].
    + cbn [String.concat]. reflexivity.
    + f_equal. change (String.concat EmptyString (chunk :: chunk' :: rest'))
        with (chunk +:+ EmptyString +:+ String.concat EmptyString (chunk' :: rest')).
      cbn [String.append]. rewrite afterChunk_last_wins, append_assoc. reflexivity.
Qed.

(** X22. A stream whose chunks hold no line break and that ends without a failure
    leaves the concatenation of its chunks as the content of the assistant
    message; a stream that ends before any chunk leaves the placeholder text
    in place. *)
Theorem stream_without_line_breaks (res : Response) (b : Body) (userText : string)
    (app : App) :
  trim userText <> EmptyString ->
  ok res = true -> body res = Some b -> streamEnabled = true ->
  failure b = None ->
  Forall (fun chunk => noBreak chunk = true) (chunks b) ->
  let out := send (Ok res) userText app in
  chats (fst out)
  = match chunks b with
    | [] => chats (started userText app)
    | _ => update (String.concat EmptyString (chunks b)) (chats (started userText app))
    end.
Proof.
  intros Htext Hok Hbody Hstream Hf Hall out. subst out.
  unfold sendChatMessage. rewrite bool_decide_eq_false_2 by exact Htext.
  unfold mbind, Eff_bind, eff_bind, try_finally, try_catch, await, with_local.
  cbn [modify]. rewrite Hok. cbn [negb].
  rewrite Hbody, Hstream. rewrite bool_decide_eq_true_2 by eauto. cbn [andb].
  unfold streamTextFromResponse. rewrite Hbody.
  unfold mbind, Eff_bind, eff_bind.
  change (Message.id (newMessage assistantId assistant
                        "⏳ Assistant is thinking..." assistantTs))
    with assistantId.
  rewrite (readLoop_noBreak (chunks b) (failure b) EmptyString _ eq_refl Hall), Hf.
  destruct (chunks b); reflexivity.
Qed.

(** X23. A chunk that is one line of JSON with a string [reply] is shown twice
    over: the content of the assistant message is the raw line with its line
    break, followed by the text of the reply. *)
Theorem stream_json_line (res : Response) (b : Body) (line text userText : string)
    (parsed : JSON) (app : App) :
  trim userText <> EmptyString ->
  ok res = true -> body res = Some b -> streamEnabled = true ->
  failure b = None ->
  chunks b = [line +:+ String "010"%char EmptyString] ->
  noBreak line = true -> trim line <> EmptyString ->
  JSON_parse line = Ok parsed ->
  field "reply" (Some parsed) = Some (JStr text) ->
  let out := send (Ok res) userText app in
  chats (fst out)
  = update (line +:+ String "010"%char EmptyString +:+ text)
      (chats (started userText app)).
Proof.
  intros Htext Hok Hbody Hstream Hf Hchunks Hline Hblank Hparse Hreply out. subst out.
  unfold sendChatMessage. rewrite bool_decide_eq_false_2 by exact Htext.
  unfold mbind, Eff_bind, eff_bind, try_finally, try_catch, await, with_local.
  cbn [modify]. rewrite Hok. cbn [negb].
  rewrite Hbody, Hstream. rewrite bool_decide_eq_true_2 by eauto. cbn [andb].
  unfold streamTextFromResponse. rewrite Hbody, Hchunks, Hf.
  cbn [readLoop]. unfold mbind, Eff_bind, eff_bind.
  change (Message.id (newMessage assistantId assistant
                        "⏳ Assistant is thinking..." assistantTs))
    with assistantId.
  rewrite onChunkOf_run. cbn [fst snd].
  change (EmptyString +:+ (line +:+ String "010"%char EmptyString))
    with (line +:+ String "010"%char EmptyString).
  rewrite (split_lines_line line Hline). cbn [removelast for_of].
  unfold mbind, Eff_bind, eff_bind, forwardLine.
  rewrite bool_decide_eq_false_2 by exact Hblank.
  unfold try_catch, mbind, Eff_bind, eff_bind, await. rewrite Hparse, Hreply.
  cbn [coalesce]. rewrite onChunkOf_run. cbn [fst snd].
  cbn [mret Eff_ret eff_ret last default readLoop onCompleteOf modify id fst
       setSending setStreamedTextTemp setChats afterChunk chats].
  rewrite update_last_wins, append_assoc. reflexivity.
Qed.

End SendAlways.

(** ** The message operations composed *)

Section MessageCompose.
Import ChatCenter.

Definition messageIds (c : Chat.t) : list string := Message.id <$> Chat.messages c.

Lemma withMessages_same (c : Chat.t) : withMessages c (Chat.messages c) = c.
Proof. destruct c. reflexivity. Qed.

Lemma filter_other_messages_fresh messageId (ms : list Message.t) :
  messageId ∉ Message.id <$> ms ->
  filter (fun m => Message.id m <> messageId) ms = ms.
Proof.
  induction ms as [|m ms IH]; [reflexivity|].
  rewrite fmap_cons, not_elem_of_cons. intros [Hne Hrest].
  rewrite filter_cons, decide_True by congruence. f_equal. apply IH, Hrest.
Qed.

(** X24. Deleting a message that has just been added gives back the chats, when
    no message of the target chat had its id; deleting the same message
    again changes nothing; after the deletion no message of the target chat
    has the id; and a patch that carries no id keeps the ids of all
    messages, in their order. *)
Theorem message_operations_compose (chatId messageId : string) (m : Message.t)
    (patch : Patch.t) (prev : list Chat.t) :
  (forall c, c ∈ prev -> Chat.id c = chatId -> Message.id m ∉ messageIds c) ->
  deleteMessageFromChat chatId (Message.id m) (addMessageToChat chatId m prev) = prev
  /\ deleteMessageFromChat chatId messageId (deleteMessageFromChat chatId messageId prev)
     = deleteMessageFromChat chatId messageId prev
  /\ (forall c, c ∈ deleteMessageFromChat chatId messageId prev ->
        Chat.id c = chatId -> messageId ∉ messageIds c)
  /\ (Patch.id patch = None ->
      messageIds <$> updateMessageInChat chatId messageId patch prev
      = messageIds <$> prev).
Proof.
  intros Hfresh. split; [|split; [|split]].
  - unfold deleteMessageFromChat, addMessageToChat. rewrite <- list_fmap_compose.
    rewrite <- (list_fmap_id prev) at 2. apply list_fmap_ext. intros i c Hi.
    cbn [compose id]. destruct (bool_decide (Chat.id c = chatId)) eqn:E.
    + cbn [withMessages Chat.id]. rewrite E.
      unfold withMessages. cbn [Chat.id Chat.title Chat.createdAt Chat.messages].
      rewrite filter_app, filter_cons, decide_False, filter_nil, app_nil_r
        by (intros H; apply H; reflexivity).
      rewrite filter_other_messages_fresh; [destruct c; reflexivity|].
      apply bool_decide_eq_true in E.
      apply (Hfresh c); [eapply list_elem_of_lookup_2; exact Hi | exact E].
    + rewrite E. reflexivity.
  - unfold deleteMessageFromChat. rewrite <- list_fmap_compose.
    apply list_fmap_ext. intros i c _. cbn [compose].
    destruct (bool_decide (Chat.id c = chatId)) eqn:E.
    + cbn [withMessages Chat.id]. rewrite E.
      unfold withMessages. cbn [Chat.id Chat.title Chat.createdAt Chat.messages].
      f_equal. rewrite list_filter_filter. apply list_filter_iff. intros x. tauto.
    + rewrite E. reflexivity.
  - intros c Hc Hid Hin. unfold deleteMessageFromChat in Hc.
    apply list_elem_of_fmap in Hc as (c0 & -> & _).
    destruct (bool_decide (Chat.id c0 = chatId)) eqn:E.
    + unfold messageIds in Hin. cbn [withMessages Chat.messages] in Hin.
      apply list_elem_of_fmap in Hin as (x & Hx & Hxin).
      apply list_elem_of_filter in Hxin as [Hne _]. congruence.
    + apply bool_decide_eq_false in E. contradiction.
  - intros Hpatch. unfold updateMessageInChat. rewrite <- list_fmap_compose.
    apply list_fmap_ext. intros i c _. cbn [compose].
    destruct (bool_decide (Chat.id c = chatId)); [|reflexivity].
    unfold messageIds. cbn [withMessages Chat.messages].
    rewrite <- list_fmap_compose. apply list_fmap_ext. intros j x _. cbn [compose].
    destruct (bool_decide (Message.id x = messageId)); [|reflexivity].
    unfold applyPatch. cbn [Message.id]. rewrite Hpatch. reflexivity.
Qed.

End MessageCompose.

(** ** The expenses route *)

Section ExpensesRouteFacts.
Import ExpensesRoute.

Definition storedIds (s : Server) : list nat := Stored.id <$> expenses s.

(** Every element is less than the ones after it. *)
Fixpoint increasing (l : list nat) : Prop :=
  match l with
  | [] => True
  | x :: rest => Forall (fun y => x < y)%nat rest /\ increasing rest
  end.

(** The ids of the stored expenses increase along the list and lie between 1
    and the counter. *)
Definition idsInOrder (s : Server) : Prop :=
  increasing (storedIds s)
  /\ Forall (fun id => 1 <= id < idCounter s)%nat (storedIds s)
  /\ (1 <= idCounter s)%nat.

Lemma increasing_snoc (l : list nat) (n : nat) :
  increasing l -> Forall (fun y => y < n)%nat l -> increasing (l ++ [n]).
Proof.
  induction l as [|x l IH]; simpl.
  - intros _ _. split; [constructor | exact I].
  - intros [Hx Hl] Hn. apply Forall_cons in Hn as [Hxn Hln]. split.
    + apply Forall_app. split; [exact Hx|]. constructor; [exact Hxn | constructor].
    + apply IH; assumption.
Qed.

Lemma increasing_NoDup (l : list nat) : increasing l -> NoDup l.
Proof.
  induction l as [|x l IH]; simpl; [constructor|].
  intros [Hx Hl]. constructor; [|apply IH, Hl].
  intros Hin. rewrite Forall_forall in Hx. specialize (Hx x Hin). lia.
Qed.

Lemma filter_storedIds (f : Stored.t -> bool) (l : list Stored.t) (P : nat -> Prop) :
  Forall P (Stored.id <$> l) -> Forall P (Stored.id <$> List.filter f l).
Proof.
  induction l as [|e l IH]; cbn [List.filter]; [intros _; constructor|].
  rewrite fmap_cons. intros H. apply Forall_cons in H as [He Hl].
  destruct (f e); [rewrite fmap_cons; constructor; [exact He | apply IH, Hl]
                  | apply IH, Hl].
Qed.

Lemma increasing_filter (f : Stored.t -> bool) (l : list Stored.t) :
  increasing (Stored.id <$> l) -> increasing (Stored.id <$> List.filter f l).
Proof.
  induction l as [|e l IH]; cbn [List.filter]; [exact id|].
  rewrite fmap_cons. intros [He Hl]. destruct (f e).
  - rewrite fmap_cons. split; [apply filter_storedIds, He | apply IH, Hl].
  - apply IH, Hl.
Qed.

Lemma POST_run (req : result JSON) (now : string) (s : Server) :
  (exists body,
     req = Ok body /\ body <> JNull
     /\ let newExpense :=
          {| Stored.id := idCounter s;
             Stored.title := field "title" (Some body);
             Stored.amount := field "amount" (Some body);
             Stored.date := default (JStr now)
                              (orJ (field "date" (Some body)) (Some (JStr now))) |} in
        POST req now s
        = ({| expenses := expenses s ++ [newExpense]; idCounter := S (idCounter s) |},
           Ok {| status := 201; sent := toJSON newExpense |}))
  \/ ((req = Ok JNull \/ exists e, req = Throw e)
      /\ POST req now s
         = (s, Ok {| status := 400;
                     sent := JObj [("error", JStr "Invalid expense format")] |})).
Proof.
  destruct req as [body|e].
  - destruct body; try (left; eexists; split; [reflexivity|];
                        split; [discriminate | reflexivity]).
    right. split; [left; reflexivity | reflexivity].
  - right. split; [right; eexists; reflexivity | reflexivity].
Qed.

Lemma DELETE_run (req : result JSON) (s : Server) :
  (exists body,
     req = Ok body /\ body <> JNull
     /\ DELETE req s
        = ({| expenses := List.filter (fun expense =>
                                         differs expense (field "id" (Some body)))
                            (expenses s);
              idCounter := idCounter s |},
           Ok {| status := 200; sent := JObj [("success", JBool true)] |}))
  \/ ((req = Ok JNull \/ exists e, req = Throw e)
      /\ DELETE req s
         = (s, Ok {| status := 400;
                     sent := JObj [("error", JStr "Invalid delete request")] |})).
Proof.
  destruct req as [body|e].
  - destruct body; try (left; eexists; split; [reflexivity|];
                        split; [discriminate | reflexivity]).
    right. split; [left; reflexivity | reflexivity].
  - right. split; [right; eexists; reflexivity | reflexivity].
Qed.

Lemma DELETE_object (fields : list (string * JSON)) (s : Server) :
  DELETE (Ok (JObj fields)) s
  = ({| expenses := List.filter (fun expense =>
                                   differs expense (field "id" (Some (JObj fields))))
                      (expenses s);
        idCounter := idCounter s |},
     Ok {| status := 200; sent := JObj [("success", JBool true)] |}).
Proof. reflexivity. Qed.

Lemma idsInOrder_handle (r : Request) (s : Server) :
  idsInOrder s ->
  idsInOrder (fst (handle r s)) /\ (idCounter s <= idCounter (fst (handle r s)))%nat.
Proof.
  intros (Hsorted & Hrange & Hone). destruct r as [|req now|req]; cbn [handle].
  - split; [repeat split; assumption | reflexivity].
  - destruct (POST_run req now s) as [(body & _ & _ & ->)|[_ ->]];
      [|split; [repeat split; assumption | reflexivity]].
    unfold idsInOrder, storedIds in *. cbn [fst expenses idCounter].
    rewrite fmap_app. cbn [fmap list_fmap Stored.id]. split; [split; [|split]|]; [| |lia|lia].
    + apply increasing_snoc; [exact Hsorted|].
      eapply Forall_impl; [exact Hrange|]. intros y Hy. cbn beta in Hy. lia.
    + apply Forall_app. split.
      * eapply Forall_impl; [exact Hrange|]. intros y Hy. cbn beta in *. lia.
      * constructor; [lia | constructor].
  - destruct (DELETE_run req s) as [(body & _ & _ & ->)|[_ ->]];
      [|split; [repeat split; assumption | reflexivity]].
    unfold idsInOrder, storedIds in *. cbn [fst expenses idCounter].
    split; [split; [|split]|reflexivity].
    + apply increasing_filter, Hsorted.
    + apply filter_storedIds, Hrange.
    + exact Hone.
Qed.

Lemma handle_ids (r : Request) (s : Server) (id : nat) :
  id ∈ storedIds (fst (handle r s)) -> id ∈ storedIds s \/ id = idCounter s.
Proof.
  unfold storedIds. destruct r as [|req now|req]; cbn [handle].
  - intros H. left. exact H.
  - destruct (POST_run req now s) as [(body & _ & _ & ->)|[_ ->]]; [|intros H; left; exact H].
    cbn [fst expenses]. rewrite fmap_app, elem_of_app. intros [H|H]; [left; exact H|].
    right. apply list_elem_of_singleton in H. exact H.
  - destruct (DELETE_run req s) as [(body & _ & _ & ->)|[_ ->]]; [|intros H; left; exact H].
    cbn [fst expenses]. intros H. left.
    apply list_elem_of_fmap in H as (e & -> & He).
    apply list_elem_of_fmap. exists e. split; [reflexivity|].
    apply list_elem_of_In, filter_In in He as [He _]. apply list_elem_of_In, He.
Qed.

Lemma serve_idsInOrder (requests : list Request) (s : Server) :
  idsInOrder s ->
  idsInOrder (serve requests s)
  /\ (idCounter s <= idCounter (serve requests s))%nat
  /\ forall id, id ∈ storedIds (serve requests s) ->
       id ∈ storedIds s \/ (idCounter s <= id)%nat.
Proof.
  revert s. induction requests as [|r rest IH]; intros s Hs.
  - split; [exact Hs|]. split; [reflexivity|]. intros id H. left. exact H.
  - destruct (idsInOrder_handle r s Hs) as [H1 Hle].
    destruct (IH _ H1) as (H2 & Hle' & Hids).
    change (serve (r :: rest) s) with (serve rest (fst (handle r s))).
    split; [exact H2|]. split; [lia|]. intros id Hid.
    destruct (Hids id Hid) as [Hin|Hge]; [|right; lia].
    destruct (handle_ids r s id Hin) as [Hold | ->]; [left; exact Hold | right; lia].
Qed.

Lemma idsInOrder_initial : idsInOrder initial.
Proof. split; [exact I|]. split; [constructor | reflexivity]. Qed.

(** X25. Whatever requests the route has served, the ids of the stored expenses
    are distinct, increase along the list and lie between 1 and the counter;
    and an id is never handed out again: after any further requests the
    counter has not gone down and every stored id was stored before or is at
    least the former counter, also when expenses were deleted in between. *)
Theorem expense_ids_never_reused (requests more : list Request) :
  let s := serve requests initial in
  let s' := serve more s in
  NoDup (storedIds s)
  /\ increasing (storedIds s)
  /\ Forall (fun id => 1 <= id < idCounter s)%nat (storedIds s)
  /\ (idCounter s <= idCounter s')%nat
  /\ forall id, id ∈ storedIds s' -> id ∈ storedIds s \/ (idCounter s <= id)%nat.
Proof.
  cbn zeta.
  destruct (serve_idsInOrder requests initial idsInOrder_initial)
    as ((Hinc & Hrange & Hone) & _ & _).
  destruct (serve_idsInOrder more (serve requests initial)
              (conj Hinc (conj Hrange Hone))) as (_ & Hle & Hids).
  split; [apply increasing_NoDup, Hinc|]. split; [exact Hinc|].
  split; [exact Hrange|]. split; [exact Hle | exact Hids].
Qed.

Lemma of_nat_inj (n m : nat) : of_nat n = of_nat m -> n = m.
Proof.
  unfold of_nat, num. intros H. injection H as H.
  assert (Hq : (inject_Z (Z.of_nat n) == inject_Z (Z.of_nat m))%Q).
  { rewrite <- (Qred_correct (inject_Z (Z.of_nat n))),
            <- (Qred_correct (inject_Z (Z.of_nat m))), H. reflexivity. }
  unfold Qeq in Hq. simpl in Hq. lia.
Qed.

Lemma filter_differs_older (id : nat) (l : list Stored.t) :
  Forall (fun x => x < id)%nat (Stored.id <$> l) ->
  List.filter (fun expense => differs expense (Some (JNum (of_nat id)))) l = l.
Proof.
  induction l as [|e l IH]; [reflexivity|].
  rewrite fmap_cons. intros H. apply Forall_cons in H as [He Hl].
  cbn [List.filter differs]. rewrite bool_decide_eq_false_2.
  - cbn [negb]. f_equal. apply IH, Hl.
  - intros Heq. apply of_nat_inj in Heq. lia.
Qed.

(** X26. A POST whose body is not [null] answers 201 with the stored expense,
    whose id is the counter; a DELETE with that id then gives back the list
    of expenses as it was, while the counter stays advanced. A DELETE whose
    id is a string removes nothing. *)
Theorem POST_then_DELETE (requests : list Request) (body : JSON) (now text : string) :
  body <> JNull ->
  let s := serve requests initial in
  let posted := POST (Ok body) now s in
  let id := JNum (of_nat (idCounter s)) in
  (exists answer,
     snd posted = Ok answer /\ status answer = 201
     /\ field "id" (Some (sent answer)) = Some id)
  /\ length (expenses (fst posted)) = S (length (expenses s))
  /\ expenses (fst (DELETE (Ok (JObj [("id", id)])) (fst posted))) = expenses s
  /\ idCounter (fst (DELETE (Ok (JObj [("id", id)])) (fst posted))) = S (idCounter s)
  /\ DELETE (Ok (JObj [("id", JStr text)])) (fst posted)
     = (fst posted, Ok {| status := 200; sent := JObj [("success", JBool true)] |}).
Proof.
  intros Hbody. cbn zeta.
  destruct (serve_idsInOrder requests initial idsInOrder_initial)
    as ((_ & Hrange & _) & _ & _).
  set (s := serve requests initial) in *.
  destruct (POST_run (Ok body) now s) as [(body' & Hb & _ & Hrun)|[Hbad _]];
    [|exfalso; destruct Hbad as [Hb|[e Hb]];
      [injection Hb as ->; contradiction | discriminate]].
  injection Hb as <-. cbn zeta in Hrun. rewrite Hrun. cbn [fst snd].
  split; [eexists; split; [reflexivity|]; split; reflexivity|].
  split; [cbn [expenses]; rewrite length_app; simpl; lia|].
  rewrite !DELETE_object. cbn [fst expenses idCounter].
  change (field "id" (Some (JObj [("id", JNum (of_nat (idCounter s)))])))
    with (Some (JNum (of_nat (idCounter s)))).
  change (field "id" (Some (JObj [("id", JStr text)]))) with (Some (JStr text)).
  split; [|split].
  - rewrite List.filter_app. cbn [List.filter differs Stored.id].
    rewrite bool_decide_eq_true_2 by reflexivity. cbn [negb].
    rewrite app_nil_r. apply filter_differs_older.
    eapply Forall_impl; [exact Hrange|]. intros y Hy. cbn beta in Hy. lia.
  - reflexivity.
  - f_equal. f_equal. cbn [differs].
    generalize (expenses s ++
                [ {| Stored.id := idCounter s;
                     Stored.title := field "title" (Some body);
                     Stored.amount := field "amount" (Some body);
                     Stored.date := default (JStr now)
                                      (orJ (field "date" (Some body))
                                           (Some (JStr now))) |} ]).
    intros l. induction l as [|e l IH]; [reflexivity|].
    cbn [List.filter]. f_equal. exact IH.
Qed.

End ExpensesRouteFacts.

(** ** The chat route, and its answers on the client *)

Section ChatRouteFacts.
Import ChatRoute.

Lemma orJ_truthy (a b : option JSON) :
  truthyJ b = true -> truthyJ (orJ a b) = true.
Proof. unfold orJ. destruct (truthyJ a) eqn:E; [intros _; exact E | exact id]. Qed.

Lemma truthyJ_Some (v : option JSON) : truthyJ v = true -> exists j, v = Some j.
Proof. destruct v as [j|]; [eauto | discriminate]. Qed.

(** The three texts of the answers that are not 200. *)
Definition refusals : list string :=
  ["⚠️ Please enter a valid message.";
   "⚠️ Failed to connect to Ollama.";
   "⚠️ Internal server error in chatbot."].

Ltac refuse i :=
  eexists; split; [reflexivity|]; left; exists i; eexists;
  split; [reflexivity|];
  split; [first [left; reflexivity | right; reflexivity] | reflexivity].

Lemma POST_cases (req : result JSON) (fetched : result Upstream) :
  exists answer,
    POST req fetched tt = (tt, Ok answer)
    /\ ((exists i text,
           refusals !! i = Some text
           /\ (status answer = 400%nat \/ status answer = 500%nat)
           /\ sent answer = JObj [("reply", JStr text)])
        \/ (exists response data value,
              fetched = Ok response /\ ok response = true
              /\ json response = Ok data
              /\ status answer = 200%nat
              /\ sent answer = JObj [("reply", value)]
              /\ truthyJ (Some value) = true)).
Proof.
  unfold POST, try_catch, mbind, Eff_bind, eff_bind, await.
  destruct req as [parsed|e]; [|refuse 2%nat].
  destruct (destructured parsed) as [body|e]; [|refuse 2%nat].
  generalize (field "message" (Some body)), (field "history" (Some body)).
  intros message history.
  destruct (if negb (truthyJ message) then Ok true else isBlank message)
    as [[|]|e]; [refuse 0%nat| |refuse 2%nat].
  destruct (spread history) as [[]|e]; [|refuse 2%nat].
  destruct fetched as [response|e]; [|refuse 2%nat].
  destruct (ok response) eqn:Hok; cbn [negb].
  - destruct (json response) as [data|e] eqn:Hjson; [|refuse 2%nat].
    destruct (truthyJ_Some
                (orJ (field "content" (field "message" (Some data)))
                   (orJ (field "content" (first (field "messages" (Some data))))
                      (Some (JStr "⚠️ No response from Llama3 model.")))))
      as [value Hvalue].
    { apply orJ_truthy, orJ_truthy. reflexivity. }
    eexists. split; [reflexivity|]. right. exists response, data, value.
    split; [reflexivity|]. split; [exact Hok|]. split; [exact Hjson|].
    split; [reflexivity|]. rewrite Hvalue. split; [reflexivity|].
    rewrite <- Hvalue. apply orJ_truthy, orJ_truthy. reflexivity.
  - destruct (text response) as [t|e]; [refuse 1%nat | refuse 2%nat].
Qed.

Lemma POST_blank (body : list (string * JSON)) (fetched : result Upstream) :
  (field "message" (Some (JObj body)) = None
   \/ exists m, field "message" (Some (JObj body)) = Some (JStr m)
                /\ trim m = EmptyString) ->
  POST (Ok (JObj body)) fetched tt
  = (tt, Ok (reply 400 (Some (JStr "⚠️ Please enter a valid message.")))).
Proof.
  intros Hmessage. unfold POST, try_catch, mbind, Eff_bind, eff_bind, await.
  cbn [destructured]. destruct Hmessage as [->|(m & -> & Hm)]; [reflexivity|].
  cbn [truthyJ isBlank]. rewrite (bool_decide_eq_true_2 _ Hm).
  destruct (negb (negb (bool_decide (m = EmptyString)))); reflexivity.
Qed.

(** X27. The route answers every request, whatever the body of the request and
    whatever Ollama does: the answer is an object whose only key is [reply],
    with a value that is truthy; its status is 200, 400 or 500; it is 200 only
    when Ollama has answered [ok] with a body that parses, and otherwise the
    reply is one of three fixed texts. A message that is missing, empty or
    blank gets 400 whatever Ollama would answer. *)
Theorem chat_route_always_replies (req : result JSON) (fetched : result Upstream) :
  exists answer value,
    POST req fetched tt = (tt, Ok answer)
    /\ sent answer = JObj [("reply", value)]
    /\ truthyJ (Some value) = true
    /\ (status answer = 200%nat
        /\ (exists response data,
              fetched = Ok response /\ ok response = true /\ json response = Ok data)
        \/ (status answer = 400%nat \/ status answer = 500%nat)
           /\ exists text, value = JStr text /\ text ∈ refusals)
    /\ forall body,
         req = Ok (JObj body) ->
         (field "message" (Some (JObj body)) = None
          \/ exists m, field "message" (Some (JObj body)) = Some (JStr m)
                       /\ trim m = EmptyString) ->
         status answer = 400%nat.
Proof.
  destruct (POST_cases req fetched) as (answer & Hrun & Hcases).
  assert (Hblank : forall body,
            req = Ok (JObj body) ->
            (field "message" (Some (JObj body)) = None
             \/ exists m, field "message" (Some (JObj body)) = Some (JStr m)
                          /\ trim m = EmptyString) ->
            status answer = 400%nat).
  { intros body -> Hmessage. rewrite (POST_blank body fetched Hmessage) in Hrun.
    injection Hrun as <-. reflexivity. }
  destruct Hcases as [(i & text & Hi & Hstatus & Hsent)
                     |(response & data & value & Hf & Hok & Hjson & Hstatus & Hsent & Ht)].
  - exists answer, (JStr text). split; [exact Hrun|]. split; [exact Hsent|]. split.
    + destruct i as [|[|[|i]]]; simpl in Hi;
        [injection Hi as <-; reflexivity..|discriminate].
    + split; [|exact Hblank]. right. split; [exact Hstatus|].
      exists text. split; [reflexivity|]. eapply list_elem_of_lookup_2. exact Hi.
  - exists answer, value. split; [exact Hrun|]. split; [exact Hsent|].
    split; [exact Ht|]. split; [|exact Hblank]. left. split; [exact Hstatus|].
    exists response, data. repeat split; assumption.
Qed.

(** The two shapes of an answer of the second version of the route. *)
Definition generateAnswer (answer : RouteResponse) : Prop :=
  (status answer = 200%nat
   /\ exists value, sent answer = JObj [("reply", value)] /\ value <> JNull)
  \/ (status answer = 500%nat
      /\ exists text, sent answer = JObj [("error", JStr text)] /\ text <> EmptyString).

Lemma generate_route_cases (req : result JSON) (fetched : result Upstream) :
  exists answer,
    POST_generate req fetched tt = (tt, Ok answer) /\ generateAnswer answer.
Proof.
  assert (Hfail : forall e,
    exists answer,
      (tt, Ok {| status := 500;
                 sent := JObj [("error",
                                JStr (if bool_decide (e = EmptyString)
                                      then "Failed to connect to Llama3" else e))] |})
      = (tt, Ok answer)
      /\ generateAnswer answer).
  { intros e. eexists. split; [reflexivity|]. right. split; [reflexivity|].
    eexists. split; [reflexivity|].
    destruct (bool_decide (e = EmptyString)) eqn:E; [discriminate|].
    apply bool_decide_eq_false in E. exact E. }
  unfold POST_generate, try_catch, mbind, Eff_bind, eff_bind, await.
  destruct req as [parsed|e]; [|apply Hfail].
  destruct (destructured parsed) as [body|e]; [|apply Hfail].
  destruct fetched as [response|e]; [|apply Hfail].
  destruct (json response) as [parsedData|e]; [|apply Hfail].
  assert (Hreply : forall data : JSON,
    data <> JNull ->
    exists answer,
      (tt, Ok (reply 200 (orJ (field "response" (Some data)) (Some data))))
      = (tt, Ok answer)
      /\ generateAnswer answer).
  { intros data Hdata. eexists. split; [reflexivity|]. left. split; [reflexivity|].
    unfold orJ. destruct (truthyJ (field "response" (Some data))) eqn:E.
    - destruct (truthyJ_Some _ E) as [value Hvalue]. rewrite Hvalue in *.
      exists value. split; [reflexivity|]. intros ->. discriminate.
    - exists data. split; [reflexivity | exact Hdata]. }
  destruct parsedData; first [apply Hfail | apply Hreply; discriminate].
Qed.

(** The second version of the route answers every request as well: 200 with
    an object whose only key is [reply], or 500 with an object whose only key
    is [error] and whose value is a text that is not empty; and it is 500
    whenever the body of the request or the answer of Ollama is [null] or
    does not parse. *)
Lemma generate_route_always_answers (req : result JSON) (fetched : result Upstream) :
  (exists answer,
     POST_generate req fetched tt = (tt, Ok answer) /\ generateAnswer answer)
  /\ forall answer,
       POST_generate req fetched tt = (tt, Ok answer) ->
       status answer = 200%nat ->
       exists parsed response data,
         req = Ok parsed /\ parsed <> JNull
         /\ fetched = Ok response /\ json response = Ok data /\ data <> JNull.
Proof.
  split; [apply generate_route_cases|].
  unfold POST_generate, try_catch, mbind, Eff_bind, eff_bind, await.
  intros answer Hrun H200.
  destruct req as [parsed|e]; [|injection Hrun as <-; discriminate].
  destruct parsed; cbn [destructured] in Hrun;
    try (injection Hrun as <-; discriminate).
  all: destruct fetched as [response|e]; [|injection Hrun as <-; discriminate].
  all: destruct (json response) as [data|e] eqn:Hjson;
    [|injection Hrun as <-; discriminate].
  all: destruct data; try (injection Hrun as <-; discriminate).
  all: eexists _, response, _; split; [reflexivity|]; split; [discriminate|];
    split; [reflexivity|]; split; [exact Hjson|]; discriminate.
Qed.

End ChatRouteFacts.

Section RouteOnClient.

Variable JSON_parse : string -> result JSON.
Variable JSON_stringify : JSON -> string.
Variable String_of : option JSON -> string.
Variable streamEnabled : bool.
Variables chatId assistantId userId userTs assistantTs : string.

#[local] Abbreviation sendTo res :=
  (ChatCenter.sendChatMessage JSON_parse JSON_stringify String_of streamEnabled
     (Ok res) userId userTs assistantId assistantTs chatId).

#[local] Abbreviation shows text userText app :=
  (ChatCenter.updateMessageInChat chatId assistantId (ChatCenter.contentPatch text)
     (ChatCenter.chats (started chatId assistantId userId userTs assistantTs userText app))).

(** X28. What the chat page shows for an answer of the chat route. A
    refusal of the first version carries its text under [reply], which the
    page does not read from an error: the assistant message is the warning
    sign followed by the whole object as JSON text. An error of the second
    version carries its text under [error], and the assistant message is the
    warning sign followed by that text. A 200 of either version, read without
    streaming, leaves the reply as a text in the assistant message. *)
Theorem route_answers_on_client (req : result JSON) (fetched : result ChatRoute.Upstream)
    (res : ChatCenter.Response) (userText : string) (app : ChatCenter.App) :
  trim userText <> EmptyString ->
  (ChatCenter.ok res = false ->
   (forall answer,
      ChatRoute.POST req fetched tt = (tt, Ok answer) ->
      status answer <> 200%nat ->
      ChatCenter.json res = Ok (sent answer) ->
      (exists text, sent answer = JObj [("reply", JStr text)] /\ text ∈ refusals)
      /\ ChatCenter.chats (fst (sendTo res userText app))
         = shows ("⚠️ " +:+ JSON_stringify (sent answer)) userText app)
   /\ (forall answer,
         ChatRoute.POST_generate req fetched tt = (tt, Ok answer) ->
         status answer <> 200%nat ->
         ChatCenter.json res = Ok (sent answer) ->
         exists text,
           sent answer = JObj [("error", JStr text)]
           /\ ChatCenter.chats (fst (sendTo res userText app))
              = shows ("⚠️ " +:+ text) userText app))
  /\ (ChatCenter.ok res = true ->
      bool_decide (is_Some (ChatCenter.body res)) && streamEnabled = false ->
      forall answer,
        ChatRoute.POST req fetched tt = (tt, Ok answer)
        \/ ChatRoute.POST_generate req fetched tt = (tt, Ok answer) ->
        status answer = 200%nat ->
        ChatCenter.json res = Ok (sent answer) ->
        exists value,
          sent answer = JObj [("reply", value)]
          /\ ChatCenter.chats (fst (sendTo res userText app))
             = shows (ChatCenter.toString String_of (Some value)) userText app).
Proof.
  intros Htext. split.
  - intros Hok.
    pose proof (send_not_ok JSON_parse JSON_stringify String_of chatId assistantId
                  streamEnabled userId userTs assistantTs res userText app Htext Hok)
      as Hsend.
    split.
    + intros answer Hrun Hstatus Hjson.
      destruct (POST_cases req fetched) as (answer' & Hrun' & Hcases).
      rewrite Hrun in Hrun'. injection Hrun' as <-.
      destruct Hcases as [(i & text & Hi & _ & Hsent)|(_ & _ & _ & _ & _ & _ & H200 & _)];
        [|contradiction].
      split.
      * exists text. split; [exact Hsent|]. eapply list_elem_of_lookup_2. exact Hi.
      * rewrite Hsend. cbn [fst]. unfold errorText. rewrite Hjson, Hsent. reflexivity.
    + intros answer Hrun Hstatus Hjson.
      destruct (generate_route_cases req fetched) as (answer' & Hrun' & Hcases).
      rewrite Hrun in Hrun'. injection Hrun' as <-.
      destruct Hcases as [[H200 _]|(_ & text & Hsent & _)]; [contradiction|].
      exists text. split; [exact Hsent|].
      rewrite Hsend. cbn [fst]. unfold errorText. rewrite Hjson, Hsent. reflexivity.
  - intros Hok Hmode answer Hrun H200 Hjson.
    pose proof (send_not_streamed JSON_parse JSON_stringify String_of chatId assistantId
                  streamEnabled userId userTs assistantTs res userText app Htext Hok
                  Hmode) as Hsend.
    assert (Hreply : exists value,
              sent answer = JObj [("reply", value)] /\ value <> JNull).
    { destruct Hrun as [Hrun|Hrun].
      - destruct (POST_cases req fetched) as (answer' & Hrun' & Hcases).
        rewrite Hrun in Hrun'. injection Hrun' as <-.
        destruct Hcases as [(_ & _ & _ & [H|H] & _)
                           |(_ & _ & value & _ & _ & _ & _ & Hsent & Htruthy)];
          [congruence..|].
        exists value. split; [exact Hsent|]. intros ->. discriminate.
      - destruct (generate_route_cases req fetched) as (answer' & Hrun' & Hcases).
        rewrite Hrun in Hrun'. injection Hrun' as <-.
        destruct Hcases as [[_ Hvalue]|[H _]]; [exact Hvalue | congruence]. }
    destruct Hreply as (value & Hsent & Hvalue). exists value. split; [exact Hsent|].
    rewrite Hsend, Hjson, Hsent. cbn [fst].
    change (field "reply" (Some (JObj [("reply", value)]))) with (Some value).
    destruct value; [contradiction|reflexivity..].
Qed.

End RouteOnClient.

(** ** The properties above on examples *)

Section ActionExamples.
Import Dashboard DashboardActions.

(** Stand-ins for the library functions on the examples: the texts are in
    lower case already, the amount typed is 250, and the list is in order. *)
Definition alreadyLower (s : string) : string := s.
Definition typed250 (s : string) : number := num 250.
Definition printNumber (n : number) : string := "250".
Definition keepOrder (l : list Expense.t) : list Expense.t := l.

Definition quickPage : Page :=
  {| loading := false;
     expenses := seedExpenses; budgets := seedBudgets; financialGoals := seedGoals;
     financialHealth := calculateFinancialHealth seedExpenses seedBudgets seedGoals;
     categories := DEFAULT_CATEGORIES;
     titleQuick := "lunch at the cafe"; amountQuick := "250";
     categoryQuick := "Other"; moodQuick := happy |}.

Lemma add_then_delete_expense_witness :
  let added := fst (addQuickExpense alreadyLower typed250 "n1" "2025-01-13T10:00:00.000Z"
                      (Throw "Failed to fetch") quickPage) in
  let deleted := deleteExpense (IdStr "n1") added in
  Expense.category <$> head (expenses added) = Some "Food"
  /\ expenses deleted = seedExpenses
  /\ FinancialHealthScore.spending (financialHealth added) = num 45
  /\ FinancialHealthScore.spending (financialHealth deleted) = num 44.
Proof.
  intros added deleted.
  destruct (add_then_delete_expense alreadyLower typed250 "n1" "2025-01-13T10:00:00.000Z"
              (Throw "Failed to fetch") quickPage)
    as (_ & H1 & H2 & H3 & H4).
  - discriminate.
  - discriminate.
  - repeat constructor; discriminate.
  - subst deleted added. cbv zeta in H1, H2, H3, H4.
    split; [rewrite H1; vm_compute; reflexivity|].
    split; [exact H3|].
    split; [rewrite H2 | rewrite H4]; apply (bool_decide_unpack _); vm_compute; exact I.
Defined.

Lemma categories_stay_unique_witness :
  NoDup (categories (addCategory " Travel " quickPage))
  /\ "Travel" ∈ categories (addCategory " Travel " quickPage).
Proof.
  destruct (categories_stay_unique " Travel " "Other" quickPage) as (H1 & _ & _ & H4 & _).
  - apply (bool_decide_unpack _). vm_compute. exact I.
  - split; [exact H1|]. apply H4. vm_compute. discriminate.
Defined.

Lemma optimizeBudget_under_category_filter_witness :
  spendOfCategory seedExpenses "Shopping" = num 3500
  /\ optimizedAmount
       (filtered alreadyLower printNumber keepOrder "Food" "2025-01" EmptyString
          seedExpenses) "Shopping"
     = num 0.
Proof.
  split; [apply (bool_decide_unpack _); vm_compute; exact I|].
  destruct (optimizeBudget_under_category_filter alreadyLower printNumber keepOrder
              (fun l => Permutation_refl l) "Food" "2025-01" EmptyString seedExpenses
              "Shopping" seedBudgets) as (_ & H & _).
  - discriminate.
  - discriminate.
  - exact H.
Defined.

End ActionExamples.

Section ChatExamples.
Import ChatCenter ChatStore.

Definition twoChatStore : Store := {| chats := twoChats; activeChatId := Some "c1" |}.

Lemma setActiveChat_promotes_witness :
  chats (setActiveChat "c2" twoChatStore) ≡ₚ twoChats
  /\ Chat.id <$> head (chats (setActiveChat "c2" twoChatStore)) = Some "c2".
Proof.
  destruct (setActiveChat_promotes "c2" twoChatStore) as (H1 & _).
  - apply (bool_decide_unpack _). vm_compute. exact I.
  - split; [exact H1 | reflexivity].
Defined.

Lemma active_chat_stays_listed_witness :
  activeListed (deleteChat true "c1" twoChatStore)
  /\ activeChatId (deleteChat true "c1" twoChatStore) = Some "c2".
Proof.
  destruct (active_chat_stays_listed twoChatStore true "c1" "Renamed"
              "You are a helpful personal finance assistant." "c3" "m5"
              "2025-01-02T00:00:00.000Z" "2025-01-02T00:00:00.000Z" "New Chat" None)
    as (H1 & _ & _ & _ & H5).
  - apply (bool_decide_unpack _). vm_compute. exact I.
  - split; [exact H1|]. rewrite H5 by reflexivity. reflexivity.
Defined.

Lemma message_operations_compose_witness :
  deleteMessageFromChat "c1" "m9"
    (addMessageToChat "c1" (seedMessage "m9" user "And for February?") twoChats)
  = twoChats.
Proof.
  destruct (message_operations_compose "c1" "m2"
              (seedMessage "m9" user "And for February?") (contentPatch "Edited")
              twoChats) as (H1 & _).
  - intros c Hc _. apply list_elem_of_In in Hc. simpl in Hc.
    destruct Hc as [<-|[<-|[]]]; apply (bool_decide_unpack _); vm_compute; exact I.
  - exact H1.
Defined.

End ChatExamples.

Section SendMoreExamples.
Import ChatCenter.

#[local] Abbreviation send := (sendChatMessage noParse printFixed stringFixed true).

Lemma send_always_settles_witness :
  let out := send (Throw "Failed to fetch") "u1" "2025-01-01T00:00:01.000Z"
               "a1" "2025-01-01T00:00:02.000Z" "c1" "How much did I spend?" oneChat in
  snd out = Ok tt /\ sending (fst out) = false
  /\ length (chats (fst out)) = 2%nat.
Proof.
  intros out.
  destruct (send_always_settles noParse printFixed stringFixed "c1" "a1" true "u1"
              "2025-01-01T00:00:01.000Z" "2025-01-01T00:00:02.000Z"
              (Throw "Failed to fetch") "How much did I spend?" oneChat)
    as (H1 & H2 & _ & H4 & _).
  - vm_compute. discriminate.
  - split; [exact H1|]. split; [exact H2 | exact H4].
Defined.

Lemma streamed_text_entry_stays_witness :
  let out := send (Throw "Failed to fetch") "u1" "2025-01-01T00:00:01.000Z"
               "a1" "2025-01-01T00:00:02.000Z" "c1" "How much did I spend?" oneChat in
  streamedTextTemp (fst out) !! "a1" <> None.
Proof.
  intros out Hnone.
  destruct (streamed_text_entry_stays noParse printFixed stringFixed "c1" "a1" true "u1"
              "2025-01-01T00:00:01.000Z" "2025-01-01T00:00:02.000Z"
              (Throw "Failed to fetch") "How much did I spend?" oneChat)
    as [Hcomplete _].
  - vm_compute. discriminate.
  - destruct (Hcomplete Hnone) as (res & b & Hf & _). discriminate.
Defined.

Lemma send_reports_network_error_witness :
  let out := send (Throw "Failed to fetch") "u1" "2025-01-01T00:00:01.000Z"
               "a1" "2025-01-01T00:00:02.000Z" "c1" "How much did I spend?" oneChat in
  exists c',
    chats (fst out) !! 0%nat = Some c'
    /\ last (Chat.messages c')
       = Some (newMessage "a1" assistant "⚠️ Network error: Failed to fetch"
                 "2025-01-01T00:00:02.000Z").
Proof.
  intros out.
  destruct (send_reports_network_error noParse printFixed stringFixed "c1" "a1" true "u1"
              "2025-01-01T00:00:01.000Z" "2025-01-01T00:00:02.000Z"
              (Throw "Failed to fetch") "Failed to fetch" "How much did I spend?" oneChat)
    as (_ & Hchat).
  - vm_compute. discriminate.
  - left. reflexivity.
  - exact (Hchat 0%nat _ eq_refl eq_refl).
Defined.

Lemma stream_without_line_breaks_witness :
  let out := send (Ok helloResponse) "u1" "2025-01-01T00:00:01.000Z"
               "a1" "2025-01-01T00:00:02.000Z" "c1" "Say hello" oneChat in
  chats (fst out)
  = updateMessageInChat "c1" "a1" (contentPatch "Hello world")
      (chats (started "c1" "a1" "u1" "2025-01-01T00:00:01.000Z"
                "2025-01-01T00:00:02.000Z" "Say hello" oneChat)).
Proof.
  intros out.
  refine (stream_without_line_breaks noParse printFixed stringFixed "c1" "a1" true "u1"
            "2025-01-01T00:00:01.000Z" "2025-01-01T00:00:02.000Z" helloResponse
            helloBody "Say hello" oneChat _ eq_refl eq_refl eq_refl eq_refl _).
  - vm_compute. discriminate.
  - repeat constructor.
Defined.

(** The line [{"reply":"hi"}], and a stand-in for [JSON.parse] that reads
    it. *)
Definition quote : string := String (ascii_of_nat 34) EmptyString.
Definition lineBreak : string := String "010"%char EmptyString.

Definition replyLine : string :=
  "{" +:+ quote +:+ "reply" +:+ quote +:+ ":" +:+ quote +:+ "hi" +:+ quote +:+ "}".

Definition parseReplyLine (line : string) : result JSON :=
  if bool_decide (line = replyLine) then Ok (JObj [("reply", JStr "hi")])
  else Throw "SyntaxError".

Definition replyLineResponse : Response :=
  {| ok := true; status := 200;
     body := Some {| chunks := [replyLine +:+ lineBreak]; failure := None |};
     json := Throw "body stream already read";
     text := Throw "body stream already read" |}.

Lemma stream_json_line_witness :
  let out := sendChatMessage parseReplyLine printFixed stringFixed true
               (Ok replyLineResponse) "u1" "2025-01-01T00:00:01.000Z"
               "a1" "2025-01-01T00:00:02.000Z" "c1" "Say hi" oneChat in
  chats (fst out)
  = updateMessageInChat "c1" "a1" (contentPatch (replyLine +:+ lineBreak +:+ "hi"))
      (chats (started "c1" "a1" "u1" "2025-01-01T00:00:01.000Z"
                "2025-01-01T00:00:02.000Z" "Say hi" oneChat)).
Proof.
  intros out.
  refine (stream_json_line parseReplyLine printFixed stringFixed "c1" "a1" true "u1"
            "2025-01-01T00:00:01.000Z" "2025-01-01T00:00:02.000Z" replyLineResponse
            _ replyLine "hi" "Say hi" (JObj [("reply", JStr "hi")]) oneChat
            _ eq_refl eq_refl eq_refl eq_refl eq_refl eq_refl _ eq_refl eq_refl).
  - vm_compute. discriminate.
  - vm_compute. discriminate.
Defined.

End SendMoreExamples.

Section RouteExamples.

Lemma POST_then_DELETE_witness :
  let s := ExpensesRoute.serve
             [ExpensesRoute.Post (Ok (JObj [("title", JStr "Tea"); ("amount", JNum (num 20))]))
                "2025-01-01T00:00:00.000Z"]
             ExpensesRoute.initial in
  let posted := ExpensesRoute.POST (Ok (JObj [("title", JStr "Coffee")]))
                  "2025-01-02T00:00:00.000Z" s in
  length (ExpensesRoute.expenses (fst posted)) = 2%nat
  /\ ExpensesRoute.expenses
       (fst (ExpensesRoute.DELETE (Ok (JObj [("id", JNum (num 2))])) (fst posted)))
     = ExpensesRoute.expenses s.
Proof.
  intros s posted.
  destruct (POST_then_DELETE
              [ExpensesRoute.Post (Ok (JObj [("title", JStr "Tea"); ("amount", JNum (num 20))]))
                 "2025-01-01T00:00:00.000Z"]
              (JObj [("title", JStr "Coffee")]) "2025-01-02T00:00:00.000Z" "2")
    as (_ & H2 & H3 & _).
  - discriminate.
  - split; [exact H2|]. exact H3.
Defined.

Definition refusedResponse : ChatCenter.Response :=
  {| ChatCenter.ok := false; ChatCenter.status := 500; ChatCenter.body := None;
     ChatCenter.json := Ok (JObj [("reply", JStr "⚠️ Internal server error in chatbot.")]);
     ChatCenter.text := Throw "body stream already read" |}.

Lemma route_answers_on_client_witness :
  let out := ChatCenter.sendChatMessage noParse printFixed stringFixed true
               (Ok refusedResponse) "u1" "2025-01-01T00:00:01.000Z"
               "a1" "2025-01-01T00:00:02.000Z" "c1" "How much did I spend?" oneChat in
  ChatCenter.chats (fst out)
  = ChatCenter.updateMessageInChat "c1" "a1"
      (ChatCenter.contentPatch "⚠️ [object Object]")
      (ChatCenter.chats (started "c1" "a1" "u1" "2025-01-01T00:00:01.000Z"
                           "2025-01-01T00:00:02.000Z" "How much did I spend?" oneChat)).
Proof.
  intros out.
  destruct (route_answers_on_client noParse printFixed stringFixed true "c1" "a1" "u1"
              "2025-01-01T00:00:01.000Z" "2025-01-01T00:00:02.000Z"
              (Ok (JObj [("message", JStr "How much did I spend?")]))
              (Throw "connect ECONNREFUSED") refusedResponse
              "How much did I spend?" oneChat) as [Herror _].
  - vm_compute. discriminate.
  - destruct (Herror eq_refl) as [Hfirst _].
    destruct (Hfirst (ChatRoute.reply 500
                        (Some (JStr "⚠️ Internal server error in chatbot."))))
      as [_ Hshown].
    + reflexivity.
    + discriminate.
    + reflexivity.
    + exact Hshown.
Defined.

End RouteExamples.

(** ** The two pages that ask the chat route *)

Section PagesOnRoute.

(** X29. Whatever the request gives, [handleChat] with a text that is not blank
    ends without an exception, with the loading flag lowered and the input
    cleared. On an answer of the second version of the chat route it shows
    the reply when the status is 200 and the reply is truthy; on the 500 of
    the route it shows that there was no reply, and the text of the error is
    not shown. *)
Theorem handleChat_on_generate_route (req : result JSON)
    (fetched : result ChatRoute.Upstream) (s : HomePage.Home) :
  trim (HomePage.chatInput s) <> EmptyString ->
  (forall answered,
     let out := HomePage.handleChat answered s in
     snd out = Ok tt
     /\ HomePage.loading (fst out) = false
     /\ HomePage.chatInput (fst out) = EmptyString)
  /\ exists answer,
       ChatRoute.POST_generate req fetched tt = (tt, Ok answer)
       /\ let shown := HomePage.chatResponse
                         (fst (HomePage.handleChat (Ok (sent answer)) s)) in
          (status answer = 500%nat -> shown = JStr "⚠️ No reply from AI")
          /\ (status answer = 200%nat ->
              exists value,
                sent answer = JObj [("reply", value)]
                /\ shown = if truthyJ (Some value) then value
                           else JStr "⚠️ No reply from AI").
Proof.
  intros Hinput. split.
  - intros answered. unfold HomePage.handleChat.
    rewrite bool_decide_eq_false_2 by exact Hinput.
    unfold mbind, Eff_bind, eff_bind, try_catch, await. cbn [modify].
    destruct answered as [data|e]; [|repeat split; reflexivity].
    destruct (replyOf data) as [reply|e]; [|repeat split; reflexivity].
    destruct (truthyJ reply); repeat split; reflexivity.
  - destruct (generate_route_cases req fetched) as (answer & Hrun & Hcases).
    exists answer. split; [exact Hrun|]. cbn zeta. unfold HomePage.handleChat.
    rewrite bool_decide_eq_false_2 by exact Hinput.
    unfold mbind, Eff_bind, eff_bind, try_catch, await. cbn [modify].
    destruct Hcases as [[H200 (value & Hsent & _)]|(H500 & text & Hsent & _)];
      rewrite Hsent; cbn [replyOf].
    + split; [intros H; congruence|]. intros _. exists value. split; [reflexivity|].
      change (field "reply" (Some (JObj [("reply", value)]))) with (Some value).
      destruct (truthyJ (Some value)); reflexivity.
    + split; [intros _; reflexivity|]. intros H. congruence.
Qed.

Variable String_of : option JSON -> string.

(** X30. Whatever the request gives, [askAiForSavings] ends without an exception,
    with the loading flag lowered and a suggestion set. On every answer of
    the first version of the chat route the suggestion is the reply of the
    route as a text: a refusal of the route is shown word for word, and the
    text for a missing reply is never shown. *)
Theorem askAiForSavings_on_chat_route (req : result JSON)
    (fetched : result ChatRoute.Upstream) (advice : DashboardAdvice.Advice) :
  (forall answered,
     let out := DashboardAdvice.askAiForSavings String_of answered advice in
     snd out = Ok tt
     /\ DashboardAdvice.suggestionLoading (fst out) = false
     /\ is_Some (DashboardAdvice.aiSuggestion (fst out)))
  /\ exists answer value,
       ChatRoute.POST req fetched tt = (tt, Ok answer)
       /\ sent answer = JObj [("reply", value)]
       /\ let suggestion :=
            DashboardAdvice.aiSuggestion
              (fst (DashboardAdvice.askAiForSavings String_of (Ok (sent answer)) advice)) in
          suggestion = Some (ChatCenter.toString String_of (Some value))
          /\ (status answer <> 200%nat ->
              exists text, text ∈ refusals /\ suggestion = Some text).
Proof.
  split.
  - intros answered. unfold DashboardAdvice.askAiForSavings.
    unfold mbind, Eff_bind, eff_bind, try_finally, try_catch, await. cbn [modify].
    destruct answered as [data|e]; [|repeat split; eexists; reflexivity].
    destruct (replyOf data) as [reply|e]; repeat split; eexists; reflexivity.
  - assert (Hrun : forall value,
              value <> JNull ->
              DashboardAdvice.aiSuggestion
                (fst (DashboardAdvice.askAiForSavings String_of
                        (Ok (JObj [("reply", value)])) advice))
              = Some (ChatCenter.toString String_of (Some value))).
    { intros value Hvalue. unfold DashboardAdvice.askAiForSavings.
      unfold mbind, Eff_bind, eff_bind, try_finally, try_catch, await.
      cbn [modify replyOf].
      change (field "reply" (Some (JObj [("reply", value)]))) with (Some value).
      destruct value; [contradiction|reflexivity..]. }
    destruct (POST_cases req fetched) as (answer & Hpost & Hcases).
    destruct Hcases as [(i & text & Hi & _ & Hsent)
                       |(_ & _ & value & _ & _ & _ & H200 & Hsent & Htruthy)].
    + exists answer, (JStr text). split; [exact Hpost|]. split; [exact Hsent|].
      cbn zeta. rewrite Hsent, Hrun by discriminate. split; [reflexivity|].
      intros _. exists text. split; [|reflexivity].
      eapply list_elem_of_lookup_2. exact Hi.
    + exists answer, value. split; [exact Hpost|]. split; [exact Hsent|].
      cbn zeta. rewrite Hsent, Hrun by (intros ->; discriminate).
      split; [reflexivity|]. intros H. contradiction.
Qed.

End PagesOnRoute.

Section PagesExamples.

Definition askingHome : HomePage.Home :=
  {| HomePage.chatInput := "How can I save more?";
     HomePage.chatResponse := JStr EmptyString;
     HomePage.loading := false |}.

Lemma handleChat_on_generate_route_witness :
  exists answer,
    ChatRoute.POST_generate (Ok (JObj [("prompt", JStr "How can I save more?")]))
      (Throw "connect ECONNREFUSED") tt = (tt, Ok answer)
    /\ sent answer = JObj [("error", JStr "connect ECONNREFUSED")]
    /\ HomePage.chatResponse (fst (HomePage.handleChat (Ok (sent answer)) askingHome))
       = JStr "⚠️ No reply from AI".
Proof.
  destruct (handleChat_on_generate_route
              (Ok (JObj [("prompt", JStr "How can I save more?")]))
              (Throw "connect ECONNREFUSED") askingHome)
    as (_ & answer & Hrun & H500 & _).
  - vm_compute. discriminate.
  - exists answer. split; [exact Hrun|].
    assert (Hanswer : answer
                      = {| status := 500;
                           sent := JObj [("error", JStr "connect ECONNREFUSED")] |}).
    { change (ChatRoute.POST_generate
                (Ok (JObj [("prompt", JStr "How can I save more?")]))
                (Throw "connect ECONNREFUSED") tt)
        with (tt, Ok {| status := 500;
                        sent := JObj [("error", JStr "connect ECONNREFUSED")] |})
        in Hrun.
      injection Hrun as <-. reflexivity. }
    split; [rewrite Hanswer; reflexivity|].
    apply H500. rewrite Hanswer. reflexivity.
Defined.

End PagesExamples.
